(** * The durable job queue of signmakerv2 (jobs.py, worker.py, api_jobs.py,
      publisher_web.py)

    A shallow embedding of the SQLite-backed job queue, of the worker
    that drains it, of the HTTP routes that expose it and of the route
    that feeds it, with the properties of the queue's specification and
    further properties read off the code.

    Conventions of the embedding.
    - The [jobs] table is a list of rows in rowid (insertion) order.
    - A [REAL] timestamp is an integer number of clock ticks: only the
      order of timestamps and the subtraction [now - timeout] are used
      by the code, and floating-point rounding is not modelled.
    - Every call of [time.time()] is an explicit argument [now] of the
      function that makes it, [uuid.uuid4()] is the argument [new_id] of
      [enqueue_job].
    - [json.dumps] and [json.loads] belong to Python's library, they are
      parameters of the development ([json_dumps], [json_loads]); a
      runnable reference codec is given for the examples.
    - Numbers in documents are integers.
    - Store I/O errors (lock time-outs) are not modelled. *)

From Stdlib Require Import ZArith Lia Ascii String List.
From stdpp Require Import base tactics option list strings numbers pretty sorting.

Set Warnings "-register-all,-clear-no-such-hyp".
Local Open Scope string_scope.
Local Open Scope list_scope.
Local Open Scope Z_scope.

(** ** Data model *)

(** The structured documents carried by [payload], [result] and
    [progress]: what [json.loads] can produce (numbers are integers
    here). A Python [dict] is a list of bindings in insertion order. *)
Inductive json : Type :=
  | JNull
  | JBool (b : bool)
  | JInt (z : Z)
  | JStr (s : string)
  | JList (l : list json)
  | JDict (m : list (string * json)).

(** One row of the [jobs] table, columns as in [init_db]. A nullable
    column is an [option]. *)
Record Job : Type := mkJob {
  j_id : string;
  j_type : string;
  j_status : string;
  j_created_at : Z;
  j_updated_at : Z;
  j_started_at : option Z;
  j_finished_at : option Z;
  j_requested_by : option string;
  j_payload : string;
  j_result : option string;
  j_error : option string;
  j_attempts : Z;
  j_max_attempts : Z;
  j_progress : option string;
  j_worker_id : option string
}.

Abbreviation DB := (list Job).

(** A JSON column after [get_job]'s decoding step: [None] stays [None],
    the empty text stays text, anything else is replaced by the decoded
    document. *)
Inductive doc_field : Type :=
  | FNull
  | FText (s : string)
  | FDoc (v : json).

(** The dict returned by [get_job] and [list_jobs]: the row, with the
    three JSON columns decoded. *)
Record JobDict : Type := mkJobDict {
  d_id : string;
  d_type : string;
  d_status : string;
  d_created_at : Z;
  d_updated_at : Z;
  d_started_at : option Z;
  d_finished_at : option Z;
  d_requested_by : option string;
  d_payload : doc_field;
  d_result : doc_field;
  d_error : option string;
  d_attempts : Z;
  d_max_attempts : Z;
  d_progress : doc_field;
  d_worker_id : option string
}.

(** Results of calls that may raise; the message is [str(e)]. *)
Inductive res (A : Type) : Type :=
  | Ok (a : A)
  | Raised (msg : string).
Arguments Ok {A} a.
Arguments Raised {A} msg.

Definition res_bind {A B} (x : res A) (f : A -> res B) : res B :=
  match x with
  | Ok a => f a
  | Raised m => Raised m
  end.

Notation "x <- e1 ;;; e2" := (res_bind e1 (fun x => e2))
  (at level 100, e1 at next level, right associativity).

(** Setters used by the [UPDATE] statements. *)
Definition set_status (s : string) (r : Job) : Job :=
  mkJob (j_id r) (j_type r) s (j_created_at r) (j_updated_at r) (j_started_at r)
        (j_finished_at r) (j_requested_by r) (j_payload r) (j_result r) (j_error r)
        (j_attempts r) (j_max_attempts r) (j_progress r) (j_worker_id r).

Definition set_updated_at (t : Z) (r : Job) : Job :=
  mkJob (j_id r) (j_type r) (j_status r) (j_created_at r) t (j_started_at r)
        (j_finished_at r) (j_requested_by r) (j_payload r) (j_result r) (j_error r)
        (j_attempts r) (j_max_attempts r) (j_progress r) (j_worker_id r).

Definition set_started_at (t : option Z) (r : Job) : Job :=
  mkJob (j_id r) (j_type r) (j_status r) (j_created_at r) (j_updated_at r) t
        (j_finished_at r) (j_requested_by r) (j_payload r) (j_result r) (j_error r)
        (j_attempts r) (j_max_attempts r) (j_progress r) (j_worker_id r).

Definition set_finished_at (t : option Z) (r : Job) : Job :=
  mkJob (j_id r) (j_type r) (j_status r) (j_created_at r) (j_updated_at r)
        (j_started_at r) t (j_requested_by r) (j_payload r) (j_result r) (j_error r)
        (j_attempts r) (j_max_attempts r) (j_progress r) (j_worker_id r).

Definition set_result (x : option string) (r : Job) : Job :=
  mkJob (j_id r) (j_type r) (j_status r) (j_created_at r) (j_updated_at r)
        (j_started_at r) (j_finished_at r) (j_requested_by r) (j_payload r) x (j_error r)
        (j_attempts r) (j_max_attempts r) (j_progress r) (j_worker_id r).

Definition set_error (x : option string) (r : Job) : Job :=
  mkJob (j_id r) (j_type r) (j_status r) (j_created_at r) (j_updated_at r)
        (j_started_at r) (j_finished_at r) (j_requested_by r) (j_payload r) (j_result r) x
        (j_attempts r) (j_max_attempts r) (j_progress r) (j_worker_id r).

Definition set_attempts (n : Z) (r : Job) : Job :=
  mkJob (j_id r) (j_type r) (j_status r) (j_created_at r) (j_updated_at r)
        (j_started_at r) (j_finished_at r) (j_requested_by r) (j_payload r) (j_result r)
        (j_error r) n (j_max_attempts r) (j_progress r) (j_worker_id r).

Definition set_progress (x : option string) (r : Job) : Job :=
  mkJob (j_id r) (j_type r) (j_status r) (j_created_at r) (j_updated_at r)
        (j_started_at r) (j_finished_at r) (j_requested_by r) (j_payload r) (j_result r)
        (j_error r) (j_attempts r) (j_max_attempts r) x (j_worker_id r).

Definition set_worker_id (x : option string) (r : Job) : Job :=
  mkJob (j_id r) (j_type r) (j_status r) (j_created_at r) (j_updated_at r)
        (j_started_at r) (j_finished_at r) (j_requested_by r) (j_payload r) (j_result r)
        (j_error r) (j_attempts r) (j_max_attempts r) (j_progress r) x.

(** [UPDATE jobs SET ... WHERE cond]: every row that satisfies [cond] is
    rewritten by [f], the others are kept; rows keep their place. *)
Definition sql_update (cond : Job -> bool) (f : Job -> Job) (db : DB) : DB :=
  map (fun r => if cond r then f r else r) db.

(** [SELECT * FROM jobs WHERE id = ?] followed by [fetchone()]. *)
Definition select_by_id (jid : string) (db : DB) : option Job :=
  find (fun r => bool_decide (j_id r = jid)) db.

(** [dict.get(key)] on a document that is a dict. *)
Fixpoint dict_get (m : list (string * json)) (key : string) : option json :=
  match m with
  | [] => None
  | (k, v) :: m' => if bool_decide (k = key) then Some v else dict_get m' key
  end.

(** ** A reference JSON codec

    A writer in the default layout of [json.dumps] (separators [", "]
    and [": "]) and a reader for the same grammar. Of the characters of
    a string only the quote and the backslash are escaped, so the text
    is that of [json.dumps] for strings of printable ASCII. The queue is
    verified against an arbitrary codec; this one makes the examples run
    and is shown to round-trip every document. *)
Module RefCodec.

Definition dquote : ascii := "034"%char.
Definition backslash : ascii := "092"%char.

Fixpoint escape (s : string) : string :=
  match s with
  | EmptyString => EmptyString
  | String c s' =>
      if bool_decide (c = dquote) || bool_decide (c = backslash)
      then String backslash (String c (escape s'))
      else String c (escape s')
  end.

Definition quote (s : string) : string :=
  String dquote (escape s +:+ String dquote EmptyString).

Fixpoint join (sep : string) (l : list string) : string :=
  match l with
  | [] => EmptyString
  | x :: l' =>
      match l' with
      | [] => x
      | _ :: _ => x +:+ sep +:+ join sep l'
      end
  end.

Fixpoint dumps (v : json) : string :=
  match v with
  | JNull => "null"
  | JBool true => "true"
  | JBool false => "false"
  | JInt z => pretty z
  | JStr s => quote s
  | JList l => "[" +:+ join ", " (map dumps l) +:+ "]"
  | JDict m =>
      "{" +:+ join ", " (map (fun kv => quote (fst kv) +:+ ": " +:+ dumps (snd kv)) m)
          +:+ "}"
  end.

Definition is_space (c : ascii) : bool :=
  bool_decide (c = " "%char) || bool_decide (c = "010"%char)
  || bool_decide (c = "009"%char) || bool_decide (c = "013"%char).

Fixpoint skip_ws (s : string) : string :=
  match s with
  | String c s' => if is_space c then skip_ws s' else s
  | EmptyString => s
  end.

Definition digit_of (c : ascii) : option Z :=
  let n := Z.of_nat (nat_of_ascii c) in
  if (48 <=? n) && (n <=? 57) then Some (n - 48) else None.

Fixpoint read_digits (acc : Z) (s : string) : Z * string :=
  match s with
  | String c s' =>
      match digit_of c with
      | Some d => read_digits (10 * acc + d) s'
      | None => (acc, s)
      end
  | EmptyString => (acc, s)
  end.

Definition read_int (s : string) : option (Z * string) :=
  match s with
  | String c s' =>
      if bool_decide (c = "-"%char) then
        match s' with
        | String d _ =>
            match digit_of d with
            | Some _ => let '(n, rest) := read_digits 0 s' in Some (- n, rest)
            | None => None
            end
        | EmptyString => None
        end
      else
        match digit_of c with
        | Some _ => Some (read_digits 0 s)
        | None => None
        end
  | EmptyString => None
  end.

(** Reads the body of a string literal, after its opening quote. *)
Fixpoint read_string (s : string) : option (string * string) :=
  match s with
  | EmptyString => None
  | String c s' =>
      if bool_decide (c = dquote) then Some (EmptyString, s')
      else if bool_decide (c = backslash) then
        match s' with
        | String e s'' =>
            match read_string s'' with
            | Some (body, rest) => Some (String e body, rest)
            | None => None
            end
        | EmptyString => None
        end
      else
        match read_string s' with
        | Some (body, rest) => Some (String c body, rest)
        | None => None
        end
  end.

(** [s] without its prefix [word]. *)
Fixpoint strip_prefix (word s : string) : option string :=
  match word with
  | EmptyString => Some s
  | String c word' =>
      match s with
      | String c' s' => if bool_decide (c = c') then strip_prefix word' s' else None
      | EmptyString => None
      end
  end.

Definition expect (word : string) (v : json) (s : string) : option (json * string) :=
  match strip_prefix word s with
  | Some rest => Some (v, rest)
  | None => None
  end.

(** The character that follows a value inside brackets: the closing
    bracket [close] ends the sequence, a comma continues it. *)
Inductive delimiter : Type := DClose (rest : string) | DComma (rest : string) | DNone.

Definition read_delimiter (close : ascii) (s : string) : delimiter :=
  match skip_ws s with
  | String c rest =>
      if bool_decide (c = close) then DClose rest
      else if bool_decide (c = ","%char) then DComma rest
      else DNone
  | EmptyString => DNone
  end.

Fixpoint read_value (fuel : nat) (s : string) {struct fuel} : option (json * string) :=
  match fuel with
  | O => None
  | S fuel' =>
      match skip_ws s with
      | EmptyString => None
      | String c s' =>
          if bool_decide (c = "n"%char) then expect "null" JNull (String c s')
          else if bool_decide (c = "t"%char) then expect "true" (JBool true) (String c s')
          else if bool_decide (c = "f"%char) then expect "false" (JBool false) (String c s')
          else if bool_decide (c = dquote) then
            match read_string s' with
            | Some (body, rest) => Some (JStr body, rest)
            | None => None
            end
          else if bool_decide (c = "["%char) then
            match read_delimiter "]"%char s' with
            | DClose rest => Some (JList [], rest)
            | _ =>
                match read_items fuel' s' with
                | Some (l, rest) => Some (JList l, rest)
                | None => None
                end
            end
          else if bool_decide (c = "{"%char) then
            match read_delimiter "}"%char s' with
            | DClose rest => Some (JDict [], rest)
            | _ =>
                match read_members fuel' s' with
                | Some (m, rest) => Some (JDict m, rest)
                | None => None
                end
            end
          else
            match read_int (String c s') with
            | Some (z, rest) => Some (JInt z, rest)
            | None => None
            end
      end
  end
with read_items (fuel : nat) (s : string) {struct fuel} : option (list json * string) :=
  match fuel with
  | O => None
  | S fuel' =>
      match read_value fuel' s with
      | Some (v, rest) =>
          match read_delimiter "]"%char rest with
          | DClose rest' => Some ([v], rest')
          | DComma rest' =>
              match read_items fuel' rest' with
              | Some (l, rest'') => Some (v :: l, rest'')
              | None => None
              end
          | DNone => None
          end
      | None => None
      end
  end
with read_members (fuel : nat) (s : string) {struct fuel}
    : option (list (string * json) * string) :=
  match fuel with
  | O => None
  | S fuel' =>
      match skip_ws s with
      | String c s' =>
          if bool_decide (c = dquote) then
            match read_string s' with
            | Some (k, rest) =>
                match skip_ws rest with
                | String c' rest' =>
                    if bool_decide (c' = ":"%char) then
                      match read_value fuel' rest' with
                      | Some (v, rest'') =>
                          match read_delimiter "}"%char rest'' with
                          | DClose rest3 => Some ([(k, v)], rest3)
                          | DComma rest3 =>
                              match read_members fuel' rest3 with
                              | Some (m, rest4) => Some ((k, v) :: m, rest4)
                              | None => None
                              end
                          | DNone => None
                          end
                      | None => None
                      end
                    else None
                | EmptyString => None
                end
            | None => None
            end
          else None
      | EmptyString => None
      end
  end.

Definition loads (s : string) : option json :=
  match read_value (S (String.length s)) s with
  | Some (v, rest) =>
      match skip_ws rest with
      | EmptyString => Some v
      | _ => None
      end
  | None => None
  end.

End RefCodec.

(** A string that does not go on with a digit. *)
Definition no_digit_ahead (s : string) : Prop :=
  match s with
  | String c _ => RefCodec.digit_of c = None
  | EmptyString => True
  end.

(** A first character of a numeral: a digit or the sign. *)
Definition int_head (c : ascii) : Prop :=
  is_Some (RefCodec.digit_of c) \/ c = "-"%char.

(** What the reader does on the text of a document, given fuel beyond
    the length of that text. *)
Definition reads_back (v : json) : Prop :=
  forall fuel rest,
    (String.length (RefCodec.dumps v) < fuel)%nat -> no_digit_ahead rest ->
    RefCodec.read_value fuel (RefCodec.dumps v +:+ rest) = Some (v, rest).

(** ** The queue API (jobs.py) *)

Section Queue.

(** [json.dumps] and [json.loads]; [json_loads] gives [None] where
    Python raises [JSONDecodeError]. *)
Variable json_dumps : json -> string.
Variable json_loads : string -> option json.

(** [enqueue_job]: one [INSERT]; the primary key refuses an id that is
    already in the table. *)
Definition enqueue_job (new_id : string) (now : Z) (job_type : string) (payload : json)
    (requested_by : option string) (max_attempts : Z) (db : DB) : res (string * DB) :=
  match select_by_id new_id db with
  | Some _ => Raised "UNIQUE constraint failed: jobs.id"
  | None =>
      Ok (new_id,
          db ++ [mkJob new_id job_type "queued" now now None None requested_by
                       (json_dumps payload) None None 0 max_attempts None None])
  end.

(** [if job[k]: job[k] = json.loads(job[k])]: [None] and the empty text
    are falsy and stay as they are. *)
Definition decode_column (t : option string) : res doc_field :=
  match t with
  | None => Ok FNull
  | Some s =>
      if bool_decide (s = EmptyString) then Ok (FText s)
      else match json_loads s with
           | Some v => Ok (FDoc v)
           | None => Raised "JSONDecodeError"
           end
  end.

(** [dict(row)] followed by the decoding of the three JSON columns. *)
Definition row_to_dict (r : Job) : res JobDict :=
  p <- decode_column (Some (j_payload r)) ;;;
  rs <- decode_column (j_result r) ;;;
  pg <- decode_column (j_progress r) ;;;
  Ok (mkJobDict (j_id r) (j_type r) (j_status r) (j_created_at r) (j_updated_at r)
                (j_started_at r) (j_finished_at r) (j_requested_by r) p rs
                (j_error r) (j_attempts r) (j_max_attempts r) pg (j_worker_id r)).

Definition get_job (job_id : string) (db : DB) : res (option JobDict) :=
  match select_by_id job_id db with
  | None => Ok None
  | Some r => d <- row_to_dict r ;;; Ok (Some d)
  end.

Definition is_queued (r : Job) : bool := bool_decide (j_status r = "queued").

(** [SELECT id FROM jobs WHERE status = 'queued' ORDER BY created_at
    LIMIT 1]: the queued row of least [created_at]; among rows of equal
    [created_at] the index on (status, created_at) yields the least
    rowid, the first in the list. *)
Fixpoint oldest_queued (db : DB) : option Job :=
  match db with
  | [] => None
  | r :: db' =>
      if is_queued r then
        match oldest_queued db' with
        | Some r' => if j_created_at r' <? j_created_at r then Some r' else Some r
        | None => Some r
        end
      else oldest_queued db'
  end.

(** Step 1 of [claim_next_job]: the [SELECT]. *)
Definition claim_select (db : DB) : option string :=
  j_id <$> oldest_queued db.

(** Step 2 of [claim_next_job]: the conditional [UPDATE ... WHERE id = ?
    AND status = 'queued']. *)
Definition claimed (now : Z) (worker_id : string) (r : Job) : Job :=
  set_updated_at now
    (set_worker_id (Some worker_id) (set_started_at (Some now) (set_status "running" r))).

Definition claim_update (now : Z) (worker_id job_id : string) (db : DB) : DB :=
  sql_update (fun r => bool_decide (j_id r = job_id) && is_queued r)
             (claimed now worker_id) db.

(** [claim_next_job]: select, update, and [return get_job(job_id)]; the
    number of rows the update changed is not looked at. *)
Definition claim_next_job (now : Z) (worker_id : string) (db : DB)
    : res (option JobDict) * DB :=
  match claim_select db with
  | None => (Ok None, db)
  | Some job_id =>
      let db' := claim_update now worker_id job_id db in
      (get_job job_id db', db')
  end.

(** [update_job_status]: the [SET] list is built in the order of the
    source and applied to the rows [WHERE id = ?]. *)
Definition update_job_status (now : Z) (job_id status : string) (result : option json)
    (error : option string) (progress : option json) (attempts : option Z)
    (db : DB) : DB :=
  sql_update (fun r => bool_decide (j_id r = job_id))
    (fun r =>
       let r := set_updated_at now r in
       let r := set_status status r in
       let r := if bool_decide (status = "succeeded") then set_finished_at (Some now) r
                else if bool_decide (status = "failed") then set_finished_at (Some now) r
                else r in
       let r := match result with
                | Some v => set_result (Some (json_dumps v)) r
                | None => r
                end in
       let r := match error with
                | Some e => set_error (Some e) r
                | None => r
                end in
       let r := match progress with
                | Some v => set_progress (Some (json_dumps v)) r
                | None => r
                end in
       match attempts with
       | Some n => set_attempts n r
       | None => r
       end)
    db.

(** [if status:] and [if job_type:] in [list_jobs]: a filter is added
    only for a truthy argument, that is a non-empty string. *)
Definition filter_matches (arg : option string) (column : string) : bool :=
  match arg with
  | None => true
  | Some s => if bool_decide (s = EmptyString) then true else bool_decide (column = s)
  end.

Definition list_where (status job_type : option string) (r : Job) : bool :=
  filter_matches status (j_status r) && filter_matches job_type (j_type r).

(** Whether [list_jobs] adds the term [status = ?] to its query. *)
Definition status_term (status : option string) : bool :=
  match status with
  | None => false
  | Some s => negb (bool_decide (s = EmptyString))
  end.

(** [ORDER BY created_at DESC]. SQL leaves the order of rows of equal
    [created_at] to the engine, and SQLite has two answers for the
    query of [list_jobs]. With the term [status = ?] it reads the index
    on (status, created_at) backwards: of rows of equal [created_at]
    the later rowid comes first ([by_index]). Without that term it
    scans the table, or the index on type, in rowid order and sorts
    through a temporary b-tree keyed by [created_at] and the sequence
    of arrival: of rows of equal [created_at] the earlier rowid comes
    first. *)
Fixpoint insert_desc (by_index : bool) (r : Job) (l : list Job) : list Job :=
  match l with
  | [] => [r]
  | x :: l' =>
      if (if by_index then j_created_at x <? j_created_at r
          else j_created_at x <=? j_created_at r)
      then r :: l
      else x :: insert_desc by_index r l'
  end.

Definition order_by_created_at_desc (by_index : bool) (l : list Job) : list Job :=
  foldr (insert_desc by_index) [] l.

(** [LIMIT ?] as SQLite evaluates it: a negative bound is no bound. *)
Definition sql_limit {A} (limit : Z) (l : list A) : list A :=
  if limit <? 0 then l else take (Z.to_nat limit) l.

(** An integer that the sqlite3 module can bind to a parameter: a
    signed 64-bit number. For another one [execute] raises
    [OverflowError]. *)
Definition sqlite_int (n : Z) : bool :=
  (-9223372036854775808 <=? n) && (n <? 9223372036854775808).

Fixpoint res_mapM {A B} (f : A -> res B) (l : list A) : res (list B) :=
  match l with
  | [] => Ok []
  | x :: l' => y <- f x ;;; ys <- res_mapM f l' ;;; Ok (y :: ys)
  end.

(** The rows that the query of [list_jobs] yields, in order. *)
Definition list_rows (status job_type : option string) (limit : Z) (db : DB) : list Job :=
  sql_limit limit
    (order_by_created_at_desc (status_term status)
       (List.filter (list_where status job_type) db)).

(** [list_jobs]: the query is executed with [limit] bound to its last
    parameter, then every row is decoded. *)
Definition list_jobs (status job_type : option string) (limit : Z) (db : DB)
    : res (list JobDict) :=
  if sqlite_int limit
  then res_mapM row_to_dict (list_rows status job_type limit db)
  else Raised "Python int too large to convert to SQLite INTEGER".

(** The id, the status and the type of a row, and of a job returned. *)
Definition row_key (r : Job) : string * string * string :=
  (j_id r, j_status r, j_type r).

Definition job_key (d : JobDict) : string * string * string :=
  (d_id d, d_status d, d_type d).

(** [requeue_stale_jobs]: the clock is read twice, for the cutoff and
    for [updated_at]. A [NULL] [started_at] compares to nothing. *)
Definition is_stale (cutoff : Z) (r : Job) : bool :=
  bool_decide (j_status r = "running")
  && match j_started_at r with
     | Some t => t <? cutoff
     | None => false
     end.

Definition requeue_stale_jobs (now_cutoff now_update : Z) (timeout_seconds : Z)
    (db : DB) : DB :=
  let cutoff := now_cutoff - timeout_seconds in
  sql_update (is_stale cutoff)
             (fun r => set_updated_at now_update
                         (set_worker_id None (set_status "queued" r)))
             db.

(** Newest first: [a] may stand before [b]. *)
Definition newer_first (a b : Job) : Prop := j_created_at b <= j_created_at a.

(** A stored JSON text that [get_job] can decode. *)
Definition decodable (s : string) : Prop :=
  s = EmptyString \/ is_Some (json_loads s).

Definition row_decodable (r : Job) : Prop :=
  decodable (j_payload r) /\
  (forall s, j_result r = Some s -> decodable s) /\
  (forall s, j_progress r = Some s -> decodable s).

(** ** The worker (worker.py) *)

(** What [subprocess.run] does: it returns a completed process, or it
    raises (the interpreter is not found, an argument is not a string). *)
Inductive proc_result : Type :=
  | Completed (returncode : Z) (stdout stderr : string)
  | ProcRaised (msg : string).

(** The statements of [process_job] between the first status update and
    the test of the return code: [payload.get('m_number', '')] raises
    when the payload is not a dict, and [subprocess.run] raises when an
    argument is not a string; [run] is the script, as a function of the
    product number it is given. *)
Definition run_handler (run : string -> proc_result) (job : JobDict) : proc_result :=
  match d_payload job with
  | FDoc (JDict m) =>
      match dict_get m "m_number" with
      | None => run EmptyString
      | Some (JStr s) => run s
      | Some _ => ProcRaised "expected str, bytes or os.PathLike object"
      end
  | _ => ProcRaised "object has no attribute 'get'"
  end.

Definition known_type (job : JobDict) : bool :=
  bool_decide (d_type job = "generate_amazon_content").

(** The [except Exception] branch of [process_job]. *)
Definition handle_exception (now : Z) (job : JobDict) (msg : string) (db : DB) : DB :=
  let error := "Worker exception: " +:+ msg in
  let attempts := d_attempts job + 1 in
  if d_max_attempts job <=? attempts
  then update_job_status now (d_id job) "failed" None (Some error) None (Some attempts) db
  else update_job_status now (d_id job) "queued" None (Some error) None (Some attempts) db.

(** The first progress report of a job. *)
Definition starting_doc : json := JDict [("stage", JStr "starting")].

(** First statement of [process_job]'s [try] block: the job is marked
    running with its first progress report, or, for an unknown type,
    failed at once. *)
Definition process_start (now : Z) (job : JobDict) (db : DB) : DB :=
  if known_type job
  then update_job_status now (d_id job) "running" None None (Some starting_doc) None db
  else update_job_status now (d_id job) "failed" None
         (Some ("Unknown job type: " +:+ d_type job)) None None db.

(** Rest of [process_job] for a known type: the script is run and its
    outcome written back. *)
Definition process_finish (now : Z) (job : JobDict) (out : proc_result) (db : DB) : DB :=
  match out with
  | Completed returncode stdout stderr =>
      if bool_decide (returncode = 0)
      then update_job_status now (d_id job) "succeeded"
             (Some (JDict [("output", JStr stdout)])) None None None db
      else
        let error := if bool_decide (stderr = EmptyString) then "Script failed" else stderr in
        update_job_status now (d_id job) "failed" None (Some error) None None db
  | ProcRaised msg => handle_exception now job msg db
  end.

(** [process_job]; [now1] and [now2] are the clock readings of its two
    status updates (an unknown type makes one update only). *)
Definition process_job (run : string -> proc_result) (now1 now2 : Z) (job : JobDict)
    (db : DB) : DB :=
  let db1 := process_start now1 job db in
  if known_type job then process_finish now2 job (run_handler run job) db1 else db1.

(** The clock readings of one turn of [worker_loop]. *)
Record ticks : Type := mkTicks {
  t_cutoff : Z;
  t_requeue : Z;
  t_claim : Z;
  t_start : Z;
  t_end : Z
}.

(** One turn of the [while True] loop of [worker_loop], for the worker
    [worker_id] with stale time-out [stale_timeout]. The state of the
    loop is the store and [consecutive_empty_polls]; the third component
    of the result is the id of the job the turn has executed, if any. An
    exception of [claim_next_job] is caught by the loop and the turn
    ends like an empty poll, without the increment. *)
Definition worker_turn (worker_id : string) (stale_timeout : Z)
    (run : string -> proc_result) (t : ticks) (st : DB * Z) : DB * Z * option string :=
  let '(db, consecutive_empty_polls) := st in
  let db1 := if bool_decide (consecutive_empty_polls mod 30 = 0)
             then requeue_stale_jobs (t_cutoff t) (t_requeue t) stale_timeout db
             else db in
  match claim_next_job (t_claim t) worker_id db1 with
  | (Ok (Some job), db2) =>
      (process_job run (t_start t) (t_end t) job db2, 0, Some (d_id job))
  | (Ok None, db2) => (db2, consecutive_empty_polls + 1, None)
  | (Raised _, db2) => (db2, consecutive_empty_polls, None)
  end.

(** Several turns in a row, each with the behaviour of the script and
    the clock readings of that turn; the ids of the executed jobs are
    collected in order. *)
Fixpoint worker_loop (worker_id : string) (stale_timeout : Z)
    (turns : list ((string -> proc_result) * ticks)) (st : DB * Z)
    : DB * Z * list string :=
  match turns with
  | [] => (st, [])
  | (run, t) :: turns' =>
      let '(db, n, ex) := worker_turn worker_id stale_timeout run t st in
      let '(db', n', exs) := worker_loop worker_id stale_timeout turns' (db, n) in
      (db', n', match ex with Some i => i :: exs | None => exs end)
  end.

(** The script raises whatever it is given. *)
Definition always_raises (run : string -> proc_result) : Prop :=
  forall s, exists msg, run s = ProcRaised msg.

(** The handler raises on the job [job_id]. *)
Definition raises_on (job_id : string) (run : string -> proc_result) : Prop :=
  forall d, d_id d = job_id -> exists msg, run_handler run d = ProcRaised msg.

(** How often the job [job_id] occurs among the executed jobs. *)
Definition executions (job_id : string) (exs : list string) : nat :=
  length (filter (fun x => x = job_id) exs).

(** The executions a row still has before it is failed for good, as the
    retry policy counts them. *)
Definition retry_budget (r : Job) : nat :=
  if bool_decide (j_status r = "queued")
  then Z.to_nat (Z.max 1 (j_max_attempts r - j_attempts r))
  else 0%nat.

(** ** Several workers on one store

    The web process and any number of worker processes share the table.
    Each process runs one SQL statement at a time, and statements of
    different processes interleave: a run of the system is a sequence of
    events, each the next statement of one process. *)

(** Where a worker process stands in [worker_loop]. *)
Inductive wstate : Type :=
  | WIdle
  | WSelected (now : Z) (job_id : string)
  | WUpdated (job_id : string)
  | WClaimed (job : JobDict)
  | WExecuting (job : JobDict).

Record Sys : Type := mkSys {
  sys_db : DB;
  sys_workers : string -> wstate
}.

Definition set_worker (w : string) (st : wstate) (ws : string -> wstate)
    : string -> wstate :=
  fun w' => if bool_decide (w' = w) then st else ws w'.

Inductive event : Type :=
  | EvEnqueue (new_id : string) (now : Z) (job_type : string) (payload : json)
              (requested_by : option string) (max_attempts : Z)
  | EvRequeueStale (now_cutoff now_update timeout_seconds : Z)
  | EvSelect (w : string) (now : Z)
  | EvUpdate (w : string)
  | EvFetch (w : string)
  | EvStart (w : string) (now : Z)
  | EvFinish (w : string) (now : Z) (run : string -> proc_result).

(** One event. [EvSelect], [EvUpdate] and [EvFetch] are the three
    statements of [claim_next_job], [EvStart] and [EvFinish] the two
    status updates of [process_job]; an event that is not the next
    statement of its process changes nothing. *)
Definition step (e : event) (s : Sys) : Sys :=
  match e with
  | EvEnqueue new_id now job_type payload requested_by max_attempts =>
      match enqueue_job new_id now job_type payload requested_by max_attempts (sys_db s) with
      | Ok (_, db') => mkSys db' (sys_workers s)
      | Raised _ => s
      end
  | EvRequeueStale now_cutoff now_update timeout_seconds =>
      mkSys (requeue_stale_jobs now_cutoff now_update timeout_seconds (sys_db s))
            (sys_workers s)
  | EvSelect w now =>
      match sys_workers s w with
      | WIdle =>
          match claim_select (sys_db s) with
          | Some job_id => mkSys (sys_db s) (set_worker w (WSelected now job_id) (sys_workers s))
          | None => s
          end
      | _ => s
      end
  | EvUpdate w =>
      match sys_workers s w with
      | WSelected now job_id =>
          mkSys (claim_update now w job_id (sys_db s))
                (set_worker w (WUpdated job_id) (sys_workers s))
      | _ => s
      end
  | EvFetch w =>
      match sys_workers s w with
      | WUpdated job_id =>
          match get_job job_id (sys_db s) with
          | Ok (Some job) => mkSys (sys_db s) (set_worker w (WClaimed job) (sys_workers s))
          | _ => mkSys (sys_db s) (set_worker w WIdle (sys_workers s))
          end
      | _ => s
      end
  | EvStart w now =>
      match sys_workers s w with
      | WClaimed job =>
          mkSys (process_start now job (sys_db s))
                (set_worker w (if known_type job then WExecuting job else WIdle)
                            (sys_workers s))
      | _ => s
      end
  | EvFinish w now run =>
      match sys_workers s w with
      | WExecuting job =>
          mkSys (process_finish now job (run_handler run job) (sys_db s))
                (set_worker w WIdle (sys_workers s))
      | _ => s
      end
  end.

Definition init : Sys := mkSys [] (fun _ => WIdle).

Definition run_events (evs : list event) (s : Sys) : Sys :=
  fold_left (fun s e => step e s) evs s.

(** The histories of the system: the states visited from the empty
    store, the current one first. *)
Inductive history : list Sys -> Prop :=
  | history_init : history [init]
  | history_step e s past : history (s :: past) -> history (step e s :: s :: past).

(** The job [job_id] has had a status in [Q] at some point of [h]. *)
Definition has_been (Q : string -> Prop) (job_id : string) (h : list Sys) : Prop :=
  exists s r, s ∈ h /\ r ∈ sys_db s /\ j_id r = job_id /\ Q (j_status r).

Definition running (st : string) : Prop := st = "running".

(** ** Invariants of the store *)

Definition terminal (st : string) : Prop := st = "succeeded" \/ st = "failed".

Definition valid_status (st : string) : Prop :=
  st = "queued" \/ st = "running" \/ terminal st.

(** What holds of every row at all times. *)
Definition row_ok (r : Job) : Prop :=
  valid_status (j_status r) /\
  (terminal (j_status r) -> is_Some (j_finished_at r)) /\
  (j_status r <> "queued" -> is_Some (j_started_at r)).

(** A row as [enqueue_job] inserts it. *)
Definition row_fresh (r : Job) : Prop :=
  j_status r = "queued" /\ j_started_at r = None /\ j_finished_at r = None.

(** How one statement may change a row. *)
Definition row_step (r r' : Job) : Prop :=
  j_id r' = j_id r /\ row_ok r' /\
  (is_Some (j_finished_at r') <-> is_Some (j_finished_at r) \/ terminal (j_status r')) /\
  (is_Some (j_started_at r') <-> is_Some (j_started_at r) \/ j_status r' = "running").

(** The job [job_id] is stored and has been claimed. *)
Definition holds_started (db : DB) (job_id : string) : Prop :=
  exists r, r ∈ db /\ j_id r = job_id /\ is_Some (j_started_at r).

(** What a worker's place in the loop says about the store. *)
Definition worker_ok (db : DB) (ws : wstate) : Prop :=
  match ws with
  | WIdle => True
  | WSelected _ job_id => job_id ∈ map j_id db
  | WUpdated job_id => holds_started db job_id
  | WClaimed job => holds_started db (d_id job)
  | WExecuting job => holds_started db (d_id job)
  end.

Definition sys_ok (s : Sys) : Prop :=
  NoDup (map j_id (sys_db s)) /\
  (forall r, r ∈ sys_db s -> row_ok r) /\
  (forall w, worker_ok (sys_db s) (sys_workers s w)).

(** ** One worker process at a time *)

(** [finished_at] is set exactly for the terminal statuses. *)
Definition strict_row (r : Job) : Prop :=
  is_Some (j_finished_at r) <-> terminal (j_status r).

(** The events of a fleet of one: the worker [w] is the only worker
    process alive, and, as in [worker_loop], the stale sweep is run by
    that worker between two jobs. Producers enqueue at any time. *)
Definition solo_event (w : string) (e : event) (s : Sys) : Prop :=
  match e with
  | EvEnqueue _ _ _ _ _ _ => True
  | EvRequeueStale _ _ _ => sys_workers s w = WIdle
  | EvSelect w' _ => w' = w
  | EvUpdate w' => w' = w
  | EvFetch w' => w' = w
  | EvStart w' _ => w' = w
  | EvFinish w' _ _ => w' = w
  end.

(** The histories with one worker process at a time; [solo_restart] is
    the death of the worker, wherever it stands, and the start of a new
    process under another id. *)
Inductive solo_history : string -> list Sys -> Prop :=
  | solo_init w : solo_history w [init]
  | solo_step w e s past :
      solo_history w (s :: past) -> solo_event w e s ->
      solo_history w (step e s :: s :: past)
  | solo_restart w w' s past :
      solo_history w (s :: past) -> sys_workers s w' = WIdle ->
      solo_history w' (s :: past).

(** What the place of the one worker says about the store. *)
Definition solo_worker_ok (db : DB) (ws : wstate) : Prop :=
  match ws with
  | WIdle => True
  | WSelected _ job_id => exists r, r ∈ db /\ j_id r = job_id /\ j_status r = "queued"
  | WUpdated job_id => exists r, r ∈ db /\ j_id r = job_id /\ j_status r = "running"
  | WClaimed job => exists r, r ∈ db /\ j_id r = d_id job /\ j_status r = "running"
  | WExecuting job => exists r, r ∈ db /\ j_id r = d_id job /\ j_status r = "running"
  end.

Definition solo_ok (w : string) (s : Sys) : Prop :=
  NoDup (map j_id (sys_db s)) /\
  (forall r, r ∈ sys_db s -> strict_row r) /\
  solo_worker_ok (sys_db s) (sys_workers s w).

(** How one statement may change the table: rows are rewritten in
    place, and at most one fresh row is appended. *)
Definition rows_evolve (db db' : DB) : Prop :=
  exists g extra,
    db' = map g db ++ extra /\
    (forall r, r ∈ db -> row_step r (g r)) /\
    (extra = [] \/
     exists x, extra = [x] /\ row_fresh x /\ j_id x ∉ map j_id db).

(** ** Calls that do not overlap *)

(** Complete [claim_next_job] calls made one after the other, each with
    its clock reading and its caller; the jobs handed out are collected
    in order. *)
Fixpoint claim_calls (calls : list (Z * string)) (db : DB) : list JobDict * DB :=
  match calls with
  | [] => ([], db)
  | (now, worker_id) :: calls' =>
      let '(out, db1) := claim_next_job now worker_id db in
      let '(jobs, db2) := claim_calls calls' db1 in
      (match out with Ok (Some job) => job :: jobs | _ => jobs end, db2)
  end.

(** The columns that are written by the [INSERT] only. *)
Definition same_job (r r' : Job) : Prop :=
  j_id r' = j_id r /\ j_type r' = j_type r /\ j_created_at r' = j_created_at r /\
  j_requested_by r' = j_requested_by r /\ j_payload r' = j_payload r /\
  j_max_attempts r' = j_max_attempts r.

(** The number of rows of a status. *)
Definition count_status (status : string) (db : DB) : nat :=
  length (List.filter (fun r => bool_decide (j_status r = status)) db).

(** ** The HTTP routes (api_jobs.py) *)

Section Routes.

(** [datetime.fromtimestamp(t).strftime('%Y-%m-%d %H:%M:%S')] in the
    time zone of the server; it raises for a time outside the range of
    the platform. *)
Variable strftime : Z -> res string.

(** [int(s)] on the text of a query parameter; it raises [ValueError]
    on text that is not a number. *)
Variable py_int : string -> res Z.

(** The body of the answer of [get_job_status] for a stored job: the
    dict of [get_job] with the formatted times that were added. *)
Record JobView : Type := mkJobView {
  v_job : JobDict;
  v_created_at_formatted : option string;
  v_started_at_formatted : option string;
  v_finished_at_formatted : option string
}.

Inductive job_body : Type :=
  | BodyError (error : string)
  | BodyJob (v : JobView).

(** [if job.get('created_at'):] with the formatting under it. The
    truth value of a time is that of a float: zero is falsy. *)
Definition format_created (t : Z) : res (option string) :=
  if t =? 0 then Ok None else s <- strftime t ;;; Ok (Some s).

(** [if job.get(k):] for [started_at] and [finished_at]. In
    [get_job_status] the name [datetime] is bound by an import that
    stands under the test of [created_at]: where that test failed the
    name is unbound. *)
Definition format_later (imported : bool) (t : option Z) : res (option string) :=
  match t with
  | None => Ok None
  | Some t' =>
      if t' =? 0 then Ok None
      else if imported then s <- strftime t' ;;; Ok (Some s)
      else Raised "cannot access local variable 'datetime'"
  end.

(** [GET /api/jobs/<job_id>]: the body and the status code. *)
Definition get_job_status (job_id : string) (db : DB) : res (job_body * Z) :=
  job <- get_job job_id db ;;;
  match job with
  | None => Ok (BodyError "Job not found", 404)
  | Some job =>
      let imported := negb (d_created_at job =? 0) in
      c <- format_created (d_created_at job) ;;;
      s <- format_later imported (d_started_at job) ;;;
      f <- format_later imported (d_finished_at job) ;;;
      Ok (BodyJob (mkJobView job c s f), 200)
  end.

(** The body of the answer of [list_all_jobs]; [l_filters] echoes the
    status, the type and the limit of the request. *)
Record JobList : Type := mkJobList {
  l_jobs : list (JobDict * option string);
  l_count : nat;
  l_filters : option string * option string * Z
}.

(** [GET /api/jobs]; the arguments are the query parameters [status],
    [type] and [limit], absent or given as text. *)
Definition list_all_jobs (status job_type limit_arg : option string) (db : DB)
    : res JobList :=
  limit <- match limit_arg with
           | Some s => py_int s
           | None => Ok 50
           end ;;;
  jobs <- list_jobs status job_type limit db ;;;
  views <- res_mapM (fun job => c <- format_created (d_created_at job) ;;; Ok (job, c))
                    jobs ;;;
  Ok (mkJobList views (length jobs) (status, job_type, limit)).

(** The body of the answer of [get_job_stats]. *)
Record JobStats : Type := mkJobStats {
  s_queued : nat;
  s_running : nat;
  s_succeeded : nat;
  s_failed : nat;
  s_total : nat
}.

(** [GET /api/jobs/stats]: four listings, counted. *)
Definition get_job_stats (db : DB) : res JobStats :=
  queued <- list_jobs (Some "queued") None 1000 db ;;;
  running <- list_jobs (Some "running") None 1000 db ;;;
  succeeded <- list_jobs (Some "succeeded") None 100 db ;;;
  failed <- list_jobs (Some "failed") None 100 db ;;;
  Ok (mkJobStats (length queued) (length running) (length succeeded) (length failed)
        (length queued + length running + length succeeded + length failed)).

End Routes.

(** ** The producer (publisher_web.py) *)

(** The payload that [run_content] enqueues in async mode. *)
Definition content_payload (flatfile_name theme use_cases : string) : json :=
  JDict [("csv_path", JStr "products_approved.csv");
         ("output_path", JStr flatfile_name);
         ("exports_path", JStr "exports");
         ("brand", JStr "NorthByNorthEast");
         ("theme", JStr theme);
         ("use_cases", JStr use_cases);
         ("upload_images", JBool true);
         ("qa_filter", JStr "all")].

(** The body of the answer of [run_content] in async mode. *)
Record Accepted : Type := mkAccepted {
  a_mode : string;
  a_jobId : string;
  a_statusUrl : string;
  a_message : string
}.

(** The async branch of [run_content] ([POST /api/run/content] when
    async jobs are enabled for the type): the job is enqueued with the
    default [requested_by] and [max_attempts], and the answer is 202. *)
Definition run_content_async (new_id : string) (now : Z)
    (flatfile_name theme use_cases : string) (db : DB) : res (Accepted * Z * DB) :=
  e <- enqueue_job new_id now "generate_amazon_content"
         (content_payload flatfile_name theme use_cases) None 3 db ;;;
  let '(job_id, db') := e in
  Ok (mkAccepted "async" job_id ("/api/jobs/" +:+ job_id)
        "Job queued successfully. Check status at the provided URL.", 202, db').

(** ** Example stores and runs *)

Definition ex_payload : json := JDict [("m_number", JStr "M1234")].

Definition ex_row (job_id status : string) (created : Z) (started : option Z)
    (worker : option string) : Job :=
  mkJob job_id "generate_amazon_content" status created created started None None
        (RefCodec.dumps ex_payload) None None 0 3 None worker.

(** A job as [enqueue_job] leaves it. *)
Definition ex_queued : Job := ex_row "job-1" "queued" 10 None None.

(** The same job, claimed at time 100. *)
Definition ex_running : Job := ex_row "job-1" "running" 10 (Some 100) (Some "worker-1").

(** The same job, back in the queue after a stale sweep. *)
Definition ex_requeued : Job := ex_row "job-1" "queued" 10 (Some 100) None.

Definition ex_two : DB :=
  [ex_row "job-a" "queued" 10 None None; ex_row "job-b" "queued" 20 None None].

(** Five queued jobs and a newer one that is running. *)
Definition ex_five : DB :=
  [ex_row "job-1" "queued" 10 None None; ex_row "job-2" "queued" 20 None None;
   ex_row "job-3" "queued" 30 None None; ex_row "job-4" "queued" 40 None None;
   ex_row "job-5" "queued" 50 None None;
   ex_row "job-6" "running" 60 (Some 61) (Some "worker-1")].

Definition ex_enqueue : event :=
  EvEnqueue "job-1" 10 "generate_amazon_content" ex_payload None 3.

(** Two workers race for one queued job: both run the [SELECT] before
    either runs the [UPDATE]. *)
Definition ex_race : list event :=
  [ex_enqueue;
   EvSelect "worker-1" 11; EvSelect "worker-2" 12;
   EvUpdate "worker-1"; EvFetch "worker-1";
   EvUpdate "worker-2"; EvFetch "worker-2"].

(** A job outlives the stale time-out: it is swept and claimed again
    while its first worker is still busy with it. *)
Definition ex_overrun : list event :=
  [ex_enqueue;
   EvSelect "worker-1" 11; EvUpdate "worker-1"; EvFetch "worker-1";
   EvStart "worker-1" 12;
   EvRequeueStale 1000 1000 600;
   EvSelect "worker-2" 1001; EvUpdate "worker-2"; EvFetch "worker-2";
   EvFinish "worker-1" 1002 (fun _ => Completed 0 "done" EmptyString);
   EvStart "worker-2" 1003].

Definition ex_clock (n : Z) : ticks := mkTicks n n (n + 1) (n + 2) (n + 3).

(** A script that cannot be started. *)
Definition ex_boom : string -> proc_result := fun _ => ProcRaised "boom".

(** A script that ends with return code 0. *)
Definition ex_ok : string -> proc_result := fun _ => Completed 0 "done" EmptyString.

(** The running job as [get_job] returns it. *)
Definition ex_running_dict : JobDict :=
  mkJobDict "job-1" "generate_amazon_content" "running" 10 10 (Some 100) None None
            (FDoc ex_payload) FNull None 0 3 FNull (Some "worker-1").

(** A running job of a type the worker has no handler for, and the job
    as [get_job] returns it. *)
Definition ex_unknown : Job :=
  mkJob "job-7" "resize_images" "running" 10 10 (Some 100) None None
        (RefCodec.dumps ex_payload) None None 0 3 None (Some "worker-1").

Definition ex_unknown_dict : JobDict :=
  mkJobDict "job-7" "resize_images" "running" 10 10 (Some 100) None None
            (FDoc ex_payload) FNull None 0 3 FNull (Some "worker-1").

(** The running job with a payload that is a list, as [get_job] would
    return it. *)
Definition ex_list_dict : JobDict :=
  mkJobDict "job-1" "generate_amazon_content" "running" 10 10 (Some 100) None None
            (FDoc (JList [JStr "M1234"])) FNull None 0 3 FNull (Some "worker-1").

(** A queued job whose payload column is not a JSON text. *)
Definition ex_bad : Job :=
  mkJob "job-8" "generate_amazon_content" "queued" 10 10 None None None
        "not json" None None 0 3 None None.

(** A job that has failed. *)
Definition ex_failed : Job :=
  mkJob "job-9" "generate_amazon_content" "failed" 10 200 (Some 100) (Some 200) None
        (RefCodec.dumps ex_payload) None (Some "Script failed") 0 3 None
        (Some "worker-1").

(** A formatter of times for the examples: the number of the tick. *)
Definition ex_strftime : Z -> res string := fun t => Ok (pretty t).

(** A reader of numbers that knows one text. *)
Definition ex_int : string -> res Z :=
  fun s => if bool_decide (s = "2") then Ok 2 else Raised "invalid literal for int()".

(** ** Properties of the store operations *)

Lemma sql_update_lookup cond f (db : DB) (i : nat) :
  sql_update cond f db !! i = (fun r => if cond r then f r else r) <$> db !! i.
Proof. unfold sql_update. apply list_lookup_fmap. Qed.

Lemma sql_update_length cond f (db : DB) :
  length (sql_update cond f db) = length db.
Proof. unfold sql_update. apply length_map. Qed.

Lemma sql_update_ids cond f (db : DB) :
  (forall r, j_id (f r) = j_id r) ->
  map j_id (sql_update cond f db) = map j_id db.
Proof.
  intros Hf. unfold sql_update. rewrite map_map. apply map_ext.
  intros r. destruct (cond r); auto.
Qed.

Lemma select_by_id_Some jid (db : DB) r :
  select_by_id jid db = Some r -> r ∈ db /\ j_id r = jid.
Proof.
  unfold select_by_id. intros H. apply find_some in H as [Hin Hid].
  split; [by apply list_elem_of_In|]. by apply bool_decide_eq_true in Hid.
Qed.

Lemma select_by_id_None jid (db : DB) :
  select_by_id jid db = None <-> jid ∉ map j_id db.
Proof.
  unfold select_by_id. induction db as [|r db IH]; simpl.
  - split; [intros _; apply not_elem_of_nil | done].
  - rewrite not_elem_of_cons. case_bool_decide as Hid; split.
    + discriminate.
    + intros [Hne _]. congruence.
    + intros H. split; [congruence | by apply IH].
    + intros [_ H]. by apply IH.
Qed.

(** Decoding a row. *)

Lemma decode_column_decodable s :
  decodable s -> exists f, decode_column (Some s) = Ok f.
Proof.
  intros [->|[v Hv]]; unfold decode_column.
  - rewrite bool_decide_eq_true_2 by done. eauto.
  - case_bool_decide; [eauto|]. rewrite Hv. eauto.
Qed.

Lemma row_to_dict_decodable r :
  row_decodable r ->
  exists d, row_to_dict r = Ok d /\
    d_id d = j_id r /\ d_type d = j_type r /\ d_status d = j_status r /\
    d_attempts d = j_attempts r /\ d_max_attempts d = j_max_attempts r /\
    d_worker_id d = j_worker_id r /\ d_started_at d = j_started_at r.
Proof.
  intros (Hp & Hr & Hg). unfold row_to_dict.
  destruct (decode_column_decodable _ Hp) as [fp ->]. simpl.
  assert (exists f, decode_column (j_result r) = Ok f) as [fr ->].
  { destruct (j_result r) as [s|]; [by apply decode_column_decodable, Hr | by eexists]. }
  assert (exists f, decode_column (j_progress r) = Ok f) as [fg ->].
  { destruct (j_progress r) as [s|]; [by apply decode_column_decodable, Hg | by eexists]. }
  simpl. eexists. split; [reflexivity|]. done.
Qed.

Lemma decode_column_Ok s f : decode_column (Some s) = Ok f -> decodable s.
Proof.
  unfold decode_column, decodable. case_bool_decide as He; [by left|].
  destruct (json_loads s) eqn:Hl; [|done]. intros _. right. by eexists.
Qed.

Lemma row_to_dict_Ok r d : row_to_dict r = Ok d -> row_decodable r.
Proof.
  unfold row_to_dict, row_decodable.
  destruct (decode_column (Some (j_payload r))) as [fp|] eqn:Hp; simpl; [|done].
  destruct (decode_column (j_result r)) as [fr|] eqn:Hr; simpl; [|done].
  destruct (decode_column (j_progress r)) as [fg|] eqn:Hg; simpl; [|done].
  intros _. split; [by eapply decode_column_Ok|]. split.
  - intros s Hs. rewrite Hs in Hr. by eapply decode_column_Ok.
  - intros s Hs. rewrite Hs in Hg. by eapply decode_column_Ok.
Qed.

Lemma row_to_dict_fields r d :
  row_to_dict r = Ok d ->
  d_id d = j_id r /\ d_type d = j_type r /\ d_status d = j_status r /\
  d_created_at d = j_created_at r /\ d_started_at d = j_started_at r /\
  d_finished_at d = j_finished_at r /\ d_attempts d = j_attempts r /\
  d_max_attempts d = j_max_attempts r /\ d_worker_id d = j_worker_id r /\
  d_error d = j_error r.
Proof.
  unfold row_to_dict.
  destruct (decode_column (Some (j_payload r))); simpl; [|done].
  destruct (decode_column (j_result r)); simpl; [|done].
  destruct (decode_column (j_progress r)); simpl; [|done].
  by intros [= <-].
Qed.

Lemma row_to_dict_columns r d :
  row_to_dict r = Ok d ->
  decode_column (Some (j_payload r)) = Ok (d_payload d) /\
  decode_column (j_result r) = Ok (d_result d) /\
  decode_column (j_progress r) = Ok (d_progress d).
Proof.
  unfold row_to_dict.
  destruct (decode_column (Some (j_payload r))); simpl; [|done].
  destruct (decode_column (j_result r)); simpl; [|done].
  destruct (decode_column (j_progress r)); simpl; [|done].
  by intros [= <-].
Qed.

Lemma res_mapM_Ok (rows : list Job) :
  (exists ds, res_mapM row_to_dict rows = Ok ds) <-> Forall row_decodable rows.
Proof.
  induction rows as [|r rows IH]; simpl.
  - split; [constructor | by eexists].
  - rewrite Forall_cons. split.
    + intros [ds Hds]. destruct (row_to_dict r) as [d|] eqn:Hd; simpl in Hds; [|done].
      split; [by eapply row_to_dict_Ok|]. apply IH.
      destruct (res_mapM row_to_dict rows); simpl in Hds; [by eexists | done].
    + intros [Hr Hrows]. destruct (row_to_dict_decodable r Hr) as (d & -> & _).
      apply IH in Hrows as [ds ->]. simpl. by eexists.
Qed.

Lemma res_mapM_length {A B} (f : A -> res B) (l : list A) ys :
  res_mapM f l = Ok ys -> length ys = length l.
Proof.
  revert ys. induction l as [|x l IH]; simpl; intros ys.
  - by intros [= <-].
  - destruct (f x); simpl; [|done].
    destruct (res_mapM f l) as [ys'|]; simpl; [|done].
    intros [= <-]. simpl. f_equal. by apply IH.
Qed.

(** C6. [update_job_status] on a stored row: the row keeps its place and
    every column but [status], [updated_at], [finished_at] and the
    columns whose argument is supplied; [status] becomes the argument,
    [updated_at] becomes [now], [finished_at] becomes [now] exactly for
    the statuses succeeded and failed and is kept otherwise; rows of
    other ids are not touched. *)
Theorem update_job_status_frame now job_id status result error progress attempts
    (db : DB) (i : nat) (r : Job) :
  db !! i = Some r ->
  let db' := update_job_status now job_id status result error progress attempts db in
  length db' = length db /\
  (j_id r <> job_id -> db' !! i = Some r) /\
  (j_id r = job_id ->
   exists r', db' !! i = Some r' /\
     j_id r' = j_id r /\ j_type r' = j_type r /\ j_created_at r' = j_created_at r /\
     j_started_at r' = j_started_at r /\ j_requested_by r' = j_requested_by r /\
     j_payload r' = j_payload r /\ j_max_attempts r' = j_max_attempts r /\
     j_worker_id r' = j_worker_id r /\
     j_status r' = status /\
     j_updated_at r' = now /\
     (status = "succeeded" \/ status = "failed" -> j_finished_at r' = Some now) /\
     (status <> "succeeded" -> status <> "failed" -> j_finished_at r' = j_finished_at r) /\
     j_result r' = match result with
                   | Some v => Some (json_dumps v)
                   | None => j_result r
                   end /\
     j_error r' = match error with
                  | Some e => Some e
                  | None => j_error r
                  end /\
     j_progress r' = match progress with
                     | Some v => Some (json_dumps v)
                     | None => j_progress r
                     end /\
     j_attempts r' = match attempts with
                     | Some n => n
                     | None => j_attempts r
                     end).
Proof.
  clear json_loads.
  intros Hi db'. subst db'. unfold update_job_status.
  rewrite sql_update_length, sql_update_lookup, Hi. simpl.
  split; [done|]. split.
  - intros Hne. by rewrite bool_decide_eq_false_2.
  - intros Heq. rewrite bool_decide_eq_true_2 by done.
    eexists. split; [reflexivity|].
    destruct result, error, progress, attempts;
      repeat case_bool_decide; simpl; intuition congruence.
Qed.

Lemma requeue_stale_jobs_lookup now_cutoff now_update timeout_seconds
    (db : DB) (i : nat) :
  requeue_stale_jobs now_cutoff now_update timeout_seconds db !! i
  = (fun r => if is_stale (now_cutoff - timeout_seconds) r
              then set_updated_at now_update (set_worker_id None (set_status "queued" r))
              else r) <$> db !! i.
Proof. unfold requeue_stale_jobs. apply sql_update_lookup. Qed.

Lemma is_stale_true cutoff r T :
  j_status r = "running" -> j_started_at r = Some T -> T < cutoff ->
  is_stale cutoff r = true.
Proof.
  intros Hst HT Hlt. unfold is_stale. rewrite HT, bool_decide_eq_true_2 by done.
  simpl. by apply Z.ltb_lt.
Qed.

Lemma is_stale_false cutoff r :
  j_status r <> "running" \/ j_started_at r = None \/
  (exists T, j_started_at r = Some T /\ cutoff <= T) ->
  is_stale cutoff r = false.
Proof.
  unfold is_stale. intros [Hst|[HT|(T & HT & Hle)]].
  - by rewrite bool_decide_eq_false_2.
  - rewrite HT. apply andb_false_r.
  - rewrite HT. apply andb_false_iff. right. by apply Z.ltb_ge.
Qed.

(** C3, as the code has it: [requeue_stale_jobs] flips a running row
    whose [started_at] is strictly older than the cutoff [now - timeout]
    to queued, clears its [worker_id], refreshes its [updated_at] and
    keeps every other column, [attempts] among them; a running row
    started at [T] is left as it is when the call reads the clock at or
    before [T + timeout], and so is every row that is not running or has
    no [started_at]. *)
Theorem requeue_stale_jobs_spec now_cutoff now_update timeout_seconds
    (db : DB) (i : nat) (r : Job) :
  db !! i = Some r ->
  let db' := requeue_stale_jobs now_cutoff now_update timeout_seconds db in
  (forall T, j_status r = "running" -> j_started_at r = Some T ->
     T + timeout_seconds < now_cutoff ->
     exists r', db' !! i = Some r' /\
       j_status r' = "queued" /\ j_worker_id r' = None /\
       j_updated_at r' = now_update /\ j_attempts r' = j_attempts r /\
       j_id r' = j_id r /\ j_type r' = j_type r /\ j_created_at r' = j_created_at r /\
       j_started_at r' = j_started_at r /\ j_finished_at r' = j_finished_at r /\
       j_requested_by r' = j_requested_by r /\ j_payload r' = j_payload r /\
       j_result r' = j_result r /\ j_error r' = j_error r /\
       j_max_attempts r' = j_max_attempts r /\ j_progress r' = j_progress r) /\
  (forall T, j_status r = "running" -> j_started_at r = Some T ->
     now_cutoff <= T + timeout_seconds -> db' !! i = Some r) /\
  (j_status r <> "running" \/ j_started_at r = None -> db' !! i = Some r).
Proof.
  intros Hi db'. subst db'. rewrite requeue_stale_jobs_lookup, Hi. simpl.
  split; [|split].
  - intros T Hst HT Hlt. rewrite (is_stale_true _ r T) by (done || lia).
    eexists. split; [reflexivity|]. done.
  - intros T Hst HT Hle. rewrite is_stale_false; [done|].
    right. right. exists T. split; [done | lia].
  - intros [Hst|HT]; rewrite is_stale_false; auto.
Qed.

Lemma oldest_queued_Some (db : DB) r :
  oldest_queued db = Some r -> r ∈ db /\ j_status r = "queued".
Proof.
  revert r. induction db as [|x db IH]; simpl; [done|]. intros r.
  unfold is_queued. case_bool_decide as Hq.
  - destruct (oldest_queued db) as [r'|] eqn:Hold.
    + destruct (IH r' eq_refl) as [Hin Hst].
      destruct (j_created_at r' <? j_created_at x); intros [= <-].
      * split; [by apply list_elem_of_further | done].
      * split; [apply list_elem_of_here | done].
    + intros [= <-]. split; [apply list_elem_of_here | done].
  - intros H. destruct (IH r H). split; [by apply list_elem_of_further | done].
Qed.

(** C9. A successful claim writes the claim time into [started_at] and
    [updated_at] and the claimant into [worker_id], whatever the row
    held before; the stale sweep then measures from this claim: the row
    stays running while the cutoff clock is at most [now + timeout] and
    is requeued after that, even if an earlier [started_at] was older. *)
Theorem claim_restarts_stale_clock now worker_id (db : DB) (i : nat) (r : Job) :
  db !! i = Some r ->
  claim_select db = Some (j_id r) ->
  j_status r = "queued" ->
  let db' := (claim_next_job now worker_id db).2 in
  exists r', db' !! i = Some r' /\
    j_status r' = "running" /\ j_started_at r' = Some now /\
    j_worker_id r' = Some worker_id /\ j_updated_at r' = now /\
    forall now_cutoff now_update timeout_seconds,
      let db'' := requeue_stale_jobs now_cutoff now_update timeout_seconds db' in
      (now_cutoff <= now + timeout_seconds -> db'' !! i = Some r') /\
      (now + timeout_seconds < now_cutoff -> j_status <$> db'' !! i = Some "queued").
Proof.
  intros Hi Hsel Hq db'. subst db'. unfold claim_next_job. rewrite Hsel. simpl.
  unfold claim_update at 1. rewrite sql_update_lookup, Hi. simpl.
  unfold is_queued. rewrite !bool_decide_eq_true_2 by done. simpl.
  eexists. split; [reflexivity|]. simpl. repeat split; try done.
  - intros Hle. rewrite requeue_stale_jobs_lookup.
    unfold claim_update. rewrite sql_update_lookup, Hi. simpl.
    unfold is_queued. rewrite !bool_decide_eq_true_2 by done. simpl.
    rewrite is_stale_false; [done|]. right. right. exists now. split; [done | lia].
  - intros Hlt. rewrite requeue_stale_jobs_lookup.
    unfold claim_update. rewrite sql_update_lookup, Hi. simpl.
    unfold is_queued. rewrite !bool_decide_eq_true_2 by done. simpl.
    rewrite (is_stale_true _ _ now) by (done || lia). done.
Qed.

(** The row picked by the [SELECT] of [claim_next_job] is the first of
    the queued rows of least [created_at]. *)
Lemma oldest_queued_first_min (db : DB) r :
  oldest_queued db = Some r ->
  exists k : nat, db !! k = Some r /\
    (forall (k' : nat) r', db !! k' = Some r' -> j_status r' = "queued" ->
       j_created_at r <= j_created_at r' /\
       ((k' < k)%nat -> j_created_at r < j_created_at r')).
Proof.
  revert r. induction db as [|x db IH]; simpl; [done|]. intros r.
  unfold is_queued. case_bool_decide as Hq.
  - destruct (oldest_queued db) as [r0|] eqn:Hold.
    + destruct (IH r0 eq_refl) as (k & Hk & Hmin).
      destruct (Z.ltb_spec (j_created_at r0) (j_created_at x)); intros [= <-].
      * exists (S k). split; [done|]. intros [|k'] r' Hk' Hq'; simpl in *.
        -- injection Hk' as <-. lia.
        -- destruct (Hmin k' r' Hk' Hq'). split; [done|]. intros. apply H1. lia.
      * exists 0%nat. split; [done|]. intros [|k'] r' Hk' Hq'; simpl in *.
        -- injection Hk' as <-. lia.
        -- destruct (Hmin k' r' Hk' Hq'). lia.
    + intros [= <-]. exists 0%nat. split; [done|].
      intros [|k'] r' Hk' Hq'; simpl in *.
      * injection Hk' as <-. lia.
      * exfalso. clear IH. revert k' Hk'. induction db as [|y db IHdb]; intros k' Hk'.
        -- done.
        -- simpl in Hold. unfold is_queued in Hold.
           destruct k' as [|k']; simpl in Hk'.
           ++ injection Hk' as ->. rewrite bool_decide_eq_true_2 in Hold by done.
              by destruct (oldest_queued db) as [r1|];
                [destruct (j_created_at r1 <? j_created_at r')|].
           ++ case_bool_decide.
              ** by destruct (oldest_queued db) as [r1|];
                   [destruct (j_created_at r1 <? j_created_at y)|].
              ** by eapply IHdb.
  - intros Hr. destruct (IH r Hr) as (k & Hk & Hmin).
    exists (S k). split; [done|]. intros [|k'] r' Hk' Hq'; simpl in *.
    + injection Hk' as <-. done.
    + destruct (Hmin k' r' Hk' Hq'). split; [done|]. intros. apply H0. lia.
Qed.

Lemma oldest_queued_None (db : DB) :
  oldest_queued db = None -> forall r, r ∈ db -> j_status r <> "queued".
Proof.
  induction db as [|x db IH]; simpl; intros Hn r Hin.
  - by apply elem_of_nil in Hin.
  - unfold is_queued in Hn. case_bool_decide as Hq.
    + by destruct (oldest_queued db) as [r1|];
        [destruct (j_created_at r1 <? j_created_at x)|].
    + apply elem_of_cons in Hin as [->|Hin]; [done | by apply IH].
Qed.

Lemma select_by_id_lookup (db : DB) (i : nat) r :
  NoDup (map j_id db) -> db !! i = Some r -> select_by_id (j_id r) db = Some r.
Proof.
  unfold select_by_id. revert i. induction db as [|x db IH]; intros i Hnd Hi; [done|].
  simpl in *. apply NoDup_cons in Hnd as [Hx Hnd].
  destruct i as [|i]; simpl in Hi.
  - injection Hi as ->. by rewrite bool_decide_eq_true_2.
  - case_bool_decide as Hid; [|by eapply IH].
    exfalso. apply Hx. rewrite Hid.
    apply list_elem_of_fmap_2. by eapply list_elem_of_lookup_2.
Qed.

Lemma lookup_same_id (db : DB) (i j : nat) r r' :
  NoDup (map j_id db) -> db !! i = Some r -> db !! j = Some r' ->
  j_id r = j_id r' -> i = j.
Proof.
  intros Hnd Hi Hj Hid.
  eapply NoDup_lookup; [exact Hnd| |].
  - change (map j_id db) with (j_id <$> db). rewrite list_lookup_fmap, Hi. reflexivity.
  - change (map j_id db) with (j_id <$> db). rewrite list_lookup_fmap, Hj. simpl.
    by rewrite Hid.
Qed.

Lemma claim_update_ids now worker_id job_id (db : DB) :
  map j_id (claim_update now worker_id job_id db) = map j_id db.
Proof. unfold claim_update. by apply sql_update_ids. Qed.

Lemma claim_update_queued now worker_id (db : DB) (k : nat) r :
  db !! k = Some r -> j_status r = "queued" ->
  claim_update now worker_id (j_id r) db !! k = Some (claimed now worker_id r).
Proof.
  intros Hk Hq. unfold claim_update. rewrite sql_update_lookup, Hk. simpl.
  unfold is_queued. by rewrite !bool_decide_eq_true_2.
Qed.

(** C4. When some job is queued, [claim_next_job] selects a queued row
    of least [created_at], claims it and returns it: the call does not
    answer [None], it returns a job when the row decodes, and the job
    it returns has the id, the type, the [created_at], the attempts and
    the decoded payload of the selected row, is running, and is held by
    the caller since the time of the call. If [A] was inserted before
    [B], both are queued and [created_at A <= created_at B], the
    selected row and the job returned are not [B], and they are [A]
    when no other row is queued. *)
Theorem claim_next_job_fifo now worker_id (db : DB) :
  NoDup (map j_id db) ->
  (exists r0, r0 ∈ db /\ j_status r0 = "queued") ->
  exists r, r ∈ db /\ j_status r = "queued" /\
    (forall r', r' ∈ db -> j_status r' = "queued" -> j_created_at r <= j_created_at r') /\
    claim_select db = Some (j_id r) /\
    (claim_next_job now worker_id db).1
      = (d <- row_to_dict (claimed now worker_id r) ;;; Ok (Some d)) /\
    (forall (i j : nat) A B,
       db !! i = Some A -> db !! j = Some B -> (i < j)%nat ->
       j_status A = "queued" -> j_status B = "queued" ->
       j_created_at A <= j_created_at B ->
       j_id r <> j_id B /\
       ((forall r', r' ∈ db -> j_status r' = "queued" -> r' = A \/ r' = B) -> r = A)) /\
    (claim_next_job now worker_id db).1 <> Ok None /\
    (row_decodable r -> exists d, (claim_next_job now worker_id db).1 = Ok (Some d)) /\
    (forall d, (claim_next_job now worker_id db).1 = Ok (Some d) ->
       d_id d = j_id r /\ d_type d = j_type r /\ d_created_at d = j_created_at r /\
       d_attempts d = j_attempts r /\ d_max_attempts d = j_max_attempts r /\
       decode_column (Some (j_payload r)) = Ok (d_payload d) /\
       d_status d = "running" /\ d_worker_id d = Some worker_id /\
       d_started_at d = Some now /\
       forall (i j : nat) A B,
         db !! i = Some A -> db !! j = Some B -> (i < j)%nat ->
         j_status A = "queued" -> j_status B = "queued" ->
         j_created_at A <= j_created_at B ->
         d_id d <> j_id B /\
         ((forall r', r' ∈ db -> j_status r' = "queued" -> r' = A \/ r' = B) ->
          d_id d = j_id A /\ d_created_at d = j_created_at A /\
          decode_column (Some (j_payload A)) = Ok (d_payload d))).
Proof.
  intros Hnd (r0 & Hin0 & Hq0).
  destruct (oldest_queued db) as [r|] eqn:Hold.
  2:{ exfalso. by eapply oldest_queued_None. }
  destruct (oldest_queued_Some _ _ Hold) as [Hin Hq].
  destruct (oldest_queued_first_min _ _ Hold) as (k & Hk & Hmin).
  assert (Hsel : claim_select db = Some (j_id r)) by (unfold claim_select; by rewrite Hold).
  assert (HnotB : forall (i j : nat) A B,
    db !! i = Some A -> db !! j = Some B -> (i < j)%nat ->
    j_status A = "queued" -> j_status B = "queued" ->
    j_created_at A <= j_created_at B -> j_id r <> j_id B).
  { intros i j A B Hi Hj Hlt HqA HqB Hle Hid.
    assert (k = j) as -> by (by eapply lookup_same_id).
    assert (r = B) as -> by congruence.
    destruct (Hmin i A Hi HqA) as [_ Hstrict]. specialize (Hstrict Hlt). lia. }
  assert (Hret : (claim_next_job now worker_id db).1
                 = (d <- row_to_dict (claimed now worker_id r) ;;; Ok (Some d))).
  { unfold claim_next_job. rewrite Hsel. simpl. unfold get_job.
    assert (Hrow : select_by_id (j_id r) (claim_update now worker_id (j_id r) db)
                   = Some (claimed now worker_id r)).
    { change (j_id r) with (j_id (claimed now worker_id r)) at 1.
      apply (select_by_id_lookup _ k).
      - by rewrite claim_update_ids.
      - by apply claim_update_queued. }
    by rewrite Hrow. }
  assert (HA : forall (i j : nat) A B,
    db !! i = Some A -> db !! j = Some B -> (i < j)%nat ->
    j_status A = "queued" -> j_status B = "queued" ->
    j_created_at A <= j_created_at B ->
    (forall r', r' ∈ db -> j_status r' = "queued" -> r' = A \/ r' = B) -> r = A).
  { intros i j A B Hi Hj Hlt HqA HqB Hle Honly.
    destruct (Honly r Hin Hq) as [->| ->]; [done|].
    by destruct (HnotB i j A B Hi Hj Hlt HqA HqB Hle). }
  exists r. split; [done|]. split; [done|]. split; [|split; [done|split; [done|]]].
  { intros r' Hin' Hq'. apply list_elem_of_lookup_1 in Hin' as [k' Hk'].
    by destruct (Hmin k' r' Hk' Hq'). }
  split; [|split; [|split]].
  - intros i j A B Hi Hj Hlt HqA HqB Hle.
    split; [exact (HnotB i j A B Hi Hj Hlt HqA HqB Hle)
           | exact (HA i j A B Hi Hj Hlt HqA HqB Hle)].
  - rewrite Hret. by destruct (row_to_dict (claimed now worker_id r)).
  - intros Hdec. rewrite Hret.
    destruct (row_to_dict_decodable (claimed now worker_id r)) as (d & -> & _);
      [done | by eexists].
  - intros d Hd. rewrite Hret in Hd.
    destruct (row_to_dict (claimed now worker_id r)) as [d'|] eqn:Hrow; [|done].
    simpl in Hd. injection Hd as ->.
    destruct (row_to_dict_fields _ _ Hrow)
      as (Hid & Hty & Hst & Hcr & Hsa & _ & Hat & Hma & Hw & _).
    destruct (row_to_dict_columns _ _ Hrow) as (Hp & _). simpl in *.
    do 9 (split; [done|]).
    intros i j A B Hi Hj Hlt HqA HqB Hle. split.
    + rewrite Hid. exact (HnotB i j A B Hi Hj Hlt HqA HqB Hle).
    + intros Honly. by rewrite <- (HA i j A B Hi Hj Hlt HqA HqB Hle Honly).
Qed.

Lemma select_by_id_snoc jid (db : DB) r :
  select_by_id jid db = None -> j_id r = jid -> select_by_id jid (db ++ [r]) = Some r.
Proof.
  unfold select_by_id. intros Hnone Hid. induction db as [|x db IH]; simpl in *.
  - by rewrite bool_decide_eq_true_2.
  - destruct (bool_decide (j_id x = jid)); [done | by apply IH].
Qed.

(** [get_job] on the id that [enqueue_job] has just returned, for a
    payload that the codec round-trips. *)
Lemma enqueue_then_get new_id now job_type (P : json) requested_by max_attempts
    (db : DB) :
  new_id ∉ map j_id db ->
  json_dumps P <> EmptyString ->
  json_loads (json_dumps P) = Some P ->
  exists db' d,
    enqueue_job new_id now job_type P requested_by max_attempts db = Ok (new_id, db') /\
    get_job new_id db' = Ok (Some d) /\
    d_payload d = FDoc P /\
    d_id d = new_id /\ d_type d = job_type /\ d_status d = "queued".
Proof.
  intros Hfresh Hne Hrt. apply select_by_id_None in Hfresh.
  unfold enqueue_job. rewrite Hfresh.
  eexists _, _. split; [reflexivity|].
  unfold get_job. rewrite select_by_id_snoc by done.
  unfold row_to_dict, decode_column. simpl.
  rewrite bool_decide_eq_false_2 by done. rewrite Hrt. simpl.
  repeat split.
Qed.

Lemma newer_first_trans : Transitive newer_first.
Proof. unfold newer_first. intros a b c ? ?. lia. Qed.

Lemma insert_desc_test (by_index : bool) x r :
  let test := if by_index then j_created_at x <? j_created_at r
              else j_created_at x <=? j_created_at r in
  (test = true -> j_created_at x <= j_created_at r) /\
  (test = false -> j_created_at r <= j_created_at x).
Proof.
  destruct by_index; simpl.
  - destruct (Z.ltb_spec (j_created_at x) (j_created_at r)); split; intros; (done || lia).
  - destruct (Z.leb_spec (j_created_at x) (j_created_at r)); split; intros; (done || lia).
Qed.

Lemma insert_desc_perm by_index r (l : list Job) : insert_desc by_index r l ≡ₚ r :: l.
Proof.
  induction l as [|x l IH]; simpl; [done|].
  destruct (if by_index then _ else _); [done|].
  rewrite IH. apply Permutation_swap.
Qed.

Lemma order_by_created_at_desc_perm by_index (l : list Job) :
  order_by_created_at_desc by_index l ≡ₚ l.
Proof.
  induction l as [|x l IH]; simpl; [done|].
  rewrite insert_desc_perm. by rewrite IH.
Qed.

Lemma insert_desc_sorted by_index r (l : list Job) :
  Sorted newer_first l -> Sorted newer_first (insert_desc by_index r l).
Proof.
  induction l as [|x l IH]; simpl; intros Hs.
  - by repeat constructor.
  - destruct (insert_desc_test by_index x r) as [Ht Hf].
    destruct (if by_index then _ else _).
    + constructor; [done|]. constructor. unfold newer_first. by apply Ht.
    + apply Sorted_inv in Hs as [Hs Hhd]. constructor; [by apply IH|].
      destruct l as [|y l]; simpl.
      * constructor. unfold newer_first. by apply Hf.
      * destruct (if by_index then _ else _).
        -- constructor. unfold newer_first. by apply Hf.
        -- constructor. by apply HdRel_inv in Hhd.
Qed.

Lemma order_by_created_at_desc_sorted by_index (l : list Job) :
  StronglySorted newer_first (order_by_created_at_desc by_index l).
Proof.
  apply Sorted_StronglySorted; [apply newer_first_trans|].
  induction l as [|x l IH]; simpl; [constructor | by apply insert_desc_sorted].
Qed.

Lemma sqlite_int_spec n :
  sqlite_int n = true <-> -9223372036854775808 <= n < 9223372036854775808.
Proof. unfold sqlite_int. rewrite andb_true_iff, Z.leb_le, Z.ltb_lt. done. Qed.

Lemma sqlite_int_false n :
  sqlite_int n = false <-> n < -9223372036854775808 \/ 9223372036854775808 <= n.
Proof. unfold sqlite_int. rewrite andb_false_iff, Z.leb_gt, Z.ltb_ge. done. Qed.

(** [list_jobs] with a limit that the sqlite3 module can bind. *)
Lemma list_jobs_in_range status job_type limit (db : DB) :
  -9223372036854775808 <= limit < 9223372036854775808 ->
  list_jobs status job_type limit db
  = res_mapM row_to_dict (list_rows status job_type limit db).
Proof. intros H. unfold list_jobs. by rewrite (proj2 (sqlite_int_spec limit) H). Qed.

Lemma list_jobs_Ok status job_type limit (db : DB) ds :
  list_jobs status job_type limit db = Ok ds ->
  -9223372036854775808 <= limit < 9223372036854775808 /\
  res_mapM row_to_dict (list_rows status job_type limit db) = Ok ds.
Proof.
  unfold list_jobs. destruct (sqlite_int limit) eqn:Hint; [|done].
  intros H. split; [by apply sqlite_int_spec | done].
Qed.

Lemma filter_matches_spec arg column :
  filter_matches arg column = true <->
  (forall s, arg = Some s -> s <> EmptyString -> column = s).
Proof.
  unfold filter_matches. destruct arg as [s|].
  - case_bool_decide as He.
    + split; [|done]. intros _ s' [= <-]. done.
    + rewrite bool_decide_eq_true. split.
      * by intros -> s' [= <-].
      * intros H. by apply H.
  - split; [|done]. by intros _ s.
Qed.

Lemma res_mapM_ids (rows : list Job) ds :
  res_mapM row_to_dict rows = Ok ds -> map d_id ds = map j_id rows.
Proof.
  revert ds. induction rows as [|r rows IH]; simpl; intros ds.
  - by intros [= <-].
  - unfold row_to_dict at 1.
    destruct (decode_column (Some (j_payload r))); simpl; [|done].
    destruct (decode_column (j_result r)); simpl; [|done].
    destruct (decode_column (j_progress r)); simpl; [|done].
    destruct (res_mapM row_to_dict rows) as [ds'|]; simpl; [|done].
    intros [= <-]. simpl. f_equal. by apply IH.
Qed.

(** C7, as the code has it: for a [limit] that fits a signed 64-bit
    integer [list_jobs] decodes, in order, the rows [list_rows], and
    for another [limit] it raises; a filter applies when its argument
    is a non-empty string, as an exact match, and the two filters are
    conjoined; the matching rows are, up to order, [rows ++ rest] with
    [rows ++ rest] sorted newest first, so that no row left out is
    newer than a row listed; for [0 <= limit] exactly
    [min limit (number of matches)] rows are listed, and for a negative
    [limit] all of them. *)
Theorem list_jobs_spec status job_type limit (db : DB) :
  let rows := list_rows status job_type limit db in
  let matching := List.filter (list_where status job_type) db in
  (-9223372036854775808 <= limit < 9223372036854775808 ->
   list_jobs status job_type limit db = res_mapM row_to_dict rows) /\
  (limit < -9223372036854775808 \/ 9223372036854775808 <= limit ->
   exists msg, list_jobs status job_type limit db = Raised msg) /\
  (forall ds, list_jobs status job_type limit db = Ok ds ->
     map d_id ds = map j_id rows /\
     map d_status ds = map j_status rows /\
     map d_created_at ds = map j_created_at rows) /\
  (forall r, list_where status job_type r = true <->
     (forall s, status = Some s -> s <> EmptyString -> j_status r = s) /\
     (forall t, job_type = Some t -> t <> EmptyString -> j_type r = t)) /\
  exists rest,
    matching ≡ₚ rows ++ rest /\
    StronglySorted newer_first (rows ++ rest) /\
    (0 <= limit -> length rows = Nat.min (Z.to_nat limit) (length matching)) /\
    (limit < 0 -> rest = []).
Proof.
  intros rows matching. split; [apply list_jobs_in_range|]. split.
  { intros Hout. unfold list_jobs. rewrite (proj2 (sqlite_int_false limit) Hout).
    by eexists. }
  split.
  { intros ds Hds. apply list_jobs_Ok in Hds as [_ Hds]. fold rows in Hds.
    clear -Hds. revert ds Hds. induction rows as [|r rows' IH]; simpl; intros ds.
    - by intros [= <-].
    - destruct (row_to_dict r) as [d|] eqn:Hd; simpl; [|done].
      destruct (res_mapM row_to_dict rows') as [ds'|]; simpl; [|done].
      intros [= <-]. destruct (IH ds' eq_refl) as (Hi & Hs & Hc).
      destruct (row_to_dict_fields _ _ Hd) as (? & _ & ? & ? & _).
      simpl. repeat split; by f_equal. }
  split.
  - intros r. unfold list_where. rewrite andb_true_iff, !filter_matches_spec. done.
  - subst rows. unfold list_rows, sql_limit. fold matching.
    destruct (Z.ltb_spec limit 0) as [Hneg|Hpos].
    + exists []. rewrite app_nil_r. split; [|split; [|split]].
      * by rewrite order_by_created_at_desc_perm.
      * apply order_by_created_at_desc_sorted.
      * lia.
      * done.
    + exists (drop (Z.to_nat limit)
                (order_by_created_at_desc (status_term status) matching)).
      rewrite take_drop. split; [|split; [|split]].
      * by rewrite order_by_created_at_desc_perm.
      * apply order_by_created_at_desc_sorted.
      * intros _. rewrite length_take.
        by rewrite (Permutation_length (order_by_created_at_desc_perm _ matching)).
      * lia.
Qed.

Lemma res_mapM_keys (rows : list Job) ds :
  res_mapM row_to_dict rows = Ok ds -> map job_key ds = map row_key rows.
Proof.
  revert ds. induction rows as [|r rows IH]; simpl; intros ds.
  - by intros [= <-].
  - destruct (row_to_dict r) as [d|] eqn:Hd; simpl; [|done].
    destruct (res_mapM row_to_dict rows) as [ds'|]; simpl; [|done].
    intros [= <-]. simpl. rewrite (IH ds' eq_refl). f_equal.
    destruct (row_to_dict_fields _ _ Hd) as (Hi & Ht & Hs & _).
    unfold job_key, row_key. by rewrite Hi, Ht, Hs.
Qed.

(** The rows listed and the matching rows that the limit leaves out. *)
Lemma list_rows_split status job_type limit (db : DB) :
  exists rest,
    List.filter (list_where status job_type) db
      ≡ₚ list_rows status job_type limit db ++ rest /\
    (limit < 0 -> rest = []) /\
    (0 <= limit ->
     length (list_rows status job_type limit db)
     = Nat.min (Z.to_nat limit) (length (List.filter (list_where status job_type) db))).
Proof.
  unfold list_rows, sql_limit. destruct (Z.ltb_spec limit 0) as [Hneg|Hpos].
  - exists []. rewrite app_nil_r. split; [|split; [done | lia]].
    by rewrite order_by_created_at_desc_perm.
  - eexists (drop (Z.to_nat limit) _). rewrite take_drop. split; [|split; [lia|]].
    + by rewrite order_by_created_at_desc_perm.
    + intros _. rewrite length_take.
      by rewrite (Permutation_length (order_by_created_at_desc_perm _ _)).
Qed.

(** What [list_jobs] returns, in terms of the rows that match. *)
Lemma list_jobs_matching status job_type limit (db : DB) ds :
  list_jobs status job_type limit db = Ok ds ->
  exists rest,
    map row_key (List.filter (list_where status job_type) db) ≡ₚ map job_key ds ++ rest /\
    (limit < 0 -> rest = []) /\
    (0 <= limit ->
     length ds
     = Nat.min (Z.to_nat limit) (length (List.filter (list_where status job_type) db))).
Proof.
  intros Hds. apply list_jobs_Ok in Hds as [_ Hds].
  destruct (list_rows_split status job_type limit db) as (rest & Hperm & Hneg & Hpos).
  exists (map row_key rest). split; [|split].
  - rewrite (res_mapM_keys _ _ Hds), <- map_app.
    change (map row_key) with (fmap (M := list) row_key). by rewrite Hperm.
  - intros Hlt. by rewrite (Hneg Hlt).
  - intros Hle. rewrite (res_mapM_length _ _ _ Hds). by apply Hpos.
Qed.

(** C10. An empty-string [status] or [job_type] filter is no filter.
    [list_jobs] answers as if the argument were absent, and what it
    returns are jobs of every status: with the empty string as status
    the jobs returned are, with their ids, statuses and types, the
    stored jobs that pass the type filter alone, all of them for a
    negative [limit] and [min limit] of their number otherwise, not
    the jobs whose status is the empty string; likewise for the type;
    with both arguments the empty string and a negative [limit] every
    stored job is returned, and the call returns whenever the rows
    decode and the limit fits 64 bits. *)
Theorem list_jobs_empty_filter status job_type limit (db : DB) :
  list_jobs (Some EmptyString) job_type limit db = list_jobs None job_type limit db /\
  list_jobs status (Some EmptyString) limit db = list_jobs status None limit db /\
  (forall ds, list_jobs (Some EmptyString) job_type limit db = Ok ds ->
     exists rest,
       map row_key (List.filter (fun r => filter_matches job_type (j_type r)) db)
         ≡ₚ map job_key ds ++ rest /\
       (limit < 0 -> rest = []) /\
       (0 <= limit ->
        length ds
        = Nat.min (Z.to_nat limit)
            (length (List.filter (fun r => filter_matches job_type (j_type r)) db)))) /\
  (forall ds, list_jobs status (Some EmptyString) limit db = Ok ds ->
     exists rest,
       map row_key (List.filter (fun r => filter_matches status (j_status r)) db)
         ≡ₚ map job_key ds ++ rest /\
       (limit < 0 -> rest = []) /\
       (0 <= limit ->
        length ds
        = Nat.min (Z.to_nat limit)
            (length (List.filter (fun r => filter_matches status (j_status r)) db)))) /\
  (forall ds, list_jobs (Some EmptyString) (Some EmptyString) limit db = Ok ds ->
     limit < 0 -> map job_key ds ≡ₚ map row_key db) /\
  (-9223372036854775808 <= limit < 9223372036854775808 ->
   (forall r, r ∈ db -> row_decodable r) ->
   exists ds, list_jobs (Some EmptyString) (Some EmptyString) limit db = Ok ds).
Proof.
  split; [done|]. split; [done|]. split; [|split; [|split]].
  - intros ds Hds.
    destruct (list_jobs_matching _ _ _ _ _ Hds) as (rest & Hperm & Hneg & Hpos).
    exists rest. by repeat split.
  - intros ds Hds.
    destruct (list_jobs_matching _ _ _ _ _ Hds) as (rest & Hperm & Hneg & Hpos).
    assert (Hext : List.filter (list_where status (Some EmptyString)) db
                   = List.filter (fun r => filter_matches status (j_status r)) db).
    { apply List.filter_ext. intros r. unfold list_where. simpl. apply andb_true_r. }
    rewrite Hext in Hperm, Hpos. exists rest. by repeat split.
  - intros ds Hds Hlt.
    destruct (list_jobs_matching _ _ _ _ _ Hds) as (rest & Hperm & Hneg & _).
    rewrite (Hneg Hlt), app_nil_r in Hperm. rewrite <- Hperm.
    assert (Hall : List.filter (list_where (Some EmptyString) (Some EmptyString)) db = db).
    { clear. induction db as [|r db IH]; simpl; [done|]. by rewrite IH. }
    by rewrite Hall.
  - intros Hin Hdec. rewrite list_jobs_in_range by done. apply res_mapM_Ok.
    unfold list_rows, sql_limit.
    assert (Forall row_decodable
              (order_by_created_at_desc (status_term (Some EmptyString))
                 (List.filter (list_where (Some EmptyString) (Some EmptyString)) db)))
      as Hall.
    { rewrite order_by_created_at_desc_perm, Forall_forall.
      intros r Hr. apply list_elem_of_In, filter_In in Hr as [Hr _].
      by apply Hdec, list_elem_of_In. }
    destruct (limit <? 0); [done | by apply Forall_take].
Qed.

(** ** The retry policy of the worker *)


Lemma run_handler_raises run job :
  (forall s, exists msg, run s = ProcRaised msg) ->
  exists msg, run_handler run job = ProcRaised msg.
Proof.
  intros Hrun. unfold run_handler.
  destruct (d_payload job) as [|s|[| | | |l|m]]; eauto.
  destruct (dict_get m "m_number") as [[| | |s| |]|]; eauto.
Qed.

(** What [process_job] writes when the handler raises: [attempts] is the
    claimed value plus one, the status is failed once that reaches
    [max_attempts] and queued before, the message is recorded. *)
Lemma process_job_raises run now1 now2 job (db : DB) (i : nat) r msg :
  db !! i = Some r -> j_id r = d_id job -> known_type job = true ->
  run_handler run job = ProcRaised msg ->
  exists r', process_job run now1 now2 job db !! i = Some r' /\
    j_attempts r' = d_attempts job + 1 /\
    j_status r' = (if d_max_attempts job <=? d_attempts job + 1 then "failed" else "queued") /\
    j_error r' = Some ("Worker exception: " +:+ msg) /\
    j_id r' = j_id r /\ j_type r' = j_type r /\ j_payload r' = j_payload r /\
    j_max_attempts r' = j_max_attempts r /\ j_result r' = j_result r /\
    j_progress r' = Some (json_dumps starting_doc) /\
    j_created_at r' = j_created_at r.
Proof.
  intros Hi Hid Hk Hraise. unfold process_job, process_start. rewrite Hk, Hraise.
  unfold process_finish, handle_exception.
  destruct (d_max_attempts job <=? d_attempts job + 1);
    unfold update_job_status; rewrite !sql_update_lookup, Hi; simpl;
    rewrite !(bool_decide_eq_true_2 (j_id r = d_id job)) by done; simpl;
    (eexists; split; [reflexivity|]); simpl; done.
Qed.

(** What [process_job] writes when the script ends with a non-zero
    return code: the job is failed at once, [attempts] is not touched. *)
Lemma process_job_script_error run now1 now2 job (db : DB) (i : nat) r rc out err :
  db !! i = Some r -> j_id r = d_id job -> known_type job = true ->
  run_handler run job = Completed rc out err -> rc <> 0 ->
  exists r', process_job run now1 now2 job db !! i = Some r' /\
    j_status r' = "failed" /\ j_attempts r' = j_attempts r /\
    j_finished_at r' = Some now2 /\
    j_error r' = Some (if bool_decide (err = EmptyString) then "Script failed" else err).
Proof.
  intros Hi Hid Hk Hrun Hrc. unfold process_job, process_start. rewrite Hk, Hrun.
  unfold process_finish. rewrite bool_decide_eq_false_2 by done.
  unfold update_job_status; rewrite !sql_update_lookup, Hi; simpl.
  rewrite !(bool_decide_eq_true_2 (j_id r = d_id job)) by done; simpl.
  eexists; split; [reflexivity|]. simpl. done.
Qed.

Lemma update_job_status_length now job_id status result error progress attempts (db : DB) :
  length (update_job_status now job_id status result error progress attempts db)
  = length db.
Proof. apply sql_update_length. Qed.

Lemma process_job_length run now1 now2 job (db : DB) :
  length (process_job run now1 now2 job db) = length db.
Proof.
  unfold process_job, process_start, process_finish, handle_exception.
  repeat (match goal with
          | |- context [if ?b then _ else _] => destruct b
          | |- context [match ?x with Completed _ _ _ => _ | ProcRaised _ => _ end] =>
              destruct x
          end); by rewrite ?update_job_status_length.
Qed.

Lemma singleton_lookup {A} (l : list A) x :
  length l = 1%nat -> l !! 0%nat = Some x -> l = [x].
Proof. destruct l as [|y [|z l]]; simpl; try done. by intros _ [= ->]. Qed.

Lemma claim_next_job_single now worker_id r :
  j_status r = "queued" ->
  claim_next_job now worker_id [r]
  = (d <- row_to_dict (claimed now worker_id r) ;;; Ok (Some d),
     [claimed now worker_id r]).
Proof.
  intros Hq. unfold claim_next_job.
  assert (claim_select [r] = Some (j_id r)) as ->.
  { unfold claim_select. simpl. unfold is_queued. by rewrite bool_decide_eq_true_2. }
  assert (claim_update now worker_id (j_id r) [r] = [claimed now worker_id r]) as ->.
  { apply singleton_lookup; [apply sql_update_length | by apply claim_update_queued]. }
  unfold get_job. change (j_id r) with (j_id (claimed now worker_id r)).
  rewrite (select_by_id_lookup [claimed now worker_id r] 0 (claimed now worker_id r));
    [done | apply NoDup_singleton | done].
Qed.

(** One turn of the loop on a store whose only row is queued, of the
    known type, when the handler raises. *)
Lemma worker_turn_retry worker_id stale_timeout run t n r :
  (forall s, exists msg, run s = ProcRaised msg) ->
  decodable (json_dumps starting_doc) ->
  j_type r = "generate_amazon_content" -> j_status r = "queued" -> row_decodable r ->
  exists r',
    worker_turn worker_id stale_timeout run t ([r], n) = ([r'], 0, Some (j_id r)) /\
    j_id r' = j_id r /\ j_type r' = j_type r /\
    j_attempts r' = j_attempts r + 1 /\ j_max_attempts r' = j_max_attempts r /\
    row_decodable r' /\ is_Some (j_error r') /\
    j_status r' = (if j_max_attempts r <=? j_attempts r + 1 then "failed" else "queued").
Proof.
  intros Hrun Hstart Hty Hq (Hp & Hr & Hg). unfold worker_turn.
  assert (Hsweep : (if bool_decide (n mod 30 = 0)
                    then requeue_stale_jobs (t_cutoff t) (t_requeue t) stale_timeout [r]
                    else [r]) = [r]).
  { destruct (bool_decide (n mod 30 = 0)); [|done].
    unfold requeue_stale_jobs, is_stale. simpl. rewrite Hq.
    by rewrite (bool_decide_eq_false_2 ("queued" = "running")). }
  rewrite Hsweep. clear Hsweep. rewrite claim_next_job_single by done.
  destruct (row_to_dict_decodable (claimed (t_claim t) worker_id r))
    as (d & Hd & Hdid & Hdty & _ & Hda & Hdm & _); [done|].
  simpl in Hdid, Hdty, Hda, Hdm. rewrite Hd. simpl.
  assert (Hk : known_type d = true).
  { unfold known_type. rewrite Hdty, Hty. by apply bool_decide_eq_true_2. }
  destruct (run_handler_raises run d Hrun) as [msg Hmsg].
  destruct (process_job_raises run (t_start t) (t_end t) d
              [claimed (t_claim t) worker_id r] 0 _ msg eq_refl (eq_sym Hdid) Hk Hmsg)
    as (r' & Hr' & Ha & Hs & He & Hi & Ht & Hpl & Hm & Hres & Hprog & _).
  exists r'. split.
  - rewrite Hdid. f_equal. f_equal.
    apply singleton_lookup; [by rewrite process_job_length | done].
  - simpl in *. rewrite Hda, Hdm in *. repeat split; try done.
    + by rewrite Hpl.
    + by rewrite Hres.
    + rewrite Hprog. by intros s [= <-].
Qed.

(** A turn of the loop on a store with nothing queued and nothing
    running is an empty poll. *)
Lemma worker_turn_idle worker_id stale_timeout run t n r :
  j_status r = "failed" ->
  worker_turn worker_id stale_timeout run t ([r], n) = ([r], n + 1, None).
Proof.
  intros Hf. unfold worker_turn.
  assert (Hsweep : (if bool_decide (n mod 30 = 0)
                    then requeue_stale_jobs (t_cutoff t) (t_requeue t) stale_timeout [r]
                    else [r]) = [r]).
  { destruct (bool_decide (n mod 30 = 0)); [|done].
    unfold requeue_stale_jobs, is_stale. simpl. rewrite Hf.
    by rewrite (bool_decide_eq_false_2 ("failed" = "running")). }
  rewrite Hsweep. unfold claim_next_job, claim_select. simpl. unfold is_queued.
  rewrite Hf. by rewrite (bool_decide_eq_false_2 ("failed" = "queued")).
Qed.

Lemma worker_loop_idle worker_id stale_timeout turns n r :
  j_status r = "failed" ->
  exists n', worker_loop worker_id stale_timeout turns ([r], n) = ([r], n', []).
Proof.
  intros Hf. revert n.
  induction turns as [|[run t] turns IH]; intros n; cbn [worker_loop].
  - by eexists.
  - rewrite worker_turn_idle by done. destruct (IH (n + 1)) as [n' ->]. by eexists.
Qed.

(** The loop on a store whose only row is a queued job of the known
    type whose handler always raises: the job is executed once per turn
    until [attempts] reaches [max_attempts], then never again. *)
Lemma worker_loop_retry worker_id stale_timeout turns n r :
  Forall (fun rt => always_raises rt.1) turns ->
  decodable (json_dumps starting_doc) ->
  j_type r = "generate_amazon_content" -> j_status r = "queued" -> row_decodable r ->
  let left := Z.to_nat (Z.max 1 (j_max_attempts r - j_attempts r)) in
  let runs := Nat.min (length turns) left in
  exists r' n',
    worker_loop worker_id stale_timeout turns ([r], n)
      = ([r'], n', replicate runs (j_id r)) /\
    j_id r' = j_id r /\
    j_attempts r' = j_attempts r + Z.of_nat runs /\
    j_status r' = (if (length turns <? left)%nat then "queued" else "failed") /\
    ((0 < runs)%nat -> is_Some (j_error r')).
Proof.
  intros Hruns Hstart. revert n r.
  induction turns as [|[run t] clock IH]; intros n r Hty Hq Hdec left runs.
  2: apply Forall_cons in Hruns as [Hrun Hruns]; specialize (IH Hruns);
     cbn [fst] in Hrun.
  - exists r, n. subst runs left. simpl. repeat split; try done; try lia.
    destruct (Nat.ltb_spec 0 (Z.to_nat (Z.max 1 (j_max_attempts r - j_attempts r))));
      [done | lia].
  - destruct (worker_turn_retry worker_id stale_timeout run t n r Hrun Hstart Hty Hq Hdec)
      as (r1 & Hturn & Hid1 & Hty1 & Ha1 & Hm1 & Hdec1 & He1 & Hs1).
    cbn [worker_loop]. rewrite Hturn.
    destruct (Z.leb_spec (j_max_attempts r) (j_attempts r + 1)) as [Hlast|Hmore].
    + destruct (worker_loop_idle worker_id stale_timeout clock 0 r1 Hs1) as [n' ->].
      assert (left = 1%nat) as Hleft by (subst left; lia).
      exists r1, n'. subst runs. rewrite Hleft. simpl.
      rewrite Nat.min_0_r. simpl. repeat split; try done.
    + rewrite <- Hty1 in Hty.
      destruct (IH 0 r1 Hty Hs1 Hdec1) as (r' & n' & Hloop & Hid' & Ha' & Hs' & He').
      rewrite Hloop. exists r', n'.
      assert (Z.to_nat (Z.max 1 (j_max_attempts r1 - j_attempts r1)) = pred left
              /\ (0 < left)%nat) as [Hleft Hpos] by (subst left; lia).
      rewrite Hleft in *. subst runs.
      replace (Nat.min (length ((run, t) :: clock)) left)
        with (S (Nat.min (length clock) (pred left))) by (cbn [length]; lia).
      cbn [replicate length]. rewrite Hid1 in *. repeat split; try done.
      * lia.
      * rewrite Hs'. destruct (Nat.ltb_spec (length clock) (pred left));
          destruct (Nat.ltb_spec (S (length clock)) left); try done; lia.
      * intros _. destruct (Nat.min (length clock) (pred left)) eqn:Hz.
        -- assert (r' = r1) as ->; [|done].
           destruct clock as [|[run' t'] clock']; simpl in Hloop; [congruence|].
           exfalso. subst left. cbn [length] in Hz. lia.
        -- apply He'. lia.
Qed.

(** ** The state machine of a job, under any interleaving *)

Lemma row_step_refl r : row_ok r -> row_step r r.
Proof.
  intros (Hv & Hf & Hs). repeat split; try done; try tauto.
  intros [H|H]; [done|]. apply Hs. by rewrite H.
Qed.

Lemma requeue_row_step cutoff now_update r :
  row_ok r ->
  row_step r (if is_stale cutoff r
              then set_updated_at now_update (set_worker_id None (set_status "queued" r))
              else r).
Proof.
  intros Hok. destruct (is_stale cutoff r) eqn:Hst; [|by apply row_step_refl].
  unfold is_stale in Hst. apply andb_true_iff in Hst as [Hrun Hlt].
  apply bool_decide_eq_true in Hrun. destruct (j_started_at r) as [T|] eqn:HT; [|done].
  unfold row_step, row_ok, valid_status, terminal. simpl. rewrite HT.
  destruct Hok as (_ & Hfin & _). rewrite Hrun in Hfin. unfold terminal in Hfin.
  repeat split; try done; eauto; intros; intuition (eauto; congruence).
Qed.

Lemma claim_row_step now worker_id job_id r :
  row_ok r ->
  row_step r (if bool_decide (j_id r = job_id) && is_queued r
              then claimed now worker_id r else r).
Proof.
  intros Hok. destruct (bool_decide (j_id r = job_id) && is_queued r) eqn:Hc;
    [|by apply row_step_refl].
  apply andb_true_iff in Hc as [_ Hq]. apply bool_decide_eq_true in Hq.
  destruct Hok as (_ & Hfin & _). rewrite Hq in Hfin. unfold terminal in Hfin.
  unfold row_step, row_ok, valid_status, terminal. simpl.
  repeat split; try done; eauto; intros; intuition (eauto; congruence).
Qed.

Lemma update_job_status_map now job_id status result error progress attempts (db : DB) :
  exists f,
    update_job_status now job_id status result error progress attempts db
    = map (fun r => if bool_decide (j_id r = job_id) then f r else r) db /\
    forall r, j_id (f r) = j_id r /\ j_status (f r) = status /\
              j_started_at (f r) = j_started_at r /\
              (terminal status -> j_finished_at (f r) = Some now) /\
              (~ terminal status -> j_finished_at (f r) = j_finished_at r).
Proof.
  unfold update_job_status, sql_update. eexists. split; [reflexivity|].
  intros r. unfold terminal.
  destruct result, error, progress, attempts; repeat case_bool_decide; simpl;
    intuition congruence.
Qed.

Lemma update_row_step now job_id status f r :
  (j_id (f r) = j_id r /\ j_status (f r) = status /\
   j_started_at (f r) = j_started_at r /\
   (terminal status -> j_finished_at (f r) = Some now) /\
   (~ terminal status -> j_finished_at (f r) = j_finished_at r)) ->
  valid_status status ->
  row_ok r ->
  (j_id r = job_id -> is_Some (j_started_at r)) ->
  row_step r (if bool_decide (j_id r = job_id) then f r else r).
Proof.
  intros (Hid & Hst & Hsa & Hft & Hfn) Hv Hok Hstarted.
  case_bool_decide as Hj; [|by apply row_step_refl].
  specialize (Hstarted Hj).
  unfold row_step, row_ok. rewrite Hid, Hst, Hsa.
  assert (Hdec : terminal status \/ ~ terminal status).
  { unfold terminal. destruct (decide (status = "succeeded")), (decide (status = "failed"));
      tauto. }
  destruct Hdec as [Ht|Hnt].
  - rewrite (Hft Ht). repeat split; eauto.
  - rewrite (Hfn Hnt). repeat split; eauto; try tauto.
Qed.

Lemma same_id_same_row (db : DB) r r' :
  NoDup (map j_id db) -> r ∈ db -> r' ∈ db -> j_id r = j_id r' -> r = r'.
Proof.
  intros Hnd [i Hi]%list_elem_of_lookup_1 [j Hj]%list_elem_of_lookup_1 Hid.
  assert (i = j) as -> by (by eapply lookup_same_id). congruence.
Qed.

Lemma holds_started_row (db : DB) job_id r :
  NoDup (map j_id db) -> holds_started db job_id -> r ∈ db -> j_id r = job_id ->
  is_Some (j_started_at r).
Proof.
  intros Hnd (r0 & Hin0 & Hid0 & Hs0) Hin Hid.
  assert (r = r0) as -> by (eapply same_id_same_row; [done..|congruence]). done.
Qed.

Lemma rows_evolve_map (db : DB) g :
  (forall r, r ∈ db -> row_step r (g r)) -> rows_evolve db (map g db).
Proof. intros Hg. exists g, []. rewrite app_nil_r. auto. Qed.

Lemma rows_evolve_refl (db : DB) :
  (forall r, r ∈ db -> row_ok r) -> rows_evolve db db.
Proof.
  intros Hok. rewrite <- (map_id db) at 2. apply rows_evolve_map.
  intros r Hin. by apply row_step_refl, Hok.
Qed.

Lemma rows_evolve_update now job_id status result error progress attempts (db : DB) :
  NoDup (map j_id db) -> (forall r, r ∈ db -> row_ok r) ->
  holds_started db job_id -> valid_status status ->
  rows_evolve db (update_job_status now job_id status result error progress attempts db).
Proof.
  intros Hnd Hok Hheld Hv.
  destruct (update_job_status_map now job_id status result error progress attempts db)
    as (f & -> & Hf).
  apply rows_evolve_map. intros r Hin.
  eapply update_row_step; [apply Hf | done | by apply Hok |].
  intros Hid. by eapply holds_started_row.
Qed.

Lemma valid_status_running : valid_status "running".
Proof. unfold valid_status. auto. Qed.
Lemma valid_status_queued : valid_status "queued".
Proof. unfold valid_status. auto. Qed.
Lemma valid_status_succeeded : valid_status "succeeded".
Proof. unfold valid_status, terminal. auto. Qed.
Lemma valid_status_failed : valid_status "failed".
Proof. unfold valid_status, terminal. auto. Qed.

#[local] Hint Resolve valid_status_running valid_status_queued
  valid_status_succeeded valid_status_failed : core.

Lemma rows_evolve_process_start now job (db : DB) :
  NoDup (map j_id db) -> (forall r, r ∈ db -> row_ok r) ->
  holds_started db (d_id job) ->
  rows_evolve db (process_start now job db).
Proof.
  intros. unfold process_start.
  destruct (known_type job); by apply rows_evolve_update.
Qed.

Lemma rows_evolve_process_finish now job out (db : DB) :
  NoDup (map j_id db) -> (forall r, r ∈ db -> row_ok r) ->
  holds_started db (d_id job) ->
  rows_evolve db (process_finish now job out db).
Proof.
  intros. unfold process_finish, handle_exception.
  destruct out as [rc stdout stderr|msg].
  - destruct (bool_decide (rc = 0)); by apply rows_evolve_update.
  - destruct (d_max_attempts job <=? d_attempts job + 1); by apply rows_evolve_update.
Qed.

(** Every event changes the table by [rows_evolve]. *)
Lemma step_rows e s : sys_ok s -> rows_evolve (sys_db s) (sys_db (step e s)).
Proof.
  intros (Hnd & Hok & Hws).
  destruct e as [new_id now job_type payload requested_by max_attempts
                |now_cutoff now_update timeout_seconds|w now|w|w|w now|w now run]; simpl.
  - unfold enqueue_job. destruct (select_by_id new_id (sys_db s)) eqn:Hsel.
    + by apply rows_evolve_refl.
    + simpl. exists (fun r => r). eexists. rewrite map_id. split; [reflexivity|].
      split; [intros r Hin; by apply row_step_refl, Hok|].
      right. eexists. split; [reflexivity|]. split; [done|].
      simpl. by apply select_by_id_None.
  - unfold requeue_stale_jobs, sql_update. apply rows_evolve_map.
    intros r Hin. by apply requeue_row_step, Hok.
  - destruct (sys_workers s w); try by apply rows_evolve_refl.
    destruct (claim_select (sys_db s)); by apply rows_evolve_refl.
  - destruct (sys_workers s w); try by apply rows_evolve_refl.
    simpl. unfold claim_update, sql_update. apply rows_evolve_map.
    intros r Hin. by apply claim_row_step, Hok.
  - destruct (sys_workers s w); try by apply rows_evolve_refl.
    destruct (get_job job_id (sys_db s)) as [[job|]|]; by apply rows_evolve_refl.
  - specialize (Hws w). destruct (sys_workers s w); try by apply rows_evolve_refl.
    simpl. by apply rows_evolve_process_start.
  - specialize (Hws w). destruct (sys_workers s w); try by apply rows_evolve_refl.
    simpl. by apply rows_evolve_process_finish.
Qed.

Lemma row_fresh_ok r : row_fresh r -> row_ok r.
Proof.
  intros (Hq & _ & _). unfold row_ok, valid_status, terminal. rewrite Hq.
  repeat split; auto; intros; intuition congruence.
Qed.

Lemma rows_evolve_elem (db db' : DB) r' :
  rows_evolve db db' -> r' ∈ db' ->
  (exists r, r ∈ db /\ row_step r r') \/ (row_fresh r' /\ j_id r' ∉ map j_id db).
Proof.
  intros (g & extra & -> & Hg & Hextra) [Hin|Hin]%elem_of_app.
  - change (map g db) with (g <$> db) in Hin.
    apply list_elem_of_fmap in Hin as (r & -> & Hin). left. eauto.
  - destruct Hextra as [->|(x & -> & Hx & Hnew)]; [by apply elem_of_nil in Hin|].
    apply list_elem_of_singleton in Hin as ->. by right.
Qed.

Lemma rows_evolve_forward (db db' : DB) r :
  rows_evolve db db' -> r ∈ db -> exists r', r' ∈ db' /\ row_step r r'.
Proof.
  intros (g & extra & -> & Hg & _) Hin. exists (g r). split; [|by apply Hg].
  apply elem_of_app. left. change (map g db) with (g <$> db).
  by apply list_elem_of_fmap_2.
Qed.

Lemma rows_evolve_ids (db db' : DB) job_id :
  rows_evolve db db' -> job_id ∈ map j_id db -> job_id ∈ map j_id db'.
Proof.
  intros Hev Hin. change (job_id ∈ j_id <$> db) in Hin.
  apply list_elem_of_fmap in Hin as (r & -> & Hin).
  destruct (rows_evolve_forward _ _ _ Hev Hin) as (r' & Hin' & Hid & _).
  rewrite <- Hid. change (j_id r' ∈ j_id <$> db'). by apply list_elem_of_fmap_2.
Qed.

Lemma rows_evolve_holds_started (db db' : DB) job_id :
  rows_evolve db db' -> holds_started db job_id -> holds_started db' job_id.
Proof.
  intros Hev (r & Hin & Hid & Hs).
  destruct (rows_evolve_forward _ _ _ Hev Hin) as (r' & Hin' & Hid' & _ & _ & Hst).
  exists r'. split; [done|]. split; [congruence|]. apply Hst. by left.
Qed.

Lemma rows_evolve_NoDup (db db' : DB) :
  rows_evolve db db' -> NoDup (map j_id db) -> NoDup (map j_id db').
Proof.
  intros (g & extra & -> & Hg & Hextra) Hnd. rewrite map_app.
  assert (Hids : map j_id (map g db) = map j_id db).
  { rewrite map_map. apply map_ext_in. intros r Hin%list_elem_of_In.
    by destruct (Hg r Hin). }
  rewrite Hids. destruct Hextra as [->|(x & -> & _ & Hnew)]; simpl.
  - by rewrite app_nil_r.
  - apply NoDup_app. split; [done|]. split; [|apply NoDup_singleton].
    intros i Hi ->%list_elem_of_singleton. done.
Qed.

Lemma rows_evolve_row_ok (db db' : DB) :
  rows_evolve db db' -> forall r', r' ∈ db' -> row_ok r'.
Proof.
  intros Hev r' Hin.
  destruct (rows_evolve_elem _ _ _ Hev Hin) as [(r & _ & _ & Hok & _)|[Hf _]];
    [done | by apply row_fresh_ok].
Qed.

Lemma worker_ok_evolve (db db' : DB) ws :
  rows_evolve db db' -> worker_ok db ws -> worker_ok db' ws.
Proof.
  intros Hev. destruct ws; simpl; eauto using rows_evolve_ids, rows_evolve_holds_started.
Qed.

Lemma get_job_id job_id (db : DB) job :
  get_job job_id db = Ok (Some job) -> d_id job = job_id.
Proof.
  unfold get_job. destruct (select_by_id job_id db) as [r|] eqn:Hsel; [|done].
  apply select_by_id_Some in Hsel as [_ Hid]. unfold row_to_dict.
  destruct (decode_column (Some (j_payload r))); simpl; [|done].
  destruct (decode_column (j_result r)); simpl; [|done].
  destruct (decode_column (j_progress r)); simpl; [|done].
  by intros [= <-].
Qed.

Lemma claim_update_holds_started now worker_id job_id (db : DB) :
  (forall r, r ∈ db -> row_ok r) -> job_id ∈ map j_id db ->
  holds_started (claim_update now worker_id job_id db) job_id.
Proof.
  intros Hok Hin. change (job_id ∈ j_id <$> db) in Hin.
  apply list_elem_of_fmap in Hin as (r & -> & Hin).
  unfold claim_update, sql_update.
  eexists. split; [change (map ?g db) with (g <$> db); by apply list_elem_of_fmap_2|].
  rewrite bool_decide_eq_true_2 by done. simpl.
  unfold is_queued. case_bool_decide as Hq; simpl; [done|].
  split; [done|]. by apply (Hok r Hin).
Qed.

Lemma worker_ok_set w st ws (db : DB) :
  worker_ok db st -> (forall w', worker_ok db (ws w')) ->
  forall w', worker_ok db (set_worker w st ws w').
Proof. intros Hst Hws w'. unfold set_worker. by case_bool_decide. Qed.

(** [sys_ok] is an invariant of the system. *)
Lemma sys_ok_step e s : sys_ok s -> sys_ok (step e s).
Proof.
  intros Hs. pose proof (step_rows e s Hs) as Hev.
  destruct Hs as (Hnd & Hok & Hws).
  split; [by eapply rows_evolve_NoDup|]. split; [by eapply rows_evolve_row_ok|].
  assert (Hold : forall w', worker_ok (sys_db (step e s)) (sys_workers s w'))
    by (intros w'; by eapply worker_ok_evolve).
  destruct e as [new_id now job_type payload requested_by max_attempts
                |now_cutoff now_update timeout_seconds|w now|w|w|w now|w now run];
    simpl in *.
  - by destruct (enqueue_job _ _ _ _ _ _ _) as [[? ?]|].
  - done.
  - destruct (sys_workers s w) eqn:Hw; try done.
    destruct (claim_select (sys_db s)) as [job_id|] eqn:Hsel; [|done]. simpl.
    apply worker_ok_set; [|done]. simpl. unfold claim_select in Hsel.
    destruct (oldest_queued (sys_db s)) as [r|] eqn:Hold'; [|done].
    injection Hsel as <-. apply oldest_queued_Some in Hold' as [Hin _].
    change (j_id r ∈ j_id <$> sys_db s). by apply list_elem_of_fmap_2.
  - pose proof (Hws w) as Hw. destruct (sys_workers s w) eqn:Hww; try done.
    simpl in *. apply worker_ok_set; [|done]. simpl.
    by apply claim_update_holds_started.
  - pose proof (Hws w) as Hw. destruct (sys_workers s w) eqn:Hww; try done.
    destruct (get_job job_id (sys_db s)) as [[job|]|] eqn:Hget; simpl;
      (apply worker_ok_set; [|done]); simpl; try done.
    by rewrite (get_job_id _ _ _ Hget).
  - pose proof (Hold w) as Hw. destruct (sys_workers s w) eqn:Hww; try done.
    simpl in *. apply worker_ok_set; [|done]. by destruct (known_type job).
  - pose proof (Hold w) as Hw. destruct (sys_workers s w) eqn:Hww; try done.
    simpl in *. by apply worker_ok_set.
Qed.

Lemma sys_ok_init : sys_ok init.
Proof.
  split; [constructor|]. split; [|done]. intros r Hin. by apply elem_of_nil in Hin.
Qed.

Lemma has_been_cons Q job_id s h :
  has_been Q job_id (s :: h) <->
  (exists r, r ∈ sys_db s /\ j_id r = job_id /\ Q (j_status r)) \/ has_been Q job_id h.
Proof.
  unfold has_been. split.
  - intros (s0 & r & [->|Hin]%elem_of_cons & Hr); [left|right]; eauto.
  - intros [(r & Hr)|(s0 & r & Hin & Hr)].
    + exists s, r. split; [apply list_elem_of_here | done].
    + exists s0, r. split; [by apply list_elem_of_further | done].
Qed.

(** One step of the history, for a column [F] that a statement sets
    exactly when it moves the row to a status in [Q], and never clears. *)
Lemma has_been_step (Q : string -> Prop) (F : Job -> Prop) s' s past :
  NoDup (map j_id (sys_db s')) ->
  rows_evolve (sys_db s) (sys_db s') ->
  (forall s0 r0, s0 ∈ s :: past -> r0 ∈ sys_db s0 -> j_id r0 ∈ map j_id (sys_db s)) ->
  (forall r r', row_step r r' -> (F r' <-> F r \/ Q (j_status r'))) ->
  (forall x, row_fresh x -> ~ F x /\ ~ Q (j_status x)) ->
  (forall r, r ∈ sys_db s -> (F r <-> has_been Q (j_id r) (s :: past))) ->
  forall r', r' ∈ sys_db s' -> (F r' <-> has_been Q (j_id r') (s' :: s :: past)).
Proof.
  intros Hnd Hev Hids Hstep Hfresh IH r' Hin'.
  rewrite has_been_cons.
  assert (Hhere : (exists r0, r0 ∈ sys_db s' /\ j_id r0 = j_id r' /\ Q (j_status r0))
                  <-> Q (j_status r')).
  { split; [|by eauto]. intros (r0 & Hin0 & Hid0 & HQ).
    by rewrite <- (same_id_same_row _ _ _ Hnd Hin0 Hin' Hid0). }
  rewrite Hhere.
  destruct (rows_evolve_elem _ _ _ Hev Hin') as [(r & Hin & Hrs)|[Hf Hnew]].
  - rewrite (Hstep r r' Hrs). destruct Hrs as (Hid & _). rewrite Hid.
    rewrite (IH r Hin). tauto.
  - destruct (Hfresh r' Hf) as [HnF HnQ]. split; [done|].
    intros [HQ|(s0 & r0 & Hs0 & Hr0 & Hid0 & _)]; [done|].
    exfalso. apply Hnew. rewrite <- Hid0. by eapply Hids.
Qed.

Lemma history_inv h :
  history h ->
  exists s past, h = s :: past /\ sys_ok s /\
    (forall s0 r0, s0 ∈ h -> r0 ∈ sys_db s0 -> j_id r0 ∈ map j_id (sys_db s)) /\
    (forall r, r ∈ sys_db s ->
       (is_Some (j_finished_at r) <-> has_been terminal (j_id r) h) /\
       (is_Some (j_started_at r) <-> has_been running (j_id r) h)).
Proof.
  induction 1 as [|e s past Hh (s1 & past1 & Heq & Hok & Hids & IH)].
  - exists init, []. split; [done|]. split; [apply sys_ok_init|].
    split; [|intros r Hin; by apply elem_of_nil in Hin].
    intros s0 r0 ->%list_elem_of_singleton Hin. by apply elem_of_nil in Hin.
  - injection Heq as <- <-.
    pose proof (sys_ok_step e s Hok) as Hok'.
    pose proof (step_rows e s Hok) as Hev.
    exists (step e s), (s :: past). split; [done|]. split; [done|]. split.
    + intros s0 r0 [->|Hin]%elem_of_cons Hr0.
      * change (j_id r0 ∈ j_id <$> sys_db (step e s)). by apply list_elem_of_fmap_2.
      * eapply rows_evolve_ids; [done|]. by eapply Hids.
    + intros r' Hin'. destruct Hok' as (Hnd' & _ & _). split.
      * eapply (has_been_step terminal (fun r => is_Some (j_finished_at r)));
          try done.
        -- by intros r r0 (_ & _ & Hf & _).
        -- intros x (Hq & _ & Hf). rewrite Hq, Hf. unfold terminal.
           split; [by intros [? ?] | intuition congruence].
        -- intros r Hin. by apply IH.
      * eapply (has_been_step running (fun r => is_Some (j_started_at r)));
          try done.
        -- by intros r r0 (_ & _ & _ & Hs).
        -- intros x (Hq & Hs & _). rewrite Hq, Hs. unfold running.
           split; [by intros [? ?] | congruence].
        -- intros r Hin. by apply IH.
Qed.

Lemma update_job_status_ids now job_id status result error progress attempts (db : DB) :
  map j_id (update_job_status now job_id status result error progress attempts db)
  = map j_id db.
Proof.
  destruct (update_job_status_map now job_id status result error progress attempts db)
    as (f & -> & Hf).
  rewrite map_map. apply map_ext. intros r. case_bool_decide; [apply Hf | done].
Qed.

Lemma requeue_stale_jobs_ids now_cutoff now_update timeout_seconds (db : DB) :
  map j_id (requeue_stale_jobs now_cutoff now_update timeout_seconds db) = map j_id db.
Proof. unfold requeue_stale_jobs. by apply sql_update_ids. Qed.

Lemma sql_update_elem cond f (db : DB) r' :
  r' ∈ sql_update cond f db <-> exists r, r ∈ db /\ r' = (if cond r then f r else r).
Proof.
  unfold sql_update. change (map ?g db) with (g <$> db).
  rewrite list_elem_of_fmap. naive_solver.
Qed.

Lemma strict_row_unfinished r :
  strict_row r -> ~ terminal (j_status r) -> j_finished_at r = None.
Proof.
  intros Hs Hnt. destruct (j_finished_at r) eqn:Hf; [|done].
  exfalso. apply Hnt, Hs. by eexists.
Qed.

Lemma strict_row_intro r :
  (terminal (j_status r) -> is_Some (j_finished_at r)) ->
  (~ terminal (j_status r) -> j_finished_at r = None) ->
  strict_row r.
Proof.
  intros Ht Hn. split; [|done]. intros [t Hsome].
  destruct (decide (j_status r = "succeeded")) as [?|H1]; [by left|].
  destruct (decide (j_status r = "failed")) as [?|H2]; [by right|].
  rewrite Hn in Hsome; [done|]. by intros [?|?].
Qed.

Lemma not_terminal_running : ~ terminal "running".
Proof. by intros [?|?]. Qed.

Lemma not_terminal_queued : ~ terminal "queued".
Proof. by intros [?|?]. Qed.

(** A status update of the job that the one worker holds keeps every
    row strict. *)
Lemma update_job_status_strict now job_id status result error progress attempts
    (db : DB) :
  NoDup (map j_id db) -> (forall r, r ∈ db -> strict_row r) ->
  (exists r, r ∈ db /\ j_id r = job_id /\ j_status r = "running") ->
  forall r', r' ∈ update_job_status now job_id status result error progress attempts db ->
    strict_row r'.
Proof.
  intros Hnd Hstrict (r0 & Hin0 & Hid0 & Hrun0) r'.
  destruct (update_job_status_map now job_id status result error progress attempts db)
    as (f & -> & Hf).
  change (map ?g db) with (g <$> db). intros (r & -> & Hin)%list_elem_of_fmap.
  case_bool_decide as Hid; [|by apply Hstrict].
  assert (r = r0) as -> by (eapply same_id_same_row; [done..|congruence]).
  destruct (Hf r0) as (_ & Hst & _ & Hft & Hfn).
  apply strict_row_intro; rewrite Hst.
  - intros Ht. rewrite (Hft Ht). by eexists.
  - intros Hnt. rewrite (Hfn Hnt). apply strict_row_unfinished; [by apply Hstrict|].
    rewrite Hrun0. apply not_terminal_running.
Qed.

Lemma update_job_status_status now job_id status result error progress attempts
    (db : DB) r :
  r ∈ db -> j_id r = job_id ->
  exists r', r' ∈ update_job_status now job_id status result error progress attempts db /\
    j_id r' = job_id /\ j_status r' = status.
Proof.
  intros Hin Hid.
  destruct (update_job_status_map now job_id status result error progress attempts db)
    as (f & -> & Hf).
  exists (f r). destruct (Hf r) as (Hfid & Hst & _).
  split; [|split; [congruence | done]].
  change (map ?g db) with (g <$> db). apply list_elem_of_fmap.
  exists r. by rewrite bool_decide_eq_true_2.
Qed.

Lemma process_finish_strict now job out (db : DB) :
  NoDup (map j_id db) -> (forall r, r ∈ db -> strict_row r) ->
  (exists r, r ∈ db /\ j_id r = d_id job /\ j_status r = "running") ->
  forall r', r' ∈ process_finish now job out db -> strict_row r'.
Proof.
  intros Hnd Hstrict Hheld. unfold process_finish, handle_exception.
  destruct out as [rc stdout stderr|msg].
  - destruct (bool_decide (rc = 0)); by apply update_job_status_strict.
  - destruct (d_max_attempts job <=? d_attempts job + 1);
      by apply update_job_status_strict.
Qed.

Lemma solo_worker_ok_mono (db db' : DB) ws :
  (forall r, r ∈ db -> r ∈ db') -> solo_worker_ok db ws -> solo_worker_ok db' ws.
Proof. intros Hsub. destruct ws; simpl; naive_solver. Qed.

Lemma set_worker_same w st ws : set_worker w st ws w = st.
Proof. unfold set_worker. by rewrite bool_decide_eq_true_2. Qed.

(** [solo_ok] is kept by every event of the one worker. *)
Lemma solo_ok_step w e s : solo_ok w s -> solo_event w e s -> solo_ok w (step e s).
Proof.
  intros (Hnd & Hstrict & Hw) Hev. unfold solo_ok.
  destruct e as [new_id now job_type payload requested_by max_attempts
                |now_cutoff now_update timeout_seconds|w' now|w'|w'|w' now|w' now run];
    simpl in Hev; subst; simpl.
  - unfold enqueue_job. destruct (select_by_id new_id (sys_db s)) eqn:Hsel; [done|].
    simpl. split; [|split].
    + rewrite map_app. apply NoDup_app. split; [done|]. split; [|apply NoDup_singleton].
      intros i Hi ->%list_elem_of_singleton. by apply select_by_id_None in Hsel.
    + intros r [Hin| ->%list_elem_of_singleton]%elem_of_app; [by apply Hstrict|].
      apply strict_row_intro; simpl; [by intros [?|?] | done].
    + eapply solo_worker_ok_mono; [|done]. intros r Hin. apply elem_of_app. by left.
  - rewrite Hev. split; [by rewrite requeue_stale_jobs_ids|]. split; [|done].
    unfold requeue_stale_jobs. intros r' (r & Hin & ->)%sql_update_elem.
    destruct (is_stale _ r) eqn:Hst; [|by apply Hstrict].
    apply andb_true_iff in Hst as [Hrun%bool_decide_eq_true _].
    apply strict_row_intro; simpl; [by intros [?|?]|]. intros _.
    apply strict_row_unfinished; [by apply Hstrict|].
    rewrite Hrun. apply not_terminal_running.
  - destruct (sys_workers s w) eqn:Hws; try by rewrite <- Hws in Hw.
    destruct (claim_select (sys_db s)) as [job_id|] eqn:Hsel;
      [|by rewrite <- Hws in Hw].
    simpl. split; [done|]. split; [done|]. rewrite set_worker_same. simpl.
    unfold claim_select in Hsel.
    destruct (oldest_queued (sys_db s)) as [r|] eqn:Hold; [|done].
    injection Hsel as <-. apply oldest_queued_Some in Hold as [Hin Hq]. eauto.
  - destruct (sys_workers s w) eqn:Hws; try by rewrite <- Hws in Hw.
    simpl in *. destruct Hw as (r0 & Hin0 & Hid0 & Hq0).
    split; [by rewrite claim_update_ids|]. split.
    + unfold claim_update. intros r' (r & Hin & ->)%sql_update_elem.
      destruct (bool_decide (j_id r = job_id) && is_queued r) eqn:Hc;
        [|by apply Hstrict].
      apply andb_true_iff in Hc as [_ Hq%bool_decide_eq_true].
      apply strict_row_intro; simpl; [by intros [?|?]|]. intros _.
      apply strict_row_unfinished; [by apply Hstrict|].
      rewrite Hq. apply not_terminal_queued.
    + rewrite set_worker_same. simpl. exists (claimed now w r0).
      split; [|done]. unfold claim_update. apply sql_update_elem. exists r0.
      split; [done|]. unfold is_queued. by rewrite !bool_decide_eq_true_2.
  - destruct (sys_workers s w) eqn:Hws; try by rewrite <- Hws in Hw.
    simpl in *.
    destruct (get_job job_id (sys_db s)) as [[job|]|] eqn:Hget; simpl;
      (split; [done|]); (split; [done|]); rewrite set_worker_same; simpl; try done.
    by rewrite (get_job_id _ _ _ Hget).
  - destruct (sys_workers s w) eqn:Hws; try by rewrite <- Hws in Hw.
    simpl in *. unfold process_start.
    destruct Hw as (r0 & Hin0 & Hid0 & Hrun0).
    destruct (known_type job).
    + split; [by rewrite update_job_status_ids|].
      split; [apply update_job_status_strict; eauto|].
      rewrite set_worker_same. simpl. by eapply update_job_status_status.
    + split; [by rewrite update_job_status_ids|].
      split; [apply update_job_status_strict; eauto|].
      by rewrite set_worker_same.
  - destruct (sys_workers s w) eqn:Hws; try by rewrite <- Hws in Hw.
    simpl in *. split; [|split].
    + unfold process_finish, handle_exception.
      repeat (match goal with
              | |- context [if ?b then _ else _] => destruct b
              | |- context [match ?x with Completed _ _ _ => _ | ProcRaised _ => _ end] =>
                  destruct x
              end); by rewrite update_job_status_ids.
    + by apply process_finish_strict.
    + by rewrite set_worker_same.
Qed.

Lemma solo_history_ok w h :
  solo_history w h -> exists s past, h = s :: past /\ solo_ok w s.
Proof.
  induction 1 as [w|w e s past Hh (s1 & past1 & Heq & Hok) Hev
                 |w w' s past Hh (s1 & past1 & Heq & Hok) Hidle].
  - exists init, []. split; [done|]. split; [constructor|]. split; [|done].
    intros r Hin. by apply elem_of_nil in Hin.
  - injection Heq as <- <-. eexists _, _. split; [done|]. by apply solo_ok_step.
  - injection Heq as <- <-. exists s, past. split; [done|].
    destruct Hok as (Hnd & Hstrict & _). split; [done|]. split; [done|].
    by rewrite Hidle.
Qed.

Lemma solo_history_history w h : solo_history w h -> history h.
Proof. induction 1; [constructor | by constructor | done]. Qed.

(** C5, as the code has it: in every state reached from the empty store
    by enqueues, claims, worker status updates and stale sweeps, in any
    interleaving of the processes, every job has one of the four
    statuses; a succeeded or failed job has its [finished_at];
    [finished_at] is set exactly if the job has at some point been
    succeeded or failed (a later claim does not clear it); [started_at]
    is set exactly if the job has at some point been running; and when
    the history is one of a single worker process at a time,
    [finished_at] is set exactly if the job is succeeded or failed. *)
Theorem job_state_machine s past r :
  history (s :: past) -> r ∈ sys_db s ->
  valid_status (j_status r) /\
  (terminal (j_status r) -> is_Some (j_finished_at r)) /\
  (is_Some (j_finished_at r) <-> has_been terminal (j_id r) (s :: past)) /\
  (is_Some (j_started_at r) <-> has_been running (j_id r) (s :: past)) /\
  (forall w, solo_history w (s :: past) ->
     (is_Some (j_finished_at r) <-> terminal (j_status r))).
Proof.
  intros Hh Hin.
  destruct (history_inv _ Hh) as (s1 & past1 & [= <- <-] & (_ & Hok & _) & _ & Hrows).
  destruct (Hok r Hin) as (Hv & Hf & _). destruct (Hrows r Hin) as [Hfin Hst].
  do 4 (split; [done|]). intros w Hsolo.
  destruct (solo_history_ok _ _ Hsolo) as (s1 & past1 & [= <- <-] & _ & Hstrict & _).
  by apply Hstrict.
Qed.

Lemma update_job_status_other now job_id status result error progress attempts
    (db : DB) (i : nat) r :
  db !! i = Some r -> j_id r <> job_id ->
  update_job_status now job_id status result error progress attempts db !! i = Some r.
Proof.
  intros Hi Hne. unfold update_job_status. rewrite sql_update_lookup, Hi. simpl.
  by rewrite bool_decide_eq_false_2.
Qed.

Lemma process_job_other run now1 now2 job (db : DB) (i : nat) r :
  db !! i = Some r -> j_id r <> d_id job ->
  process_job run now1 now2 job db !! i = Some r.
Proof.
  intros Hi Hne. unfold process_job, process_start, process_finish, handle_exception.
  repeat (match goal with
          | |- context [if ?b then _ else _] => destruct b
          | |- context [match ?x with Completed _ _ _ => _ | ProcRaised _ => _ end] =>
              destruct x
          end); repeat (apply update_job_status_other; [|done]); done.
Qed.

Lemma process_job_ids run now1 now2 job (db : DB) :
  map j_id (process_job run now1 now2 job db) = map j_id db.
Proof.
  unfold process_job, process_start, process_finish, handle_exception.
  repeat (match goal with
          | |- context [if ?b then _ else _] => destruct b
          | |- context [match ?x with Completed _ _ _ => _ | ProcRaised _ => _ end] =>
              destruct x
          end); by rewrite ?update_job_status_ids.
Qed.

Lemma claim_update_other now worker_id job_id (db : DB) (i : nat) r :
  db !! i = Some r -> j_id r <> job_id ->
  claim_update now worker_id job_id db !! i = Some r.
Proof.
  intros Hi Hne. unfold claim_update. rewrite sql_update_lookup, Hi. simpl.
  by rewrite bool_decide_eq_false_2.
Qed.

Lemma requeue_stale_jobs_keeps now_cutoff now_update timeout_seconds (db : DB)
    (i : nat) r :
  db !! i = Some r -> j_status r <> "running" ->
  requeue_stale_jobs now_cutoff now_update timeout_seconds db !! i = Some r.
Proof.
  intros Hi Hst. rewrite requeue_stale_jobs_lookup, Hi. simpl.
  rewrite is_stale_false; auto.
Qed.

(** One turn of the loop, seen from a job that is queued or failed and
    whose handler raises: either the turn executes it, and the retry
    policy applies, or the turn leaves its row alone. *)
Lemma worker_turn_job worker_id stale_timeout run t n (db : DB) (i : nat) r :
  NoDup (map j_id db) -> db !! i = Some r ->
  (forall d, d_id d = j_id r -> exists msg, run_handler run d = ProcRaised msg) ->
  decodable (json_dumps starting_doc) ->
  j_type r = "generate_amazon_content" -> row_decodable r ->
  j_status r = "queued" \/ j_status r = "failed" ->
  exists db' n' ex r',
    worker_turn worker_id stale_timeout run t (db, n) = (db', n', ex) /\
    NoDup (map j_id db') /\ db' !! i = Some r' /\
    j_id r' = j_id r /\ j_type r' = j_type r /\
    j_max_attempts r' = j_max_attempts r /\ row_decodable r' /\
    ((ex = Some (j_id r) /\ j_status r = "queued" /\
      j_attempts r' = j_attempts r + 1 /\
      j_status r' = (if j_max_attempts r <=? j_attempts r + 1
                     then "failed" else "queued")) \/
     (ex <> Some (j_id r) /\ r' = r)).
Proof.
  intros Hnd Hi Hraise Hstart Hty Hdec Hst. unfold worker_turn.
  set (db1 := if bool_decide (n mod 30 = 0)
              then requeue_stale_jobs (t_cutoff t) (t_requeue t) stale_timeout db
              else db).
  assert (Hnd1 : NoDup (map j_id db1)).
  { subst db1. destruct (bool_decide (n mod 30 = 0)); [|done].
    by rewrite requeue_stale_jobs_ids. }
  assert (Hi1 : db1 !! i = Some r).
  { subst db1. destruct (bool_decide (n mod 30 = 0)); [|done].
    apply requeue_stale_jobs_keeps; [done|]. destruct Hst as [-> | ->]; done. }
  clearbody db1. unfold claim_next_job.
  destruct (claim_select db1) as [jid|] eqn:Hsel.
  2:{ exists db1, (n + 1), None, r. do 7 (split; [done|]). by right. }
  cbn zeta.
  assert (Hnd2 : NoDup (map j_id (claim_update (t_claim t) worker_id jid db1)))
    by (by rewrite claim_update_ids).
  destruct (decide (jid = j_id r)) as [->|Hne].
  - unfold claim_select in Hsel.
    destruct (oldest_queued db1) as [r0|] eqn:Hold; [|done]. injection Hsel as Hid0.
    apply oldest_queued_Some in Hold as [Hin0 Hq0].
    assert (r0 = r) as ->.
    { eapply same_id_same_row; [exact Hnd1|done| |done].
      by eapply list_elem_of_lookup_2. }
    pose proof (claim_update_queued (t_claim t) worker_id db1 i r Hi1 Hq0) as Hi2.
    unfold get_job.
    change (select_by_id (j_id r)) with (select_by_id (j_id (claimed (t_claim t) worker_id r))).
    rewrite (select_by_id_lookup _ i (claimed (t_claim t) worker_id r)); [|done..].
    destruct (row_to_dict_decodable (claimed (t_claim t) worker_id r))
      as (d & Hd & Hdid & Hdty & _ & Hda & Hdm & _); [done|].
    simpl in Hdid, Hdty, Hda, Hdm. rewrite Hd. simpl.
    assert (Hk : known_type d = true).
    { unfold known_type. rewrite Hdty, Hty. by apply bool_decide_eq_true_2. }
    destruct (Hraise d Hdid) as [msg Hmsg].
    destruct (process_job_raises run (t_start t) (t_end t) d _ i _ msg Hi2
                (eq_sym Hdid) Hk Hmsg)
      as (r' & Hr' & Ha & Hs & He & Hid' & Hty' & Hpl & Hm & Hres & Hprog & _).
    simpl in Hid', Hty', Hpl, Hm, Hres.
    eexists _, _, _, r'. split; [reflexivity|].
    split; [by rewrite process_job_ids|]. split; [done|].
    split; [done|]. split; [done|]. split; [done|]. split.
    + destruct Hdec as (Hp & Hr & Hg). split; [by rewrite Hpl|].
      split; [by rewrite Hres|]. rewrite Hprog. by intros s [= <-].
    + left. rewrite Hdid, Hda, Hdm in *. done.
  - pose proof (claim_update_other (t_claim t) worker_id jid db1 i r Hi1
                  (not_eq_sym Hne)) as Hi2.
    destruct (get_job jid (claim_update (t_claim t) worker_id jid db1))
      as [[job|]|msg] eqn:Hget.
    + pose proof (get_job_id _ _ _ Hget) as Hjid.
      eexists _, _, _, r. split; [reflexivity|].
      split; [by rewrite process_job_ids|].
      split; [apply process_job_other; [done | congruence]|].
      do 4 (split; [done|]). right. split; [congruence | done].
    + eexists _, _, _, r. split; [reflexivity|]. do 6 (split; [done|]). by right.
    + eexists _, _, _, r. split; [reflexivity|]. do 6 (split; [done|]). by right.
Qed.

Lemma executions_cons job_id x exs :
  executions job_id (x :: exs)
  = if decide (x = job_id) then S (executions job_id exs) else executions job_id exs.
Proof. unfold executions. rewrite filter_cons. by case_decide. Qed.

Lemma retry_budget_queued r :
  j_status r = "queued" ->
  retry_budget r = Z.to_nat (Z.max 1 (j_max_attempts r - j_attempts r)).
Proof. intros Hq. unfold retry_budget. by rewrite bool_decide_eq_true_2. Qed.

Lemma retry_budget_failed r : j_status r = "failed" -> retry_budget r = 0%nat.
Proof. intros Hf. unfold retry_budget. rewrite Hf. by rewrite bool_decide_eq_false_2. Qed.

(** The worker loop, seen from such a job: every execution of the job
    adds one to [attempts] and takes one from its budget. *)
Lemma worker_loop_job worker_id stale_timeout (i : nat) job_id turns :
  Forall (fun rt => raises_on job_id rt.1) turns ->
  decodable (json_dumps starting_doc) ->
  forall n (db : DB) r,
    NoDup (map j_id db) -> db !! i = Some r -> j_id r = job_id ->
    j_type r = "generate_amazon_content" -> row_decodable r ->
    j_status r = "queued" \/ j_status r = "failed" ->
    exists db' n' exs r',
      worker_loop worker_id stale_timeout turns (db, n) = (db', n', exs) /\
      db' !! i = Some r' /\ j_id r' = job_id /\
      (j_status r' = "queued" \/ j_status r' = "failed") /\
      j_attempts r' = j_attempts r + Z.of_nat (executions job_id exs) /\
      (retry_budget r' + executions job_id exs = retry_budget r)%nat.
Proof.
  intros Hraises Hstart.
  induction turns as [|[run t] clock IH]; intros n db r Hnd Hi Hid Hty Hdec Hst.
  - exists db, n, [], r. change (executions job_id []) with 0%nat.
    repeat split; try done; lia.
  - apply Forall_cons in Hraises as [Hraise Hraises]. specialize (IH Hraises).
    cbn [fst] in Hraise. unfold raises_on in Hraise. rewrite <- Hid in Hraise.
    destruct (worker_turn_job worker_id stale_timeout run t n db i r
                Hnd Hi Hraise Hstart Hty Hdec Hst)
      as (db1 & n1 & ex & r1 & Hturn & Hnd1 & Hi1 & Hid1 & Hty1 & Hm1 & Hdec1 & Hcase).
    rewrite Hid in Hraise, Hid1.
    assert (Hst1 : j_status r1 = "queued" \/ j_status r1 = "failed").
    { destruct Hcase as [(_ & _ & _ & Hs)|(_ & ->)]; [|done].
      rewrite Hs. destruct (j_max_attempts r <=? j_attempts r + 1); auto. }
    rewrite Hty in Hty1.
    destruct (IH n1 db1 r1 Hnd1 Hi1 Hid1 Hty1 Hdec1 Hst1)
      as (db' & n' & exs & r' & Hloop & Hi' & Hid' & Hst' & Ha' & Hb').
    cbn [worker_loop]. rewrite Hturn, Hloop.
    eexists _, _, _, r'. split; [reflexivity|].
    split; [done|]. split; [done|]. split; [done|].
    destruct Hcase as [(-> & Hq & Ha1 & Hs1)|(Hex & ->)].
    + rewrite Hid, executions_cons, decide_True by done.
      rewrite (retry_budget_queued r Hq). split; [lia|].
      destruct (Z.leb_spec (j_max_attempts r) (j_attempts r + 1)).
      * rewrite (retry_budget_failed r1 Hs1) in Hb'. lia.
      * rewrite (retry_budget_queued r1 Hs1) in Hb'. lia.
    + destruct ex as [x|]; [|done].
      rewrite executions_cons, decide_False by congruence. done.
Qed.

(** C2, as the code has it: when the handler of a claimed job raises,
    [attempts] becomes the claimed value plus one and the job is failed
    if that reaches [max_attempts] and queued again otherwise; when the
    script ends with a non-zero return code the job is failed at once
    and [attempts] is not touched; hence a job of the known type whose
    handler always raises is executed by a worker loop at most
    [max 1 max_attempts] times, each execution adding one to [attempts],
    and is failed exactly when it has been executed that often; alone in
    the store it is executed once per turn until then. *)
Theorem retry_policy :
  (forall run now1 now2 job (db : DB) (i : nat) r msg,
     db !! i = Some r -> j_id r = d_id job -> known_type job = true ->
     run_handler run job = ProcRaised msg ->
     exists r', process_job run now1 now2 job db !! i = Some r' /\
       j_attempts r' = d_attempts job + 1 /\
       j_status r' = (if d_max_attempts job <=? d_attempts job + 1
                      then "failed" else "queued") /\
       j_error r' = Some ("Worker exception: " +:+ msg)) /\
  (forall run now1 now2 job (db : DB) (i : nat) r rc out err,
     db !! i = Some r -> j_id r = d_id job -> known_type job = true ->
     run_handler run job = Completed rc out err -> rc <> 0 ->
     exists r', process_job run now1 now2 job db !! i = Some r' /\
       j_status r' = "failed" /\ j_attempts r' = j_attempts r) /\
  (forall worker_id stale_timeout turns n (db : DB) (i : nat) r,
     NoDup (map j_id db) -> db !! i = Some r ->
     Forall (fun rt => raises_on (j_id r) rt.1) turns ->
     decodable (json_dumps starting_doc) -> row_decodable r ->
     j_type r = "generate_amazon_content" -> j_status r = "queued" ->
     j_attempts r = 0 ->
     let total := Z.to_nat (Z.max 1 (j_max_attempts r)) in
     exists db' n' exs r',
       worker_loop worker_id stale_timeout turns (db, n) = (db', n', exs) /\
       db' !! i = Some r' /\ j_id r' = j_id r /\
       (executions (j_id r) exs <= total)%nat /\
       j_attempts r' = Z.of_nat (executions (j_id r) exs) /\
       (j_status r' = "failed" <-> executions (j_id r) exs = total) /\
       (j_status r' = "queued" <-> (executions (j_id r) exs < total)%nat)) /\
  (forall worker_id stale_timeout turns n new_id now payload requested_by
          max_attempts db0,
     Forall (fun rt => always_raises rt.1) turns ->
     decodable (json_dumps starting_doc) ->
     decodable (json_dumps payload) ->
     enqueue_job new_id now "generate_amazon_content" payload requested_by
                 max_attempts [] = Ok (new_id, db0) ->
     let total := Z.to_nat (Z.max 1 max_attempts) in
     let runs := Nat.min (length turns) total in
     exists r' n',
       worker_loop worker_id stale_timeout turns (db0, n)
         = ([r'], n', replicate runs new_id) /\
       j_attempts r' = Z.of_nat runs /\
       j_status r' = (if (length turns <? total)%nat then "queued" else "failed")).
Proof.
  split; [|split; [|split]].
  - intros run now1 now2 job db i r msg Hi Hid Hk Hraise.
    destruct (process_job_raises run now1 now2 job db i r msg Hi Hid Hk Hraise)
      as (r' & Hr' & Ha & Hs & He & _).
    by exists r'.
  - intros run now1 now2 job db i r rc out err Hi Hid Hk Hrun Hrc.
    destruct (process_job_script_error run now1 now2 job db i r rc out err
                Hi Hid Hk Hrun Hrc) as (r' & Hr' & Hs & Ha & _).
    by exists r'.
  - intros worker_id stale_timeout turns n db i r Hnd Hi Hraise Hstart Hdec
      Hty Hq Ha0 total.
    destruct (worker_loop_job worker_id stale_timeout i (j_id r) turns
                Hraise Hstart n db r Hnd Hi eq_refl Hty Hdec (or_introl Hq))
      as (db' & n' & exs & r' & Hloop & Hi' & Hid' & Hst' & Ha' & Hb').
    exists db', n', exs, r'. split; [done|]. split; [done|]. split; [done|].
    rewrite (retry_budget_queued r Hq), Ha0, Z.sub_0_r in Hb'. fold total in Hb'.
    assert (Hpos : (0 < total)%nat) by (subst total; lia).
    split; [lia|]. split; [lia|].
    destruct Hst' as [Hq'|Hf'].
    + rewrite (retry_budget_queued r' Hq') in Hb'. rewrite Hq'. split; split; try done; lia.
    + rewrite (retry_budget_failed r' Hf') in Hb'. rewrite Hf'. split; split; try done; lia.
  - intros worker_id stale_timeout turns n new_id now payload requested_by
      max_attempts db0 Hrun Hstart Hpay Henq total runs.
    unfold enqueue_job in Henq. simpl in Henq. injection Henq as <-.
    match goal with
    | |- context [worker_loop _ _ _ ([?row], _)] => set (r0 := row)
    end.
    assert (Hdec : row_decodable r0) by (split; [done | by split]).
    destruct (worker_loop_retry worker_id stale_timeout turns n r0
                Hrun Hstart eq_refl eq_refl Hdec)
      as (r' & n' & Hloop & _ & Ha & Hs & _).
    simpl in Hloop, Ha, Hs. rewrite Z.sub_0_r in *.
    exists r', n'. by rewrite Z.add_0_l in Ha.
Qed.

(** What [claim_next_job]'s last two statements do for a caller that
    lost the race: when the selected row is no longer queued, the
    conditional update changes no row, and [get_job] returns the row all
    the same. *)
Lemma claim_lost_race now worker_id job_id (db : DB) r :
  select_by_id job_id db = Some r -> j_status r <> "queued" ->
  NoDup (map j_id db) ->
  claim_update now worker_id job_id db = db /\
  get_job job_id (claim_update now worker_id job_id db)
  = (d <- row_to_dict r ;;; Ok (Some d)).
Proof.
  intros Hsel Hnq Hnd.
  assert (Hsame : claim_update now worker_id job_id db = db).
  { unfold claim_update, sql_update. rewrite <- (map_id db) at 2.
    apply map_ext_in. intros x Hin%list_elem_of_In.
    case_bool_decide as Hid; simpl; [|done].
    unfold is_queued. case_bool_decide as Hq; [|done]. exfalso.
    apply select_by_id_Some in Hsel as [Hr Hrid].
    assert (x = r) as -> by (eapply same_id_same_row; [done..|congruence]). done. }
  split; [done|]. rewrite Hsame. unfold get_job. by rewrite Hsel.
Qed.

Lemma run_events_history evs s past :
  history (s :: past) -> exists past', history (run_events evs s :: past').
Proof.
  revert s past. induction evs as [|e evs IH]; intros s past Hh; simpl.
  - by exists past.
  - apply (IH (step e s) (s :: past)). by constructor.
Qed.

(** ** Further properties of the queue API *)

Lemma select_by_id_snoc_other jid (db : DB) r :
  j_id r <> jid -> select_by_id jid (db ++ [r]) = select_by_id jid db.
Proof.
  unfold select_by_id. intros Hne. induction db as [|x db IH]; simpl.
  - by rewrite bool_decide_eq_false_2.
  - by destruct (bool_decide (j_id x = jid)).
Qed.


(** X1. Lookup after insert: [enqueue_job] raises on an id that is
    stored already; on a fresh id it succeeds, after which [get_job] of
    the new id gives the job as inserted (queued, no attempts, no
    times but [created_at] and [updated_at], the payload decoded) and
    [get_job] of any other id answers as before. *)
Theorem enqueue_job_then_get_job new_id now job_type (P : json) requested_by
    max_attempts (db : DB) :
  (new_id ∈ map j_id db ->
   exists msg,
     enqueue_job new_id now job_type P requested_by max_attempts db = Raised msg) /\
  (new_id ∉ map j_id db ->
   json_dumps P <> EmptyString -> json_loads (json_dumps P) = Some P ->
   exists db',
     enqueue_job new_id now job_type P requested_by max_attempts db = Ok (new_id, db') /\
     get_job new_id db'
       = Ok (Some (mkJobDict new_id job_type "queued" now now None None requested_by
                             (FDoc P) FNull None 0 max_attempts FNull None)) /\
     forall job_id, job_id <> new_id -> get_job job_id db' = get_job job_id db).
Proof.
  split.
  - intros Hin. unfold enqueue_job.
    destruct (select_by_id new_id db) as [r|] eqn:Hsel; [by eexists|].
    by apply select_by_id_None in Hsel.
  - intros Hfresh Hne Hrt. apply select_by_id_None in Hfresh.
    unfold enqueue_job. rewrite Hfresh. eexists. split; [reflexivity|]. split.
    + unfold get_job. rewrite select_by_id_snoc by done.
      unfold row_to_dict, decode_column. simpl.
      rewrite bool_decide_eq_false_2 by done. by rewrite Hrt.
    + intros job_id Hid. unfold get_job. rewrite select_by_id_snoc_other; [done|].
      simpl. congruence.
Qed.

(** X2. [get_job] answers [None], without raising, exactly for an id
    that is not stored; for a stored id it returns the job exactly when
    the JSON columns of the row decode, and raises otherwise. *)
Theorem get_job_outcomes job_id (db : DB) :
  (get_job job_id db = Ok None <-> job_id ∉ map j_id db) /\
  (forall (i : nat) r, NoDup (map j_id db) -> db !! i = Some r -> j_id r = job_id ->
     (row_decodable r <-> exists d, get_job job_id db = Ok (Some d) /\ d_id d = job_id) /\
     (~ row_decodable r <-> exists msg, get_job job_id db = Raised msg)).
Proof.
  split.
  - rewrite <- select_by_id_None. unfold get_job.
    destruct (select_by_id job_id db) as [r|]; [|done].
    split; [|done]. by destruct (row_to_dict r).
  - intros i r Hnd Hi <-. unfold get_job. rewrite (select_by_id_lookup db i r) by done.
    destruct (row_to_dict r) as [d|msg] eqn:Hd; simpl.
    + pose proof (row_to_dict_Ok _ _ Hd) as Hdec. split.
      * split; [|done]. intros _. exists d. split; [done|].
        destruct (row_to_dict_decodable r Hdec) as (d' & Hd' & Hid & _). congruence.
      * split; [done|]. by intros [msg ?].
    + assert (~ row_decodable r) as Hn.
      { intros Hdec. destruct (row_to_dict_decodable r Hdec) as (d' & Hd' & _).
        congruence. }
      split.
      * split; [done|]. by intros (d & ? & _).
      * split; [|done]. intros _. by eexists.
Qed.

(** X3. [update_job_status] on an id that is not stored changes
    nothing and raises nothing. *)
Theorem update_job_status_unknown_id now job_id status result error progress attempts
    (db : DB) :
  job_id ∉ map j_id db ->
  update_job_status now job_id status result error progress attempts db = db.
Proof.
  clear json_loads.
  intros Hfresh. unfold update_job_status, sql_update.
  induction db as [|r db IH]; simpl; [done|].
  simpl in Hfresh. apply not_elem_of_cons in Hfresh as [Hne Hfresh].
  rewrite bool_decide_eq_false_2 by congruence. f_equal. by apply IH.
Qed.

Lemma oldest_queued_is_None (db : DB) :
  (forall r, r ∈ db -> j_status r <> "queued") -> oldest_queued db = None.
Proof.
  intros Hno. destruct (oldest_queued db) as [r|] eqn:Hold; [|done].
  destruct (oldest_queued_Some _ _ Hold) as [Hin Hq]. by destruct (Hno r Hin).
Qed.

Lemma get_job_stored job_id (db : DB) :
  job_id ∈ map j_id db -> get_job job_id db <> Ok None.
Proof.
  intros Hin. unfold get_job.
  destruct (select_by_id job_id db) as [r|] eqn:Hsel.
  - by destruct (row_to_dict r).
  - by apply select_by_id_None in Hsel.
Qed.

(** X4. The empty poll: [claim_next_job] answers [None] exactly when
    no row is queued, and it then leaves the store as it is. *)
Theorem claim_next_job_empty_poll now worker_id (db : DB) :
  ((claim_next_job now worker_id db).1 = Ok None <->
   (forall r, r ∈ db -> j_status r <> "queued")) /\
  ((claim_next_job now worker_id db).1 = Ok None ->
   (claim_next_job now worker_id db).2 = db).
Proof.
  unfold claim_next_job, claim_select.
  destruct (oldest_queued db) as [r|] eqn:Hold; simpl.
  - destruct (oldest_queued_Some _ _ Hold) as [Hin Hq].
    assert (get_job (j_id r) (claim_update now worker_id (j_id r) db) <> Ok None) as Hne.
    { apply get_job_stored. rewrite claim_update_ids.
      by apply (list_elem_of_fmap_2 j_id). }
    split; [|done]. split; [done|]. intros Hno. by destruct (Hno r Hin).
  - split; [|done]. split; [|done]. intros _. by apply oldest_queued_None.
Qed.

(** X5. A claim rewrites one row and no other: when some job is
    queued, the store after [claim_next_job] is the store with the
    selected queued row replaced by the same row with [status],
    [started_at], [worker_id] and [updated_at] written; every other
    column of that row is kept. *)
Theorem claim_next_job_frame now worker_id (db : DB) :
  NoDup (map j_id db) ->
  (exists r0, r0 ∈ db /\ j_status r0 = "queued") ->
  exists (i : nat) r r',
    db !! i = Some r /\ j_status r = "queued" /\
    (claim_next_job now worker_id db).2 = <[i := r']> db /\
    j_status r' = "running" /\ j_started_at r' = Some now /\
    j_worker_id r' = Some worker_id /\ j_updated_at r' = now /\
    same_job r r' /\ j_attempts r' = j_attempts r /\ j_finished_at r' = j_finished_at r /\
    j_result r' = j_result r /\ j_error r' = j_error r /\ j_progress r' = j_progress r.
Proof.
  intros Hnd (r0 & Hin0 & Hq0).
  destruct (oldest_queued db) as [r|] eqn:Hold.
  2:{ exfalso. by eapply oldest_queued_None. }
  destruct (oldest_queued_Some _ _ Hold) as [Hin Hq].
  apply list_elem_of_lookup_1 in Hin as [i Hi].
  exists i, r, (claimed now worker_id r). split; [done|]. split; [done|]. split.
  - unfold claim_next_job, claim_select. rewrite Hold. simpl.
    apply list_eq. intros k. destruct (decide (k = i)) as [->|Hk].
    + rewrite list_lookup_insert_eq by (by eapply lookup_lt_Some).
      by apply claim_update_queued.
    + rewrite list_lookup_insert_ne by done.
      destruct (db !! k) as [x|] eqn:Hx.
      * apply claim_update_other; [done|]. intros Hid. apply Hk.
        by eapply lookup_same_id.
      * unfold claim_update. by rewrite sql_update_lookup, Hx.
  - by repeat split.
Qed.


Lemma claim_update_queued_sub now worker_id job_id (db : DB) r' :
  r' ∈ claim_update now worker_id job_id db -> j_status r' = "queued" ->
  r' ∈ db /\ j_id r' <> job_id.
Proof.
  unfold claim_update, sql_update. intros Hin Hq.
  apply (list_elem_of_fmap_1 _ db r') in Hin as (x & -> & Hx).
  unfold is_queued in *.
  destruct (bool_decide (j_id x = job_id)) eqn:Hid; simpl in *.
  - destruct (bool_decide (j_status x = "queued")) eqn:Hqx; simpl in *; [done|].
    apply bool_decide_eq_false in Hqx. done.
  - apply bool_decide_eq_false in Hid. done.
Qed.

Lemma claim_next_job_ids now worker_id (db : DB) :
  map j_id (claim_next_job now worker_id db).2 = map j_id db.
Proof.
  unfold claim_next_job. destruct (claim_select db); simpl; [|done].
  apply claim_update_ids.
Qed.

Lemma claim_next_job_queued_sub now worker_id (db : DB) r' :
  r' ∈ (claim_next_job now worker_id db).2 -> j_status r' = "queued" -> r' ∈ db.
Proof.
  unfold claim_next_job. destruct (claim_select db); simpl; [|done].
  intros Hin Hq. by destruct (claim_update_queued_sub _ _ _ _ _ Hin Hq).
Qed.

(** A call of [claim_next_job] that hands out a job. *)
Lemma claim_next_job_Some now worker_id (db : DB) job db1 :
  NoDup (map j_id db) ->
  claim_next_job now worker_id db = (Ok (Some job), db1) ->
  exists (i : nat) r,
    db !! i = Some r /\ j_status r = "queued" /\
    (forall r', r' ∈ db -> j_status r' = "queued" -> j_created_at r <= j_created_at r') /\
    db1 = claim_update now worker_id (j_id r) db /\
    db1 !! i = Some (claimed now worker_id r) /\
    row_to_dict (claimed now worker_id r) = Ok job.
Proof.
  intros Hnd. unfold claim_next_job, claim_select.
  destruct (oldest_queued db) as [r|] eqn:Hold; simpl; [|done].
  destruct (oldest_queued_Some _ _ Hold) as [Hin Hq].
  destruct (oldest_queued_first_min _ _ Hold) as (k & Hk & Hmin).
  intros [= Hget <-]. exists k, r. split; [done|]. split; [done|]. split.
  { intros r' [k' Hk']%list_elem_of_lookup_1 Hq'. by destruct (Hmin k' r' Hk' Hq'). }
  split; [done|]. split; [by apply claim_update_queued|].
  unfold get_job in Hget.
  assert (Hrow : select_by_id (j_id r) (claim_update now worker_id (j_id r) db)
                 = Some (claimed now worker_id r)).
  { change (j_id r) with (j_id (claimed now worker_id r)) at 1.
    apply (select_by_id_lookup _ k).
    - by rewrite claim_update_ids.
    - by apply claim_update_queued. }
  rewrite Hrow in Hget.
  destruct (row_to_dict (claimed now worker_id r)) as [d|]; simpl in Hget; congruence.
Qed.

Lemma claim_calls_spec calls (db : DB) :
  NoDup (map j_id db) ->
  let jobs := (claim_calls calls db).1 in
  Forall (fun job => d_status job = "running" /\
            exists r, r ∈ db /\ j_status r = "queued" /\ j_id r = d_id job /\
                      j_created_at r = d_created_at job) jobs /\
  NoDup (map d_id jobs) /\
  StronglySorted (fun a b => d_created_at a <= d_created_at b) jobs.
Proof.
  revert db. induction calls as [|[now worker_id] calls IH]; intros db Hnd.
  { simpl. split; [constructor|]. split; constructor. }
  cbn [claim_calls].
  destruct (claim_next_job now worker_id db) as [out db1] eqn:Hclaim.
  assert (Hnd1 : NoDup (map j_id db1)).
  { replace db1 with (claim_next_job now worker_id db).2 by (by rewrite Hclaim).
    by rewrite claim_next_job_ids. }
  assert (Hsub : forall r', r' ∈ db1 -> j_status r' = "queued" -> r' ∈ db).
  { replace db1 with (claim_next_job now worker_id db).2 by (by rewrite Hclaim).
    apply claim_next_job_queued_sub. }
  specialize (IH db1 Hnd1). simpl in IH.
  destruct (claim_calls calls db1) as [jobs db2]. simpl in IH.
  destruct IH as (Hall & Hdist & Hsort).
  assert (Hall' : Forall (fun job => d_status job = "running" /\
            exists r, r ∈ db /\ j_status r = "queued" /\ j_id r = d_id job /\
                      j_created_at r = d_created_at job) jobs).
  { eapply Forall_impl; [exact Hall|]. intros job (Hrun & r' & Hin' & Hq' & Hid' & Hc').
    split; [done|]. exists r'. split; [by apply Hsub | done]. }
  destruct out as [[job|]|msg]; simpl; [|done..].
  destruct (claim_next_job_Some _ _ _ _ _ Hnd Hclaim)
    as (i & r & Hi & Hq & Hmin & Hdb1 & Hi1 & Hd).
  destruct (row_to_dict_fields _ _ Hd)
    as (Hid & _ & Hst & Hcr & _). simpl in Hid, Hst, Hcr.
  split; [|split].
  - constructor; [|done]. split; [done|]. exists r.
    split; [by eapply list_elem_of_lookup_2 | done].
  - simpl. apply NoDup_cons. split; [|done].
    intros Hin. apply (list_elem_of_fmap_1 d_id jobs) in Hin as (job' & Hid' & Hin').
    rewrite Forall_forall in Hall.
    destruct (Hall job' Hin') as (_ & r' & Hr' & Hq' & Hidr' & _).
    subst db1. destruct (claim_update_queued_sub _ _ _ _ _ Hr' Hq') as [_ Hne].
    congruence.
  - constructor; [done|]. rewrite Forall_forall. intros job' Hin'.
    rewrite Forall_forall in Hall.
    destruct (Hall job' Hin') as (_ & r' & Hr' & Hq' & _ & Hc').
    rewrite Hcr, <- Hc'. apply Hmin; [by apply Hsub | done].
Qed.

(** X6. Calls of [claim_next_job] that do not overlap never hand out a
    job twice: whatever the number of calls, their callers and their
    clocks, the jobs handed out have distinct ids, each was queued in
    the store the calls started from and is handed out as running, and
    they come in the order of [created_at], oldest first. *)
Theorem claim_calls_distinct_fifo calls (db : DB) jobs db' :
  NoDup (map j_id db) ->
  claim_calls calls db = (jobs, db') ->
  NoDup (map d_id jobs) /\
  StronglySorted (fun a b => d_created_at a <= d_created_at b) jobs /\
  (forall job, job ∈ jobs ->
     d_status job = "running" /\
     exists r, r ∈ db /\ j_status r = "queued" /\ j_id r = d_id job) /\
  (length jobs <= length calls)%nat.
Proof.
  intros Hnd Hcalls. pose proof (claim_calls_spec calls db Hnd) as Hspec.
  rewrite Hcalls in Hspec. simpl in Hspec. destruct Hspec as (Hall & Hdist & Hsort).
  split; [done|]. split; [done|]. split.
  - intros job Hin. rewrite Forall_forall in Hall.
    destruct (Hall job Hin) as (Hrun & r & Hr & Hq & Hid & _). eauto.
  - clear -Hcalls. revert db jobs db' Hcalls.
    induction calls as [|[now worker_id] calls IH]; intros db jobs db' Hcalls.
    + injection Hcalls as <- <-. done.
    + cbn [claim_calls] in Hcalls.
      destruct (claim_next_job now worker_id db) as [out db1].
      destruct (claim_calls calls db1) as [jobs1 db2] eqn:Hrest.
      specialize (IH _ _ _ Hrest). injection Hcalls as <- <-.
      destruct out as [[job|]|msg]; simpl; lia.
Qed.

(** X7. Recovery of a crashed worker's job: a running job whose
    [started_at] is older than the cutoff, and that is older than every
    other queued or running job, is handed to the next caller of
    [claim_next_job] after one [requeue_stale_jobs], with the caller as
    its worker, the claim time as [started_at], and its [attempts]
    unchanged. *)
Theorem requeue_then_claim now_cutoff now_update timeout_seconds now worker_id
    (db : DB) (i : nat) r T :
  NoDup (map j_id db) -> db !! i = Some r ->
  j_status r = "running" -> j_started_at r = Some T ->
  T + timeout_seconds < now_cutoff ->
  row_decodable r ->
  (forall r', r' ∈ db -> r' <> r -> j_status r' = "queued" \/ j_status r' = "running" ->
     j_created_at r < j_created_at r') ->
  let db1 := requeue_stale_jobs now_cutoff now_update timeout_seconds db in
  exists d db2 r2,
    claim_next_job now worker_id db1 = (Ok (Some d), db2) /\
    d_id d = j_id r /\ d_status d = "running" /\ d_worker_id d = Some worker_id /\
    d_started_at d = Some now /\ d_attempts d = j_attempts r /\
    db2 !! i = Some r2 /\ j_status r2 = "running" /\
    j_worker_id r2 = Some worker_id /\ j_attempts r2 = j_attempts r.
Proof.
  intros Hnd Hi Hrun HT Hlt Hdec Hold db1.
  set (r1 := set_updated_at now_update (set_worker_id None (set_status "queued" r))).
  assert (Hi1 : db1 !! i = Some r1).
  { subst db1. rewrite requeue_stale_jobs_lookup, Hi. simpl.
    by rewrite (is_stale_true _ r T) by (done || lia). }
  assert (Hnd1 : NoDup (map j_id db1)) by (subst db1; by rewrite requeue_stale_jobs_ids).
  destruct (oldest_queued db1) as [x|] eqn:Hsel.
  2:{ exfalso. eapply (oldest_queued_None db1 Hsel r1); [|done].
      by eapply list_elem_of_lookup_2. }
  destruct (oldest_queued_Some _ _ Hsel) as [_ Hqx].
  destruct (oldest_queued_first_min _ _ Hsel) as (k & Hk & Hmin).
  assert (k = i) as ->.
  { destruct (decide (k = i)) as [|Hne]; [done|]. exfalso.
    destruct (Hmin i r1 Hi1 eq_refl) as [Hle _]. simpl in Hle.
    subst db1. rewrite requeue_stale_jobs_lookup in Hk.
    destruct (db !! k) as [y|] eqn:Hy; [|done]. simpl in Hk.
    assert (y <> r) as Hyr.
    { intros ->. apply Hne. exact (lookup_same_id db k i r r Hnd Hy Hi eq_refl). }
    assert (Hin : y ∈ db) by (by eapply list_elem_of_lookup_2).
    destruct (is_stale (now_cutoff - timeout_seconds) y) eqn:Hstale.
    - injection Hk as <-. simpl in Hle.
      unfold is_stale in Hstale. apply andb_true_iff in Hstale as [Hs _].
      apply bool_decide_eq_true in Hs.
      specialize (Hold y Hin Hyr (or_intror Hs)). lia.
    - injection Hk as <-. specialize (Hold y Hin Hyr (or_introl Hqx)). lia. }
  assert (x = r1) as -> by congruence.
  assert (Hdec2 : row_decodable (claimed now worker_id r1)) by done.
  destruct (row_to_dict_decodable _ Hdec2)
    as (d & Hd & Hid & _ & Hst & Ha & _ & Hw & Hs).
  exists d, (claim_update now worker_id (j_id r1) db1), (claimed now worker_id r1).
  split.
  - unfold claim_next_job, claim_select. rewrite Hsel. simpl. f_equal.
    unfold get_job.
    change (j_id r) with (j_id (claimed now worker_id r1)) at 1.
    rewrite (select_by_id_lookup _ i (claimed now worker_id r1)).
    + by rewrite Hd.
    + by rewrite claim_update_ids.
    + by apply (claim_update_queued now worker_id db1 i r1).
  - simpl in *. do 5 (split; [done|]). split; [|done].
    by apply (claim_update_queued now worker_id db1 i r1).
Qed.



Lemma order_by_created_at_desc_snoc by_index (l : list Job) x :
  (forall r, r ∈ l -> j_created_at r < j_created_at x) ->
  order_by_created_at_desc by_index (l ++ [x])
  = x :: order_by_created_at_desc by_index l.
Proof.
  induction l as [|a l IH]; intros Hlt; [done|].
  change (order_by_created_at_desc by_index ((a :: l) ++ [x]))
    with (insert_desc by_index a (order_by_created_at_desc by_index (l ++ [x]))).
  change (order_by_created_at_desc by_index (a :: l))
    with (insert_desc by_index a (order_by_created_at_desc by_index l)).
  rewrite IH.
  - cbn [insert_desc]. specialize (Hlt a (list_elem_of_here _ _)).
    destruct (insert_desc_test by_index x a) as [Ht _].
    destruct (if by_index then _ else _); [|done].
    specialize (Ht eq_refl). lia.
  - intros r Hr. apply Hlt. by apply list_elem_of_further.
Qed.

(** X10. A job enqueued at a time later than every stored [created_at]
    heads the listing: after [enqueue_job], every [list_jobs] whose
    filters admit a queued job of the new type and whose limit is not
    zero returns the new job first. *)
Theorem enqueue_then_list_jobs new_id now job_type (P : json) requested_by max_attempts
    (db db' : DB) status type_filter limit ds :
  enqueue_job new_id now job_type P requested_by max_attempts db = Ok (new_id, db') ->
  (forall r, r ∈ db -> j_created_at r < now) ->
  filter_matches status "queued" = true ->
  filter_matches type_filter job_type = true ->
  limit <> 0 ->
  list_jobs status type_filter limit db' = Ok ds ->
  exists d ds', ds = d :: ds' /\ d_id d = new_id /\ d_status d = "queued" /\
    d_created_at d = now /\ d_attempts d = 0.
Proof.
  intros Henq Hnew Hfs Hft Hlim Hlist. unfold enqueue_job in Henq.
  destruct (select_by_id new_id db); [done|]. injection Henq as <-.
  apply list_jobs_Ok in Hlist as [_ Hlist].
  unfold list_rows in Hlist. rewrite List.filter_app in Hlist.
  cbn [List.filter] in Hlist. unfold list_where at 2 in Hlist. simpl in Hlist.
  rewrite Hfs, Hft in Hlist. simpl in Hlist.
  rewrite order_by_created_at_desc_snoc in Hlist.
  2:{ intros r Hr. apply list_elem_of_In, filter_In in Hr as [Hr _].
      simpl. by apply Hnew, list_elem_of_In. }
  assert (Hhead : forall (l : list Job) x, exists l', sql_limit limit (x :: l) = x :: l').
  { intros l x. unfold sql_limit. destruct (Z.ltb_spec limit 0); [by eexists|].
    destruct (Z.to_nat limit) as [|n] eqn:Hn; [lia|]. simpl. by eexists. }
  match type of Hlist with
  | res_mapM _ (sql_limit _ (?x :: ?l)) = _ => destruct (Hhead l x) as [l' Hl']
  end.
  rewrite Hl' in Hlist. simpl in Hlist.
  match type of Hlist with
  | context [row_to_dict ?x] => destruct (row_to_dict x) as [d|] eqn:Hd
  end; simpl in Hlist; [|done].
  destruct (res_mapM row_to_dict l') as [ds'|]; simpl in Hlist; [|done].
  injection Hlist as <-. exists d, ds'. split; [done|].
  destruct (row_to_dict_fields _ _ Hd) as (? & _ & ? & ? & _ & _ & ? & _). done.
Qed.

(** ** Further properties of the worker *)

Ltac update_at Hi Hid :=
  unfold update_job_status; rewrite !sql_update_lookup, Hi; simpl;
  rewrite !(bool_decide_eq_true_2 _ Hid); simpl.

(** X11. A job of a type the worker does not know is failed at once:
    the error names the type, [finished_at] is set, [attempts] is not
    touched, no progress is written, and the script is not run (the
    outcome is the same whatever the script would do). *)
Theorem process_job_unknown_type run now1 now2 job (db : DB) (i : nat) r :
  db !! i = Some r -> j_id r = d_id job ->
  d_type job <> "generate_amazon_content" ->
  (exists r', process_job run now1 now2 job db !! i = Some r' /\
     j_status r' = "failed" /\
     j_error r' = Some ("Unknown job type: " +:+ d_type job) /\
     j_finished_at r' = Some now1 /\ j_updated_at r' = now1 /\
     j_attempts r' = j_attempts r /\ j_progress r' = j_progress r /\
     j_result r' = j_result r /\ same_job r r') /\
  (forall run', process_job run' now1 now2 job db = process_job run now1 now2 job db).
Proof.
  intros Hi Hid Hty. unfold process_job, process_start, known_type.
  rewrite bool_decide_eq_false_2 by done. split; [|done].
  update_at Hi Hid. eexists. split; [reflexivity|]. by repeat split.
Qed.

(** [process_job] when the script ends with return code 0: the two
    status updates that are made. *)
Lemma process_job_returns_zero run now1 now2 job (db : DB) out err :
  d_type job = "generate_amazon_content" ->
  run_handler run job = Completed 0 out err ->
  process_job run now1 now2 job db
  = update_job_status now2 (d_id job) "succeeded"
      (Some (JDict [("output", JStr out)])) None None None
      (update_job_status now1 (d_id job) "running" None None (Some starting_doc) None db).
Proof.
  intros Hty Hrun. unfold process_job, process_start, known_type.
  rewrite bool_decide_eq_true_2 by done. rewrite Hrun. unfold process_finish.
  by rewrite bool_decide_eq_true_2.
Qed.

(** X12. A job whose script ends with return code 0 is marked
    succeeded: [result] holds the document with the script's standard
    output under the key output, [finished_at] and [updated_at] are the
    time of the second update, [progress] is the first report,
    [attempts] is not touched, and an [error] left by an earlier attempt
    stays in the row. *)
Theorem process_job_success run now1 now2 job (db : DB) (i : nat) r out err :
  db !! i = Some r -> j_id r = d_id job ->
  d_type job = "generate_amazon_content" ->
  run_handler run job = Completed 0 out err ->
  exists r', process_job run now1 now2 job db !! i = Some r' /\
    j_status r' = "succeeded" /\
    j_result r' = Some (json_dumps (JDict [("output", JStr out)])) /\
    j_finished_at r' = Some now2 /\ j_updated_at r' = now2 /\
    j_progress r' = Some (json_dumps starting_doc) /\
    j_attempts r' = j_attempts r /\ j_error r' = j_error r /\
    j_started_at r' = j_started_at r /\ j_worker_id r' = j_worker_id r /\
    same_job r r'.
Proof.
  intros Hi Hid Hty Hrun.
  rewrite (process_job_returns_zero run now1 now2 job db out err Hty Hrun).
  update_at Hi Hid. eexists. split; [reflexivity|]. by repeat split.
Qed.


Lemma run_handler_malformed job :
  (forall m, d_payload job = FDoc (JDict m) ->
     exists v, dict_get m "m_number" = Some v /\ forall s, v <> JStr s) ->
  exists msg, forall run, run_handler run job = ProcRaised msg.
Proof.
  intros Hbad. unfold run_handler.
  destruct (d_payload job) as [|s|[| | | |l|m]]; try (by eexists).
  destruct (Hbad m eq_refl) as (v & -> & Hv).
  destruct v as [| | |s| |]; try (by eexists). by destruct (Hv s).
Qed.

(** X24. A payload the handler cannot use counts as an exception of the
    handler and the script is not run: when the payload of a job of the
    known type is not a dict, or its [m_number] is not a string, the
    job gets one attempt more and is failed or queued again as the
    retry policy says, whatever the script would do. *)
Theorem process_job_malformed_payload run now1 now2 job (db : DB) (i : nat) r :
  db !! i = Some r -> j_id r = d_id job ->
  d_type job = "generate_amazon_content" ->
  (forall m, d_payload job = FDoc (JDict m) ->
     exists v, dict_get m "m_number" = Some v /\ forall s, v <> JStr s) ->
  (exists r' msg, process_job run now1 now2 job db !! i = Some r' /\
     j_attempts r' = d_attempts job + 1 /\
     j_status r'
     = (if d_max_attempts job <=? d_attempts job + 1 then "failed" else "queued") /\
     j_error r' = Some ("Worker exception: " +:+ msg)) /\
  (forall run', process_job run' now1 now2 job db = process_job run now1 now2 job db).
Proof.
  intros Hi Hid Hty Hbad. destruct (run_handler_malformed job Hbad) as [msg Hmsg].
  assert (Hk : known_type job = true).
  { unfold known_type. by apply bool_decide_eq_true_2. }
  split.
  - destruct (process_job_raises run now1 now2 job db i r msg Hi Hid Hk (Hmsg run))
      as (r' & Hr' & Ha & Hs & He & _).
    by exists r', msg.
  - intros run'. unfold process_job. by rewrite !Hmsg.
Qed.

Lemma worker_turn_ids worker_id stale_timeout run t (db : DB) n :
  map j_id (worker_turn worker_id stale_timeout run t (db, n)).1.1 = map j_id db.
Proof.
  unfold worker_turn.
  set (db1 := if bool_decide (n mod 30 = 0)
              then requeue_stale_jobs (t_cutoff t) (t_requeue t) stale_timeout db
              else db).
  assert (Hids1 : map j_id db1 = map j_id db).
  { subst db1. destruct (bool_decide (n mod 30 = 0)); [|done].
    apply requeue_stale_jobs_ids. }
  pose proof (claim_next_job_ids (t_claim t) worker_id db1) as Hids2.
  destruct (claim_next_job (t_claim t) worker_id db1) as [[[job|]|msg] db2];
    simpl in *; rewrite <- Hids1, <- Hids2; [|done..].
  apply process_job_ids.
Qed.

(** One turn of the loop leaves alone a row that is neither queued nor
    running, and does not execute its job. *)
Lemma worker_turn_settled worker_id stale_timeout run t (db : DB) n (i : nat) r :
  NoDup (map j_id db) -> db !! i = Some r ->
  j_status r <> "queued" -> j_status r <> "running" ->
  (worker_turn worker_id stale_timeout run t (db, n)).1.1 !! i = Some r /\
  (worker_turn worker_id stale_timeout run t (db, n)).2 <> Some (j_id r).
Proof.
  intros Hnd Hi Hnq Hnr. unfold worker_turn.
  set (db1 := if bool_decide (n mod 30 = 0)
              then requeue_stale_jobs (t_cutoff t) (t_requeue t) stale_timeout db
              else db).
  assert (Hi1 : db1 !! i = Some r).
  { subst db1. destruct (bool_decide (n mod 30 = 0)); [|done].
    by apply requeue_stale_jobs_keeps. }
  assert (Hnd1 : NoDup (map j_id db1)).
  { subst db1. destruct (bool_decide (n mod 30 = 0)); [|done].
    by rewrite requeue_stale_jobs_ids. }
  clearbody db1.
  unfold claim_next_job, claim_select.
  destruct (oldest_queued db1) as [x|] eqn:Hold; simpl; [|done].
  destruct (oldest_queued_Some _ _ Hold) as [Hx Hqx].
  assert (Hne : j_id r <> j_id x).
  { intros Hid. assert (r = x) as ->; [|done].
    eapply same_id_same_row; [exact Hnd1| |done..]. by eapply list_elem_of_lookup_2. }
  pose proof (claim_update_other (t_claim t) worker_id (j_id x) db1 i r Hi1 Hne) as Hi2.
  destruct (get_job (j_id x) (claim_update (t_claim t) worker_id (j_id x) db1))
    as [[job|]|msg] eqn:Hget; simpl; [|done..].
  apply get_job_id in Hget. split.
  - apply process_job_other; [done | congruence].
  - congruence.
Qed.

(** X14. Under the worker loop a terminal job is final: whatever the
    scripts do and whatever the clocks read, a row that is succeeded or
    failed is never rewritten and its job is never executed again. *)
Theorem worker_loop_terminal_final worker_id stale_timeout turns n (db : DB)
    (i : nat) r :
  NoDup (map j_id db) -> db !! i = Some r -> terminal (j_status r) ->
  exists db' n' exs,
    worker_loop worker_id stale_timeout turns (db, n) = (db', n', exs) /\
    db' !! i = Some r /\ j_id r ∉ exs.
Proof.
  intros Hnd Hi Hterm. revert db n Hnd Hi.
  induction turns as [|[run t] turns IH]; intros db n Hnd Hi.
  { exists db, n, []. split; [done|]. split; [done|]. apply not_elem_of_nil. }
  cbn [worker_loop].
  assert (j_status r <> "queued" /\ j_status r <> "running") as [Hnq Hnr].
  { destruct Hterm as [Ht|Ht]; rewrite Ht; done. }
  destruct (worker_turn_settled worker_id stale_timeout run t db n i r Hnd Hi Hnq Hnr)
    as [Hi1 Hex].
  pose proof (worker_turn_ids worker_id stale_timeout run t db n) as Hids.
  destruct (worker_turn worker_id stale_timeout run t (db, n)) as [[db1 n1] ex].
  simpl in Hi1, Hex, Hids.
  destruct (IH db1 n1) as (db' & n' & exs & Hloop & Hi' & Hnot); [by rewrite Hids|done|].
  rewrite Hloop. eexists _, _, _. split; [reflexivity|]. split; [done|].
  destruct ex as [x|]; [|done]. apply not_elem_of_cons. split; [congruence | done].
Qed.

Lemma worker_turn_empty_poll worker_id stale_timeout run t (db : DB) n :
  (forall r, r ∈ db -> j_status r <> "queued") -> n mod 30 <> 0 ->
  worker_turn worker_id stale_timeout run t (db, n) = (db, n + 1, None).
Proof.
  intros Hno Hn. unfold worker_turn. rewrite bool_decide_eq_false_2 by done.
  unfold claim_next_job, claim_select. by rewrite oldest_queued_is_None.
Qed.

Lemma worker_loop_empty_polls worker_id stale_timeout turns (db : DB) n :
  (forall r, r ∈ db -> j_status r <> "queued") ->
  (forall k, 0 <= k < Z.of_nat (length turns) -> (n + k) mod 30 <> 0) ->
  worker_loop worker_id stale_timeout turns (db, n)
  = (db, n + Z.of_nat (length turns), []).
Proof.
  intros Hno. revert n. induction turns as [|[run t] turns IH]; intros n Hn.
  { simpl. by rewrite Z.add_0_r. }
  cbn [worker_loop]. rewrite worker_turn_empty_poll; [|done|].
  2:{ specialize (Hn 0). rewrite Z.add_0_r in Hn. apply Hn. cbn [length]. lia. }
  rewrite IH.
  - replace (n + Z.of_nat (length ((run, t) :: turns)))
      with (n + 1 + Z.of_nat (length turns)) by (cbn [length]; lia).
    done.
  - intros k Hk. replace (n + 1 + k) with (n + (k + 1)) by lia. apply Hn.
    cbn [length]. lia.
Qed.

(** X15. An idle worker runs the stale sweep on every thirtieth empty
    poll only: with nothing queued and [consecutive_empty_polls] not a
    multiple of 30, the polls up to the next multiple of 30 leave the
    store as it is, stale running jobs included, and each adds one to
    the counter. *)
Theorem idle_worker_sweep_schedule worker_id stale_timeout turns (db : DB) n :
  (forall r, r ∈ db -> j_status r <> "queued") ->
  0 < n mod 30 ->
  n mod 30 + Z.of_nat (length turns) <= 30 ->
  worker_loop worker_id stale_timeout turns (db, n)
  = (db, n + Z.of_nat (length turns), []).
Proof.
  intros Hno Hpos Hlen. apply worker_loop_empty_polls; [done|].
  intros k Hk Hzero.
  assert (n mod 30 + k = (n + k) mod 30) as Heq.
  { apply (Z.mod_unique (n + k) 30 (n / 30)); [lia|].
    pose proof (Z.div_mod n 30). lia. }
  lia.
Qed.

(** X16. A claim is not undone when the claimed row cannot be decoded:
    if a JSON column of the selected row does not decode,
    [claim_next_job] raises after its [UPDATE] is committed, so the row
    is left running under the caller's id with its [attempts] as they
    were; the worker loop catches the exception and goes on without
    executing or failing the job. *)
Theorem claim_next_job_undecodable now worker_id (db : DB) (i : nat) r :
  NoDup (map j_id db) -> db !! i = Some r ->
  claim_select db = Some (j_id r) -> ~ row_decodable r ->
  let r' := claimed now worker_id r in
  (exists msg, claim_next_job now worker_id db = (Raised msg, <[i := r']> db)) /\
  j_status r' = "running" /\ j_worker_id r' = Some worker_id /\
  j_attempts r' = j_attempts r /\
  forall stale_timeout run t n,
    n mod 30 <> 0 -> t_claim t = now ->
    worker_turn worker_id stale_timeout run t (db, n) = (<[i := r']> db, n, None).
Proof.
  intros Hnd Hi Hsel Hdec r'.
  assert (Hq : j_status r = "queued").
  { unfold claim_select in Hsel. destruct (oldest_queued db) as [x|] eqn:Hold; [|done].
    simpl in Hsel. injection Hsel as Hid.
    destruct (oldest_queued_Some _ _ Hold) as [Hx Hqx].
    assert (x = r) as <-; [|done].
    eapply same_id_same_row; [exact Hnd|done| |done]. by eapply list_elem_of_lookup_2. }
  assert (Hdb : claim_update now worker_id (j_id r) db = <[i := r']> db).
  { apply list_eq. intros k. destruct (decide (k = i)) as [->|Hk].
    - rewrite list_lookup_insert_eq by (by eapply lookup_lt_Some).
      by apply claim_update_queued.
    - rewrite list_lookup_insert_ne by done.
      destruct (db !! k) as [x|] eqn:Hx.
      + apply claim_update_other; [done|]. intros Hid. apply Hk.
        exact (lookup_same_id db k i x r Hnd Hx Hi Hid).
      + unfold claim_update. by rewrite sql_update_lookup, Hx. }
  assert (Hclaim : exists msg,
            claim_next_job now worker_id db = (Raised msg, <[i := r']> db)).
  { unfold claim_next_job. rewrite Hsel, Hdb. unfold get_job.
    change (j_id r) with (j_id r').
    rewrite (select_by_id_lookup (<[i := r']> db) i r').
    - destruct (row_to_dict r') as [d|msg] eqn:Hd; simpl; [|by eexists].
      exfalso. apply Hdec. apply row_to_dict_Ok in Hd. exact Hd.
    - rewrite <- Hdb. by rewrite claim_update_ids.
    - apply list_lookup_insert_eq. by eapply lookup_lt_Some. }
  split; [done|]. do 3 (split; [done|]).
  intros stale_timeout run t n Hn Ht. unfold worker_turn.
  rewrite bool_decide_eq_false_2 by done. rewrite Ht.
  destruct Hclaim as [msg ->]. done.
Qed.

Lemma requeue_stale_jobs_none now_cutoff now_update timeout_seconds (db : DB) :
  (forall r, r ∈ db -> j_status r <> "running") ->
  requeue_stale_jobs now_cutoff now_update timeout_seconds db = db.
Proof.
  intros Hno. apply list_eq. intros k. rewrite requeue_stale_jobs_lookup.
  destruct (db !! k) as [x|] eqn:Hx; [|done]. simpl.
  rewrite is_stale_false; [done|]. left. apply Hno. by eapply list_elem_of_lookup_2.
Qed.

Lemma worker_loop_nothing_to_do worker_id stale_timeout turns (db : DB) n :
  (forall r, r ∈ db -> j_status r <> "queued" /\ j_status r <> "running") ->
  worker_loop worker_id stale_timeout turns (db, n)
  = (db, n + Z.of_nat (length turns), []).
Proof.
  intros Hno. revert n. induction turns as [|[run t] turns IH]; intros n.
  { simpl. by rewrite Z.add_0_r. }
  cbn [worker_loop].
  assert (worker_turn worker_id stale_timeout run t (db, n) = (db, n + 1, None)) as ->.
  { unfold worker_turn.
    assert ((if bool_decide (n mod 30 = 0)
             then requeue_stale_jobs (t_cutoff t) (t_requeue t) stale_timeout db
             else db) = db) as ->.
    { destruct (bool_decide (n mod 30 = 0)); [|done].
      apply requeue_stale_jobs_none. intros r Hr. by destruct (Hno r Hr). }
    unfold claim_next_job, claim_select. rewrite oldest_queued_is_None; [done|].
    intros r Hr. by destruct (Hno r Hr). }
  rewrite IH.
  replace (n + Z.of_nat (length ((run, t) :: turns)))
    with (n + 1 + Z.of_nat (length turns)) by (cbn [length]; lia).
  done.
Qed.

(** X17. A job that succeeds is executed once: on a store whose only
    row is a queued job of the known type with a payload that names a
    product number, a worker whose script ends with return code 0 on
    the first turn executes the job in that turn and in no later one,
    and leaves it succeeded with the script's output as its result and
    its [attempts] as they were. *)
Theorem worker_loop_success_once worker_id stale_timeout run t turns n r m number
    out err :
  j_type r = "generate_amazon_content" -> j_status r = "queued" ->
  row_decodable r ->
  j_payload r <> EmptyString ->
  json_loads (j_payload r) = Some (JDict m) ->
  dict_get m "m_number" = Some (JStr number) ->
  run number = Completed 0 out err ->
  exists r' n',
    worker_loop worker_id stale_timeout ((run, t) :: turns) ([r], n)
    = ([r'], n', [j_id r]) /\
    j_status r' = "succeeded" /\
    j_result r' = Some (json_dumps (JDict [("output", JStr out)])) /\
    j_finished_at r' = Some (t_end t) /\
    j_attempts r' = j_attempts r /\ j_worker_id r' = Some worker_id /\
    same_job r r'.
Proof.
  intros Hty Hq Hdec Hne Hload Hnum Hrun.
  cbn [worker_loop]. unfold worker_turn.
  assert (Hsweep : (if bool_decide (n mod 30 = 0)
                    then requeue_stale_jobs (t_cutoff t) (t_requeue t) stale_timeout [r]
                    else [r]) = [r]).
  { destruct (bool_decide (n mod 30 = 0)); [|done].
    apply requeue_stale_jobs_none. intros x ->%list_elem_of_singleton.
    by rewrite Hq. }
  rewrite Hsweep. clear Hsweep. rewrite claim_next_job_single by done.
  destruct (row_to_dict (claimed (t_claim t) worker_id r)) as [d|msg] eqn:Hd.
  2:{ exfalso. destruct (row_to_dict_decodable (claimed (t_claim t) worker_id r))
        as (d & Hd' & _); [done | congruence]. }
  destruct (row_to_dict_fields _ _ Hd) as (Hid & Hdty & _). simpl in Hid, Hdty.
  assert (Hpay : d_payload d = FDoc (JDict m)).
  { unfold row_to_dict, decode_column in Hd. simpl in Hd.
    rewrite bool_decide_eq_false_2 in Hd by done. rewrite Hload in Hd. simpl in Hd.
    destruct (match j_result r with
              | Some s => _ | None => _ end); simpl in Hd; [|done].
    destruct (match j_progress r with
              | Some s => _ | None => _ end); simpl in Hd; [|done].
    by injection Hd as <-. }
  assert (Hh : run_handler run d = Completed 0 out err).
  { unfold run_handler. by rewrite Hpay, Hnum. }
  simpl.
  rewrite (process_job_returns_zero run (t_start t) (t_end t) d _ out err
             ltac:(by rewrite Hdty) Hh).
  unfold update_job_status, sql_update. cbn [map].
  rewrite !(bool_decide_eq_true_2 _ (eq_sym Hid)). simpl.
  rewrite worker_loop_nothing_to_do.
  2:{ intros x ->%list_elem_of_singleton. done. }
  eexists _, _. rewrite Hid. split; [reflexivity|]. by repeat split.
Qed.

Lemma claim_update_insert now worker_id (db : DB) (i : nat) r :
  NoDup (map j_id db) -> db !! i = Some r -> j_status r = "queued" ->
  claim_update now worker_id (j_id r) db = <[i := claimed now worker_id r]> db.
Proof.
  intros Hnd Hi Hq. apply list_eq. intros k. destruct (decide (k = i)) as [->|Hk].
  - rewrite list_lookup_insert_eq by (by eapply lookup_lt_Some).
    by apply claim_update_queued.
  - rewrite list_lookup_insert_ne by done.
    destruct (db !! k) as [x|] eqn:Hx.
    + apply claim_update_other; [done|]. intros Hid. apply Hk.
      exact (lookup_same_id db k i x r Hnd Hx Hi Hid).
    + unfold claim_update. by rewrite sql_update_lookup, Hx.
Qed.

Lemma count_status_cons status r (db : DB) :
  count_status status (r :: db)
  = ((if bool_decide (j_status r = status) then 1 else 0) + count_status status db)%nat.
Proof. unfold count_status. simpl. by destruct (bool_decide (j_status r = status)). Qed.

Lemma count_status_pos status (db : DB) (i : nat) r :
  db !! i = Some r -> j_status r = status -> (0 < count_status status db)%nat.
Proof.
  revert i. induction db as [|x db IH]; intros i Hi Hs; [done|].
  rewrite count_status_cons. destruct i as [|i]; simpl in Hi.
  - injection Hi as ->. rewrite bool_decide_eq_true_2 by done. lia.
  - specialize (IH i Hi Hs). lia.
Qed.

Lemma count_status_insert status (db : DB) (i : nat) r r' :
  db !! i = Some r -> j_status r = status -> j_status r' <> status ->
  count_status status (<[i := r']> db) = pred (count_status status db).
Proof.
  revert i. induction db as [|x db IH]; intros i Hi Hs Hs'; [done|].
  destruct i as [|i]; simpl in Hi.
  - injection Hi as ->. simpl. rewrite !count_status_cons.
    rewrite (bool_decide_eq_true_2 (j_status r = status)) by done.
    rewrite (bool_decide_eq_false_2 (j_status r' = status)) by done.
    simpl. done.
  - simpl. rewrite !count_status_cons. rewrite (IH i Hi Hs Hs').
    pose proof (count_status_pos status db i r Hi Hs).
    destruct (bool_decide (j_status x = status)); lia.
Qed.

Lemma count_status_zero status (db : DB) :
  (forall r, r ∈ db -> j_status r <> status) -> count_status status db = 0%nat.
Proof.
  induction db as [|x db IH]; intros Hno; [done|].
  rewrite count_status_cons, IH.
  - rewrite bool_decide_eq_false_2; [done|]. apply Hno, list_elem_of_here.
  - intros r Hr. apply Hno. by apply list_elem_of_further.
Qed.

(** X8. Calls of [claim_next_job] that do not overlap hand out every
    queued job as long as calls are made: when the rows decode, the
    number of jobs handed out is the number of calls or the number of
    queued jobs, whichever is less. *)
Theorem claim_calls_complete calls (db : DB) :
  NoDup (map j_id db) ->
  (forall r, r ∈ db -> row_decodable r) ->
  length (claim_calls calls db).1
  = Nat.min (length calls) (count_status "queued" db).
Proof.
  revert db. induction calls as [|[now worker_id] calls IH]; intros db Hnd Hdec; [done|].
  cbn [claim_calls]. unfold claim_next_job, claim_select.
  destruct (oldest_queued db) as [r|] eqn:Hold; simpl.
  - destruct (oldest_queued_Some _ _ Hold) as [Hin Hq].
    apply list_elem_of_lookup_1 in Hin as [i Hi].
    rewrite (claim_update_insert now worker_id db i r Hnd Hi Hq).
    set (r' := claimed now worker_id r). set (db1 := <[i := r']> db).
    assert (Hi1 : db1 !! i = Some r').
    { apply list_lookup_insert_eq. by eapply lookup_lt_Some. }
    assert (Hids : map j_id db1 = map j_id db).
    { subst db1 r'. rewrite <- (claim_update_insert now worker_id db i r Hnd Hi Hq).
      apply claim_update_ids. }
    assert (Hrun : j_status r' <> "queued") by done.
    assert (Hdec1 : forall x, x ∈ db1 -> row_decodable x).
    { intros x Hx. subst db1. apply list_elem_of_lookup_1 in Hx as [k Hk].
      destruct (decide (k = i)) as [->|Hne].
      - rewrite Hi1 in Hk. injection Hk as <-.
        assert (row_decodable r) as Hr by (by eapply Hdec, list_elem_of_lookup_2).
        exact Hr.
      - rewrite list_lookup_insert_ne in Hk by done.
        by eapply Hdec, list_elem_of_lookup_2. }
    assert (Hget : exists d, get_job (j_id r) db1 = Ok (Some d)).
    { unfold get_job. change (j_id r) with (j_id r').
      rewrite (select_by_id_lookup db1 i r') by (by rewrite ?Hids).
      destruct (row_to_dict_decodable r') as (d & -> & _).
      - apply Hdec1. by eapply list_elem_of_lookup_2.
      - by eexists. }
    destruct Hget as [d ->].
    specialize (IH db1). rewrite Hids in IH. specialize (IH Hnd Hdec1).
    destruct (claim_calls calls db1) as [jobs db2]. cbn [fst length] in *.
    rewrite IH. subst db1.
    rewrite (count_status_insert "queued" db i r r' Hi Hq Hrun).
    pose proof (count_status_pos "queued" db i r Hi Hq).
    destruct (count_status "queued" db) as [|c]; [lia | done].
  - specialize (IH db Hnd Hdec).
    destruct (claim_calls calls db) as [jobs db2]. cbn [fst length] in *.
    rewrite IH. rewrite count_status_zero by (by apply oldest_queued_None).
    by rewrite !Nat.min_0_r.
Qed.

(** ** The routes and the producer *)

Lemma list_where_status status r :
  status <> EmptyString ->
  list_where (Some status) None r = bool_decide (j_status r = status).
Proof.
  intros Hne. unfold list_where, filter_matches.
  rewrite bool_decide_eq_false_2 by done. apply andb_true_r.
Qed.

(** The number of jobs listed for one status. *)
Lemma list_jobs_count status limit (db : DB) :
  status <> EmptyString -> 0 <= limit < 9223372036854775808 ->
  (forall r, r ∈ db -> row_decodable r) ->
  exists ds, list_jobs (Some status) None limit db = Ok ds /\
    length ds = Nat.min (Z.to_nat limit) (count_status status db).
Proof.
  intros Hne Hlim Hdec.
  assert (Hok : exists ds, list_jobs (Some status) None limit db = Ok ds).
  { rewrite list_jobs_in_range by lia. apply res_mapM_Ok. unfold list_rows, sql_limit.
    assert (Forall row_decodable
              (order_by_created_at_desc (status_term (Some status))
                 (List.filter (list_where (Some status) None) db))) as Hall.
    { rewrite order_by_created_at_desc_perm, Forall_forall.
      intros r Hin. apply list_elem_of_In, filter_In in Hin as [Hin _].
      by apply Hdec, list_elem_of_In. }
    destruct (limit <? 0); [done | by apply Forall_take]. }
  destruct Hok as [ds Hds]. exists ds. split; [done|].
  apply list_jobs_Ok in Hds as [_ Hds]. rewrite (res_mapM_length _ _ _ Hds).
  unfold list_rows, sql_limit. rewrite (proj2 (Z.ltb_ge limit 0)) by lia.
  rewrite length_take.
  rewrite (Permutation_length (order_by_created_at_desc_perm _ _)).
  unfold count_status. f_equal. f_equal. apply List.filter_ext.
  intros r. by apply list_where_status.
Qed.

(** X18. The statistics are capped: when the rows decode,
    [get_job_stats] reports the number of queued and of running jobs up
    to 1000 each, the number of succeeded and of failed jobs up to 100
    each, and as total the sum of these four numbers, which is never
    above 2200 whatever the store holds. *)
Theorem get_job_stats_capped (db : DB) :
  (forall r, r ∈ db -> row_decodable r) ->
  exists st, get_job_stats db = Ok st /\
    s_queued st = Nat.min 1000 (count_status "queued" db) /\
    s_running st = Nat.min 1000 (count_status "running" db) /\
    s_succeeded st = Nat.min 100 (count_status "succeeded" db) /\
    s_failed st = Nat.min 100 (count_status "failed" db) /\
    s_total st = (s_queued st + s_running st + s_succeeded st + s_failed st)%nat /\
    (s_total st <= 2200)%nat.
Proof.
  intros Hdec. unfold get_job_stats.
  destruct (list_jobs_count "queued" 1000 db) as (q & -> & Hq); [done|lia|done|].
  destruct (list_jobs_count "running" 1000 db) as (rn & -> & Hr); [done|lia|done|].
  destruct (list_jobs_count "succeeded" 100 db) as (sc & -> & Hs); [done|lia|done|].
  destruct (list_jobs_count "failed" 100 db) as (fl & -> & Hf); [done|lia|done|].
  cbn [res_bind]. eexists. split; [reflexivity|]. cbn [s_queued s_running s_succeeded
    s_failed s_total]. rewrite Hq, Hr, Hs, Hf.
  change (Z.to_nat 1000) with 1000%nat. change (Z.to_nat 100) with 100%nat.
  repeat split; lia.
Qed.

Lemma format_created_Ok strftime t o :
  format_created strftime t = Ok o -> (is_Some o <-> t <> 0).
Proof.
  unfold format_created. destruct (Z.eqb_spec t 0) as [->|Hne].
  - intros [= <-]. split; [by intros [? ?] | done].
  - destruct (strftime t); simpl; [|done]. intros [= <-]. split; [done | by eexists].
Qed.

Lemma format_later_Ok strftime imported t o :
  format_later strftime imported t = Ok o ->
  (is_Some o <-> exists t', t = Some t' /\ t' <> 0).
Proof.
  unfold format_later. destruct t as [t'|].
  - destruct (Z.eqb_spec t' 0) as [->|Hne].
    + intros [= <-]. split; [by intros [? ?] | by intros (? & [= <-] & ?)].
    + destruct imported; [|done]. destruct (strftime t'); simpl; [|done].
      intros [= <-]. split; [by eexists | by eexists].
  - intros [= <-]. split; [by intros [? ?] | by intros (? & ? & _)].
Qed.

(** X19. [GET /api/jobs/<job_id>] answers 404 exactly for an id that is
    not stored; a 200 answer carries the job as [get_job] returns it,
    with a formatted time for each of [created_at], [started_at] and
    [finished_at] that is set and not zero; and for a job whose
    [created_at] is zero while one of the two other times is set, the
    route raises, the name [datetime] being unbound. *)
Theorem get_job_status_spec (strftime : Z -> res string) job_id (db : DB) :
  (job_id ∉ map j_id db ->
   get_job_status strftime job_id db = Ok (BodyError "Job not found", 404)) /\
  (forall body code, get_job_status strftime job_id db = Ok (body, code) ->
     (code = 404 /\ body = BodyError "Job not found" /\ job_id ∉ map j_id db) \/
     (code = 200 /\ exists v, body = BodyJob v /\
        get_job job_id db = Ok (Some (v_job v)) /\ d_id (v_job v) = job_id /\
        (is_Some (v_created_at_formatted v) <-> d_created_at (v_job v) <> 0) /\
        (is_Some (v_started_at_formatted v) <->
         exists t, d_started_at (v_job v) = Some t /\ t <> 0) /\
        (is_Some (v_finished_at_formatted v) <->
         exists t, d_finished_at (v_job v) = Some t /\ t <> 0))) /\
  (forall job t, get_job job_id db = Ok (Some job) -> d_created_at job = 0 ->
     d_started_at job = Some t \/ d_finished_at job = Some t -> t <> 0 ->
     exists msg, get_job_status strftime job_id db = Raised msg).
Proof.
  split; [|split].
  - intros Habs. unfold get_job_status, get_job.
    apply select_by_id_None in Habs. by rewrite Habs.
  - intros body code. unfold get_job_status.
    destruct (get_job job_id db) as [[job|]|msg] eqn:Hget; simpl; [| |done].
    + destruct (format_created strftime (d_created_at job)) as [c|] eqn:Hc;
        simpl; [|done].
      destruct (format_later strftime (negb (d_created_at job =? 0)) (d_started_at job))
        as [st|] eqn:Hs; simpl; [|done].
      destruct (format_later strftime (negb (d_created_at job =? 0)) (d_finished_at job))
        as [fi|] eqn:Hf; simpl; [|done].
      intros [= <- <-]. right. split; [done|]. eexists. split; [reflexivity|]. simpl.
      split; [done|]. split; [by eapply get_job_id|].
      split; [by eapply format_created_Ok|].
      split; [by eapply format_later_Ok | by eapply format_later_Ok].
    + intros [= <- <-]. left. split; [done|]. split; [done|].
      unfold get_job in Hget. destruct (select_by_id job_id db) as [r|] eqn:Hsel.
      * by destruct (row_to_dict r).
      * by apply select_by_id_None.
  - intros job t Hget Hzero Ht Hne. unfold get_job_status. rewrite Hget. simpl.
    unfold format_created. rewrite Hzero. simpl.
    destruct Ht as [Ht|Ht]; rewrite Ht.
    + simpl. rewrite (proj2 (Z.eqb_neq t 0) Hne). by eexists.
    + destruct (format_later strftime false (d_started_at job)); simpl; [|by eexists].
      rewrite (proj2 (Z.eqb_neq t 0) Hne). by eexists.
Qed.

Lemma res_mapM_fst {A} (f : JobDict -> res A) (jobs : list JobDict) views :
  res_mapM (fun job => c <- f job ;;; Ok (job, c)) jobs = Ok views ->
  map fst views = jobs.
Proof.
  revert views. induction jobs as [|job jobs IH]; simpl; intros views.
  - by intros [= <-].
  - destruct (f job); simpl; [|done].
    destruct (res_mapM _ jobs) as [vs|]; simpl; [|done].
    intros [= <-]. simpl. f_equal. by apply IH.
Qed.

(** X20. [GET /api/jobs]: the limit is 50 when the request names none,
    and the answer of a request whose limit is not a number is an
    exception; an answer lists the jobs of [list_jobs] for the filters
    and the limit of the request, echoes them, and its count is the
    number of jobs listed, at most the limit when the limit is not
    negative. *)
Theorem list_all_jobs_spec (strftime : Z -> res string) (py_int : string -> res Z)
    status job_type limit_arg (db : DB) :
  (forall s msg, limit_arg = Some s -> py_int s = Raised msg ->
     list_all_jobs strftime py_int status job_type limit_arg db = Raised msg) /\
  (forall body,
     list_all_jobs strftime py_int status job_type limit_arg db = Ok body ->
     exists limit,
       match limit_arg with
       | Some s => py_int s = Ok limit
       | None => limit = 50
       end /\
       l_filters body = (status, job_type, limit) /\
       list_jobs status job_type limit db = Ok (map fst (l_jobs body)) /\
       l_count body = length (l_jobs body) /\
       (0 <= limit -> (l_count body <= Z.to_nat limit)%nat)).
Proof.
  split.
  - intros s msg -> Hs. unfold list_all_jobs. by rewrite Hs.
  - intros body. unfold list_all_jobs.
    set (parsed := match limit_arg with Some s => py_int s | None => Ok 50 end).
    destruct parsed as [limit|] eqn:Hlimit; simpl; [|done].
    destruct (list_jobs status job_type limit db) as [jobs|] eqn:Hjobs; simpl; [|done].
    destruct (res_mapM _ jobs) as [views|] eqn:Hviews; simpl; [|done].
    intros [= <-]. exists limit. simpl.
    pose proof (res_mapM_fst _ _ _ Hviews) as Hfst.
    pose proof (res_mapM_length _ _ _ Hviews) as Hlen.
    split; [|split; [done|split; [by rewrite Hfst|split; [done|]]]].
    + subst parsed. destruct limit_arg; [done | congruence].
    + intros Hpos. apply list_jobs_Ok in Hjobs as [_ Hjobs].
      rewrite (res_mapM_length _ _ _ Hjobs). unfold list_rows, sql_limit.
      rewrite (proj2 (Z.ltb_ge limit 0)) by lia. rewrite length_take. lia.
Qed.

Lemma oldest_queued_snoc (db : DB) x :
  (forall r, r ∈ db -> j_status r <> "queued") -> j_status x = "queued" ->
  oldest_queued (db ++ [x]) = Some x.
Proof.
  intros Hno Hq. induction db as [|a db IH]; simpl.
  - unfold is_queued. by rewrite bool_decide_eq_true_2.
  - unfold is_queued at 1. rewrite bool_decide_eq_false_2.
    + apply IH. intros r Hr. apply Hno. by apply list_elem_of_further.
    + apply Hno, list_elem_of_here.
Qed.

(** X21. The job that the web application enqueues for the content
    run names no product: the payload of [run_content] has no key
    [m_number], so a worker that claims the job (the only queued one)
    runs the script with the empty product number, whatever the theme
    and the use cases of the request; the route answers 202 with the id
    of the job and the address of its status. *)
Theorem run_content_job_has_no_product new_id now flatfile_name theme use_cases
    (db : DB) now' worker_id run :
  let P := content_payload flatfile_name theme use_cases in
  NoDup (map j_id db) -> new_id ∉ map j_id db ->
  (forall r, r ∈ db -> j_status r <> "queued") ->
  json_dumps P <> EmptyString -> json_loads (json_dumps P) = Some P ->
  exists body db1 d db2,
    run_content_async new_id now flatfile_name theme use_cases db = Ok (body, 202, db1) /\
    a_jobId body = new_id /\ a_statusUrl body = "/api/jobs/" +:+ new_id /\
    claim_next_job now' worker_id db1 = (Ok (Some d), db2) /\
    d_id d = new_id /\ known_type d = true /\ d_max_attempts d = 3 /\
    d_payload d = FDoc P /\
    run_handler run d = run EmptyString.
Proof.
  intros P Hnd Hfresh Hno Hne Hrt.
  unfold run_content_async, enqueue_job.
  rewrite (proj2 (select_by_id_None new_id db) Hfresh). simpl.
  set (x := mkJob new_id "generate_amazon_content" "queued" now now None None None
                  (json_dumps (content_payload flatfile_name theme use_cases))
                  None None 0 3 None None).
  set (db1 := db ++ [x]).
  assert (Hnd1 : NoDup (map j_id db1)).
  { subst db1. rewrite map_app. simpl. apply NoDup_app. split; [done|]. split.
    - intros y Hy ->%list_elem_of_singleton. done.
    - apply NoDup_singleton. }
  assert (Hx : db1 !! length db = Some x).
  { subst db1. by rewrite lookup_app_r, Nat.sub_diag. }
  assert (Hsel : oldest_queued db1 = Some x) by (by apply oldest_queued_snoc).
  set (x' := claimed now' worker_id x).
  assert (Hd : row_to_dict x'
               = Ok (mkJobDict new_id "generate_amazon_content" "running" now now'
                       (Some now') None None (FDoc P) FNull None 0 3 FNull
                       (Some worker_id))).
  { unfold row_to_dict, decode_column. simpl.
    rewrite bool_decide_eq_false_2 by done. fold P. by rewrite Hrt. }
  assert (Hrow : select_by_id new_id (claim_update now' worker_id new_id db1) = Some x').
  { apply (select_by_id_lookup (claim_update now' worker_id new_id db1) (length db) x').
    - by rewrite claim_update_ids.
    - by apply (claim_update_queued now' worker_id db1 (length db) x). }
  eexists _, db1, _, _. split; [reflexivity|]. simpl. do 2 (split; [done|]).
  split.
  - unfold claim_next_job, claim_select. rewrite Hsel. simpl. f_equal.
    unfold get_job. rewrite Hrow, Hd. reflexivity.
  - simpl. do 4 (split; [done|]). reflexivity.
Qed.

(** ** Jobs are durable *)

Lemma same_job_refl r : same_job r r.
Proof. by repeat split. Qed.

Lemma same_job_trans r1 r2 r3 : same_job r1 r2 -> same_job r2 r3 -> same_job r1 r3.
Proof. unfold same_job. intuition congruence. Qed.

Lemma sql_update_same_job cond f (db : DB) (i : nat) r :
  (forall x, same_job x (f x)) -> db !! i = Some r ->
  exists r', sql_update cond f db !! i = Some r' /\ same_job r r'.
Proof.
  intros Hf Hi. rewrite sql_update_lookup, Hi. simpl.
  destruct (cond r); eexists; (split; [reflexivity|]); [apply Hf | apply same_job_refl].
Qed.

Lemma update_job_status_same_job now job_id status result error progress attempts
    (db : DB) (i : nat) r :
  db !! i = Some r ->
  exists r', update_job_status now job_id status result error progress attempts db !! i
             = Some r' /\ same_job r r'.
Proof.
  intros Hi. apply sql_update_same_job; [|done]. intros x.
  destruct result, error, progress, attempts; repeat case_bool_decide; by repeat split.
Qed.

Lemma step_same_job e s (i : nat) r :
  sys_db s !! i = Some r ->
  exists r', sys_db (step e s) !! i = Some r' /\ same_job r r'.
Proof.
  intros Hi.
  assert (Hsame : exists r', sys_db s !! i = Some r' /\ same_job r r').
  { exists r. split; [done | apply same_job_refl]. }
  destruct e as [new_id now job_type payload requested_by max_attempts
                |now_cutoff now_update timeout_seconds|w now|w|w|w now|w now run];
    simpl.
  - unfold enqueue_job. destruct (select_by_id new_id (sys_db s)); simpl; [done|].
    exists r. split; [|apply same_job_refl].
    rewrite lookup_app_l; [done | by eapply lookup_lt_Some].
  - apply sql_update_same_job; [|done]. intros x. by repeat split.
  - destruct (sys_workers s w); try done. by destruct (claim_select (sys_db s)).
  - destruct (sys_workers s w); try done. simpl.
    apply sql_update_same_job; [|done]. intros x. by repeat split.
  - destruct (sys_workers s w); try done.
    by destruct (get_job job_id (sys_db s)) as [[job|]|msg].
  - destruct (sys_workers s w); try done. simpl. unfold process_start.
    destruct (known_type job); by apply update_job_status_same_job.
  - destruct (sys_workers s w); try done. simpl.
    unfold process_finish, handle_exception.
    repeat (match goal with
            | |- context [if ?b then _ else _] => destruct b
            | |- context [match ?x with Completed _ _ _ => _ | ProcRaised _ => _ end] =>
                destruct x
            end); by apply update_job_status_same_job.
Qed.

(** X22. Jobs are durable under every interleaving of the web process
    and the workers: no event removes or moves a row, and no event
    changes the id, the type, the payload, [created_at], [requested_by]
    or [max_attempts] that the job was enqueued with. *)
Theorem jobs_are_durable evs s (i : nat) r :
  sys_db s !! i = Some r ->
  exists r', sys_db (run_events evs s) !! i = Some r' /\ same_job r r'.
Proof.
  revert s r. induction evs as [|e evs IH]; intros s r Hi.
  - exists r. split; [done | apply same_job_refl].
  - destruct (step_same_job e s i r Hi) as (r1 & Hi1 & Hs1).
    destruct (IH (step e s) r1 Hi1) as (r' & Hi' & Hs').
    exists r'. split; [done | by eapply same_job_trans].
Qed.

Lemma is_stale_mono cutoff cutoff' r :
  cutoff' <= cutoff -> is_stale cutoff' r = true -> is_stale cutoff r = true.
Proof.
  unfold is_stale. intros Hle [Hs Ht]%andb_true_iff. rewrite Hs. simpl.
  destruct (j_started_at r) as [T|]; [|done].
  apply Z.ltb_lt in Ht. apply Z.ltb_lt. lia.
Qed.

(** X23. After [requeue_stale_jobs] no running job has a [started_at]
    older than the cutoff, and a further sweep whose cutoff is not
    later changes nothing, whatever its clock: with an unchanged cutoff
    the sweep is idempotent. *)
Theorem requeue_stale_jobs_idempotent now_cutoff now_update timeout_seconds (db : DB) :
  let db' := requeue_stale_jobs now_cutoff now_update timeout_seconds db in
  (forall r' T, r' ∈ db' -> j_status r' = "running" -> j_started_at r' = Some T ->
     now_cutoff - timeout_seconds <= T) /\
  (forall now_cutoff' now_update' timeout_seconds',
     now_cutoff' - timeout_seconds' <= now_cutoff - timeout_seconds ->
     requeue_stale_jobs now_cutoff' now_update' timeout_seconds' db' = db').
Proof.
  clear json_dumps json_loads.
  intros db'.
  assert (Hfresh : forall r', r' ∈ db' -> is_stale (now_cutoff - timeout_seconds) r' = false).
  { intros r' Hin. subst db'. unfold requeue_stale_jobs, sql_update in Hin.
    apply (list_elem_of_fmap_1 _ db r') in Hin as (x & -> & Hx).
    destruct (is_stale (now_cutoff - timeout_seconds) x) eqn:Hst; [|done].
    by apply is_stale_false; left. }
  split.
  - intros r' T Hin Hrun HT. specialize (Hfresh r' Hin). unfold is_stale in Hfresh.
    rewrite HT, bool_decide_eq_true_2 in Hfresh by done. simpl in Hfresh.
    by apply Z.ltb_ge in Hfresh.
  - intros now_cutoff' now_update' timeout_seconds' Hle.
    apply list_eq. intros k. rewrite requeue_stale_jobs_lookup.
    destruct (db' !! k) as [x|] eqn:Hx; [|done]. simpl.
    destruct (is_stale (now_cutoff' - timeout_seconds') x) eqn:Hst; [|done].
    apply (is_stale_mono (now_cutoff - timeout_seconds)) in Hst; [|done].
    rewrite Hfresh in Hst; [done|]. by eapply list_elem_of_lookup_2.
Qed.

End Queue.

(** ** The reference codec round-trips every document *)

Lemma str_app_cons c s t : String c s +:+ t = String c (s +:+ t).
Proof. reflexivity. Qed.

Lemma str_app_nil_l t : EmptyString +:+ t = t.
Proof. reflexivity. Qed.

Lemma str_app_nil_r s : s +:+ EmptyString = s.
Proof. induction s as [|c s IH]; [done|]. by rewrite str_app_cons, IH. Qed.

Lemma str_app_assoc s t u : (s +:+ t) +:+ u = s +:+ (t +:+ u).
Proof. induction s as [|c s IH]; [done|]. by rewrite !str_app_cons, IH. Qed.

Lemma str_length_app s t :
  String.length (s +:+ t) = (String.length s + String.length t)%nat.
Proof. induction s as [|c s IH]; [done|]. rewrite str_app_cons. simpl. by rewrite IH. Qed.

Lemma strip_prefix_app word rest :
  RefCodec.strip_prefix word (word +:+ rest) = Some rest.
Proof.
  induction word as [|c word IH]; [done|].
  rewrite str_app_cons. simpl. by rewrite bool_decide_eq_true_2.
Qed.

Lemma read_string_escape s rest :
  RefCodec.read_string (RefCodec.escape s +:+ String RefCodec.dquote rest)
  = Some (s, rest).
Proof.
  induction s as [|c s IH].
  - rewrite str_app_nil_l. done.
  - simpl. destruct (bool_decide (c = RefCodec.dquote)) eqn:Hq; simpl.
    + by rewrite IH.
    + destruct (bool_decide (c = RefCodec.backslash)) eqn:Hb; simpl.
      * by rewrite IH.
      * by rewrite Hq, Hb, IH.
Qed.

Lemma digit_of_pretty_N_char x :
  (x < 10)%N -> RefCodec.digit_of (pretty_N_char x) = Some (Z.of_N x).
Proof.
  intros Hx.
  assert (x = 0 \/ x = 1 \/ x = 2 \/ x = 3 \/ x = 4 \/ x = 5 \/ x = 6 \/ x = 7
          \/ x = 8 \/ x = 9)%N as Hc by lia.
  repeat (destruct Hc as [->|Hc]; [reflexivity|]). by subst.
Qed.

Lemma pretty_N_go_app x s t : pretty_N_go x s +:+ t = pretty_N_go x (s +:+ t).
Proof.
  revert s. induction (N.lt_wf_0 x) as [x _ IH]; intros s.
  destruct (decide (x = 0)%N) as [->|Hx]; [by rewrite !pretty_N_go_0|].
  rewrite (pretty_N_go_step x s), (pretty_N_go_step x (s +:+ t)) by lia.
  rewrite IH by (apply N.div_lt; lia). by rewrite str_app_cons.
Qed.

Lemma read_digits_pretty_N_go x s :
  exists k, forall acc,
    RefCodec.read_digits acc (pretty_N_go x s)
    = RefCodec.read_digits (acc * k + Z.of_N x) s.
Proof.
  revert s. induction (N.lt_wf_0 x) as [x _ IH]; intros s.
  destruct (decide (x = 0)%N) as [->|Hx].
  - exists 1. intros acc. rewrite pretty_N_go_0. f_equal. lia.
  - rewrite pretty_N_go_step by lia.
    destruct (IH (x `div` 10)%N ltac:(apply N.div_lt; lia)
                 (String (pretty_N_char (x `mod` 10)) s)) as [k Hk].
    exists (10 * k). intros acc. rewrite Hk. simpl.
    rewrite digit_of_pretty_N_char by (apply N.mod_lt; lia).
    f_equal. rewrite (N.div_mod x 10) at 3 by lia. lia.
Qed.

Lemma read_digits_stop acc s :
  no_digit_ahead s -> RefCodec.read_digits acc s = (acc, s).
Proof. destruct s as [|c s]; simpl; [done|]. by intros ->. Qed.

(** The first character of a positive numeral is a digit. *)
Lemma pretty_N_go_head x s :
  (0 < x)%N ->
  exists c s', pretty_N_go x s = String c s' /\ is_Some (RefCodec.digit_of c).
Proof.
  revert s. induction (N.lt_wf_0 x) as [x _ IH]; intros s Hx.
  rewrite pretty_N_go_step by done.
  destruct (decide (x `div` 10 = 0)%N) as [->|Hd].
  - rewrite pretty_N_go_0. eexists _, _. split; [done|].
    rewrite digit_of_pretty_N_char by (apply N.mod_lt; lia). by eexists.
  - apply IH; [apply N.div_lt; lia | by apply N.neq_0_lt_0].
Qed.

Lemma digit_not_dash c :
  is_Some (RefCodec.digit_of c) -> bool_decide (c = "-"%char) = false.
Proof. intros [d Hd]. case_bool_decide as Hc; [|done]. by subst. Qed.

Lemma read_int_positive p rest :
  no_digit_ahead rest ->
  RefCodec.read_int (pretty_N_go (N.pos p) rest) = Some (Z.pos p, rest).
Proof.
  intros Hrest.
  destruct (pretty_N_go_head (N.pos p) rest) as (c & s' & Heq & Hc); [lia|].
  destruct (read_digits_pretty_N_go (N.pos p) rest) as [k Hk].
  specialize (Hk 0). rewrite (read_digits_stop _ rest) in Hk by done.
  rewrite Heq in *. unfold RefCodec.read_int.
  rewrite (digit_not_dash c Hc). destruct Hc as [d Hd]. rewrite Hd.
  rewrite Hk. do 2 f_equal.
Qed.

Lemma pretty_Zpos p : pretty (Z.pos p) = pretty_N_go (N.pos p) EmptyString.
Proof. reflexivity. Qed.

Lemma pretty_Zneg p :
  pretty (Z.neg p) = String "-"%char (pretty_N_go (N.pos p) EmptyString).
Proof. reflexivity. Qed.

Lemma read_int_pretty (z : Z) rest :
  no_digit_ahead rest -> RefCodec.read_int (pretty z +:+ rest) = Some (z, rest).
Proof.
  intros Hrest. destruct z as [|p|p].
  - change (pretty 0) with "0". rewrite str_app_cons, str_app_nil_l.
    unfold RefCodec.read_int. simpl. by rewrite read_digits_stop.
  - rewrite pretty_Zpos, pretty_N_go_app, str_app_nil_l.
    by apply read_int_positive.
  - rewrite pretty_Zneg, str_app_cons, pretty_N_go_app, str_app_nil_l.
    destruct (pretty_N_go_head (N.pos p) rest) as (c & s' & Heq & [d Hd]); [lia|].
    destruct (read_digits_pretty_N_go (N.pos p) rest) as [k Hk].
    specialize (Hk 0). rewrite (read_digits_stop _ rest) in Hk by done.
    unfold RefCodec.read_int. rewrite bool_decide_eq_true_2 by done.
    rewrite Heq in *. rewrite Hd, Hk. done.
Qed.

Lemma int_head_dispatch c :
  int_head c ->
  RefCodec.is_space c = false /\
  bool_decide (c = "n"%char) = false /\ bool_decide (c = "t"%char) = false /\
  bool_decide (c = "f"%char) = false /\ bool_decide (c = RefCodec.dquote) = false /\
  bool_decide (c = "["%char) = false /\ bool_decide (c = "{"%char) = false /\
  c <> "]"%char.
Proof.
  intros [[d Hd]| ->]; [|by vm_compute].
  destruct c as [[] [] [] [] [] [] [] []]; vm_compute in Hd; try discriminate Hd;
    by vm_compute.
Qed.

Lemma pretty_Z_head (z : Z) : exists c s, pretty z = String c s /\ int_head c.
Proof.
  destruct z as [|p|p].
  - exists "0"%char, EmptyString. split; [done|]. left. by eexists.
  - rewrite pretty_Zpos.
    destruct (pretty_N_go_head (N.pos p) EmptyString) as (c & s & Heq & Hc); [lia|].
    exists c, s. split; [done | by left].
  - rewrite pretty_Zneg. eexists _, _. split; [done | by right].
Qed.

(** The first character of a written document is no white space and no
    closing bracket. *)
Lemma dumps_head v :
  exists c s, RefCodec.dumps v = String c s /\
    RefCodec.is_space c = false /\ c <> "]"%char.
Proof.
  destruct v as [|[]|z|s|l|m]; try by (eexists _, _; split; [reflexivity|]; vm_compute).
  destruct (pretty_Z_head z) as (c & s & Heq & Hc).
  destruct (int_head_dispatch c Hc) as (Hsp & _ & _ & _ & _ & _ & _ & Hne).
  by exists c, s.
Qed.

Lemma join_cons2 sep x y l :
  RefCodec.join sep (x :: y :: l) = x +:+ sep +:+ RefCodec.join sep (y :: l).
Proof. reflexivity. Qed.

Lemma read_value_skip f s :
  RefCodec.read_value f (String " "%char s) = RefCodec.read_value f s.
Proof. destruct f; reflexivity. Qed.

Lemma read_items_skip f s :
  RefCodec.read_items f (String " "%char s) = RefCodec.read_items f s.
Proof.
  destruct f as [|f]; [reflexivity|].
  change (RefCodec.read_items (S f) (String " "%char s))
    with (match RefCodec.read_value f (String " "%char s) with
          | Some (v, rest) =>
              match RefCodec.read_delimiter "]"%char rest with
              | RefCodec.DClose rest' => Some ([v], rest')
              | RefCodec.DComma rest' =>
                  match RefCodec.read_items f rest' with
                  | Some (l, rest'') => Some (v :: l, rest'')
                  | None => None
                  end
              | RefCodec.DNone => None
              end
          | None => None
          end).
  by rewrite read_value_skip.
Qed.

Lemma read_members_skip f s :
  RefCodec.read_members f (String " "%char s) = RefCodec.read_members f s.
Proof. destruct f; reflexivity. Qed.

Lemma read_value_quote f s :
  RefCodec.read_value (S f) (String RefCodec.dquote s)
  = match RefCodec.read_string s with
    | Some (body, rest) => Some (JStr body, rest)
    | None => None
    end.
Proof. reflexivity. Qed.

Lemma read_value_bracket f s :
  RefCodec.read_value (S f) (String "["%char s)
  = match RefCodec.read_delimiter "]"%char s with
    | RefCodec.DClose rest => Some (JList [], rest)
    | _ =>
        match RefCodec.read_items f s with
        | Some (l, rest) => Some (JList l, rest)
        | None => None
        end
    end.
Proof. reflexivity. Qed.

Lemma read_value_brace f s :
  RefCodec.read_value (S f) (String "{"%char s)
  = match RefCodec.read_delimiter "}"%char s with
    | RefCodec.DClose rest => Some (JDict [], rest)
    | _ =>
        match RefCodec.read_members f s with
        | Some (m, rest) => Some (JDict m, rest)
        | None => None
        end
    end.
Proof. reflexivity. Qed.

Lemma read_value_int f c s :
  int_head c ->
  RefCodec.read_value (S f) (String c s)
  = match RefCodec.read_int (String c s) with
    | Some (z, rest) => Some (JInt z, rest)
    | None => None
    end.
Proof.
  intros Hc. destruct (int_head_dispatch c Hc) as (Hsp & Hn & Ht & Hf & Hq & Hb & Hc' & _).
  change (RefCodec.read_value (S f) (String c s))
    with (match RefCodec.skip_ws (String c s) with
          | EmptyString => None
          | String c s' =>
              if bool_decide (c = "n"%char)
              then RefCodec.expect "null" JNull (String c s')
              else if bool_decide (c = "t"%char)
              then RefCodec.expect "true" (JBool true) (String c s')
              else if bool_decide (c = "f"%char)
              then RefCodec.expect "false" (JBool false) (String c s')
              else if bool_decide (c = RefCodec.dquote) then
                match RefCodec.read_string s' with
                | Some (body, rest) => Some (JStr body, rest)
                | None => None
                end
              else if bool_decide (c = "["%char) then
                match RefCodec.read_delimiter "]"%char s' with
                | RefCodec.DClose rest => Some (JList [], rest)
                | _ =>
                    match RefCodec.read_items f s' with
                    | Some (l, rest) => Some (JList l, rest)
                    | None => None
                    end
                end
              else if bool_decide (c = "{"%char) then
                match RefCodec.read_delimiter "}"%char s' with
                | RefCodec.DClose rest => Some (JDict [], rest)
                | _ =>
                    match RefCodec.read_members f s' with
                    | Some (m, rest) => Some (JDict m, rest)
                    | None => None
                    end
                end
              else
                match RefCodec.read_int (String c s') with
                | Some (z, rest) => Some (JInt z, rest)
                | None => None
                end
          end).
  simpl RefCodec.skip_ws. rewrite Hsp, Hn, Ht, Hf, Hq, Hb, Hc'. done.
Qed.

Lemma read_items_S f s :
  RefCodec.read_items (S f) s
  = match RefCodec.read_value f s with
    | Some (v, rest) =>
        match RefCodec.read_delimiter "]"%char rest with
        | RefCodec.DClose rest' => Some ([v], rest')
        | RefCodec.DComma rest' =>
            match RefCodec.read_items f rest' with
            | Some (l, rest'') => Some (v :: l, rest'')
            | None => None
            end
        | RefCodec.DNone => None
        end
    | None => None
    end.
Proof. reflexivity. Qed.

(** One member [key: value] at the head of the text. *)
Lemma read_members_S f k s :
  RefCodec.read_members (S f)
    (RefCodec.quote k +:+ String ":"%char (String " "%char s))
  = match RefCodec.read_value f s with
    | Some (v, rest) =>
        match RefCodec.read_delimiter "}"%char rest with
        | RefCodec.DClose rest' => Some ([(k, v)], rest')
        | RefCodec.DComma rest' =>
            match RefCodec.read_members f rest' with
            | Some (m, rest'') => Some ((k, v) :: m, rest'')
            | None => None
            end
        | RefCodec.DNone => None
        end
    | None => None
    end.
Proof.
  unfold RefCodec.quote. rewrite str_app_cons, str_app_assoc, str_app_cons, str_app_nil_l.
  change (RefCodec.read_members (S f) (String RefCodec.dquote ?x))
    with (match RefCodec.read_string x with
          | Some (k, rest) =>
              match RefCodec.skip_ws rest with
              | String c' rest' =>
                  if bool_decide (c' = ":"%char) then
                    match RefCodec.read_value f rest' with
                    | Some (v, rest'') =>
                        match RefCodec.read_delimiter "}"%char rest'' with
                        | RefCodec.DClose rest3 => Some ([(k, v)], rest3)
                        | RefCodec.DComma rest3 =>
                            match RefCodec.read_members f rest3 with
                            | Some (m, rest4) => Some ((k, v) :: m, rest4)
                            | None => None
                            end
                        | RefCodec.DNone => None
                        end
                    | None => None
                    end
                  else None
              | EmptyString => None
              end
          | None => None
          end).
  rewrite read_string_escape.
  change (RefCodec.skip_ws (String ":"%char (String " "%char s)))
    with (String ":"%char (String " "%char s)).
  cbv iota beta. rewrite bool_decide_eq_true_2 by done. by rewrite read_value_skip.
Qed.

(** Induction on documents, with the hypothesis for every element of a
    list and every value of a dict. *)
Lemma json_nested_ind (P : json -> Prop) :
  P JNull -> (forall b, P (JBool b)) -> (forall z, P (JInt z)) ->
  (forall s, P (JStr s)) ->
  (forall l, Forall P l -> P (JList l)) ->
  (forall m, Forall (fun kv => P (snd kv)) m -> P (JDict m)) ->
  forall v, P v.
Proof.
  intros Hnull Hbool Hint Hstr Hlist Hdict.
  fix IH 1. intros [|b|z|s|l|m].
  - exact Hnull.
  - apply Hbool.
  - apply Hint.
  - apply Hstr.
  - apply Hlist. induction l as [|x l IHl]; constructor; [apply IH | exact IHl].
  - apply Hdict. induction m as [|[k x] m IHm]; constructor; [apply IH | exact IHm].
Qed.

Lemma read_items_dumps l :
  l <> [] -> Forall reads_back l ->
  forall fuel rest,
    (String.length (RefCodec.join ", " (map RefCodec.dumps l)) + 1 < fuel)%nat ->
    RefCodec.read_items fuel
      (RefCodec.join ", " (map RefCodec.dumps l) +:+ String "]"%char rest)
    = Some (l, rest).
Proof.
  induction l as [|x l IHl]; [done|]. intros _ Hall fuel rest Hfuel.
  apply Forall_cons in Hall as [Hx Hl].
  destruct fuel as [|f]; [lia|]. rewrite read_items_S.
  destruct l as [|y l].
  - cbn [map RefCodec.join] in *. rewrite Hx by (done || lia). done.
  - cbn [map] in *. rewrite join_cons2 in *.
    rewrite !str_length_app in Hfuel. cbn [String.length] in Hfuel.
    rewrite !str_app_assoc, !str_app_cons, str_app_nil_l.
    rewrite Hx by (done || lia).
    change (RefCodec.read_delimiter "]"%char (String ","%char ?z))
      with (RefCodec.DComma z).
    cbv iota beta. rewrite read_items_skip.
    rewrite IHl; [done..|lia].
Qed.

Lemma read_members_dumps m :
  m <> [] -> Forall (fun kv => reads_back (snd kv)) m ->
  forall fuel rest,
    (String.length
       (RefCodec.join ", "
          (map (fun kv => RefCodec.quote (fst kv) +:+ ": " +:+ RefCodec.dumps (snd kv)) m))
     + 1 < fuel)%nat ->
    RefCodec.read_members fuel
      (RefCodec.join ", "
         (map (fun kv => RefCodec.quote (fst kv) +:+ ": " +:+ RefCodec.dumps (snd kv)) m)
       +:+ String "}"%char rest)
    = Some (m, rest).
Proof.
  induction m as [|[k x] m IHm]; [done|]. intros _ Hall fuel rest Hfuel.
  apply Forall_cons in Hall as [Hx Hm]. simpl in Hx.
  destruct fuel as [|f]; [lia|].
  destruct m as [|[k' y] m].
  - cbn [map RefCodec.join fst snd] in *.
    rewrite !str_length_app in Hfuel. cbn [String.length] in Hfuel.
    rewrite !str_app_assoc, !str_app_cons, str_app_nil_l.
    rewrite read_members_S. rewrite Hx by (done || lia). done.
  - cbn [map] in *. rewrite join_cons2 in *. cbn [fst snd] in *.
    rewrite !str_length_app in Hfuel. cbn [String.length] in Hfuel.
    rewrite !str_app_assoc, !str_app_cons, !str_app_nil_l.
    rewrite read_members_S. rewrite Hx by (done || lia).
    change (RefCodec.read_delimiter "}"%char (String ","%char ?z))
      with (RefCodec.DComma z).
    cbv iota beta. rewrite read_members_skip.
    rewrite IHm; [done..|]. lia.
Qed.

Lemma read_delimiter_open close c s :
  RefCodec.is_space c = false -> c <> close ->
  forall A (x : string -> A) (y : A),
    match RefCodec.read_delimiter close (String c s) with
    | RefCodec.DClose rest => x rest
    | _ => y
    end = y.
Proof.
  intros Hsp Hne A x y. unfold RefCodec.read_delimiter. simpl. rewrite Hsp.
  rewrite bool_decide_eq_false_2 by done. by destruct (bool_decide (c = ","%char)).
Qed.

Theorem read_value_dumps v : reads_back v.
Proof.
  induction v as [|b|z|s|l IHl|m IHm] using json_nested_ind;
    intros fuel rest Hfuel Hrest; (destruct fuel as [|f]; [lia|]).
  - reflexivity.
  - destruct b; reflexivity.
  - change (RefCodec.dumps (JInt z)) with (pretty z).
    destruct (pretty_Z_head z) as (c & s0 & Heq & Hc).
    assert (Hread : RefCodec.read_int (pretty z +:+ rest) = Some (z, rest))
      by (by apply read_int_pretty).
    rewrite Heq, str_app_cons in *. rewrite read_value_int by done. by rewrite Hread.
  - change (RefCodec.dumps (JStr s)) with (RefCodec.quote s). unfold RefCodec.quote.
    rewrite str_app_cons, str_app_assoc, str_app_cons, str_app_nil_l.
    rewrite read_value_quote. by rewrite read_string_escape.
  - change (RefCodec.dumps (JList l))
      with ("[" +:+ RefCodec.join ", " (map RefCodec.dumps l) +:+ "]") in *.
    rewrite !str_length_app in Hfuel. cbn [String.length] in Hfuel.
    rewrite !str_app_assoc, !str_app_cons, !str_app_nil_l. rewrite read_value_bracket.
    destruct l as [|x l]; [done|].
    assert (Hitems : RefCodec.read_items f
              (RefCodec.join ", " (map RefCodec.dumps (x :: l)) +:+ String "]"%char rest)
            = Some (x :: l, rest)) by (apply read_items_dumps; [done..|lia]).
    rewrite Hitems.
    destruct (dumps_head x) as (c & s0 & Heq & Hsp & Hne).
    assert (Hhead : exists s1,
              RefCodec.join ", " (map RefCodec.dumps (x :: l)) +:+ String "]"%char rest
              = String c s1).
    { destruct l as [|y l].
      - simpl. rewrite Heq, str_app_cons. by eexists.
      - cbn [map]. rewrite join_cons2, Heq, !str_app_cons. by eexists. }
    destruct Hhead as [s1 ->].
    by rewrite (read_delimiter_open "]"%char c s1 Hsp Hne).
  - change (RefCodec.dumps (JDict m))
      with ("{" +:+ RefCodec.join ", "
              (map (fun kv => RefCodec.quote (fst kv) +:+ ": " +:+ RefCodec.dumps (snd kv)) m)
            +:+ "}") in *.
    rewrite !str_length_app in Hfuel. cbn [String.length] in Hfuel.
    rewrite !str_app_assoc, !str_app_cons, !str_app_nil_l. rewrite read_value_brace.
    destruct m as [|[k x] m]; [done|].
    rewrite read_members_dumps; [|done..|lia].
    assert (Hhead : exists s1,
              RefCodec.join ", "
                (map (fun kv => RefCodec.quote (fst kv) +:+ ": " +:+ RefCodec.dumps (snd kv))
                     ((k, x) :: m)) +:+ String "}"%char rest
              = String RefCodec.dquote s1).
    { destruct m as [|[k' y] m].
      - simpl. unfold RefCodec.quote. rewrite !str_app_cons. by eexists.
      - cbn [map]. rewrite join_cons2. cbn [fst]. unfold RefCodec.quote at 1.
        rewrite !str_app_cons. by eexists. }
    destruct Hhead as [s1 ->].
    by rewrite (read_delimiter_open "}"%char RefCodec.dquote s1).
Qed.

(** [loads] after [dumps] is the identity, and [dumps] never writes the
    empty text. *)
Theorem loads_dumps v : RefCodec.loads (RefCodec.dumps v) = Some v.
Proof.
  unfold RefCodec.loads.
  rewrite <- (str_app_nil_r (RefCodec.dumps v)) at 2.
  rewrite read_value_dumps; [done | lia | done].
Qed.

Lemma dumps_nonempty v : RefCodec.dumps v <> EmptyString.
Proof. destruct (dumps_head v) as (c & s & -> & _). done. Qed.


(** ** The properties on the example stores, with the reference codec *)

(** C1: at [ex_race] both callers of [claim_next_job] receive the one
    queued job. The update of the second caller changes no row (the
    store is the same before and after it), and its [get_job] returns
    the job that the first caller holds. *)
Theorem claim_race_double_delivery :
  let s5 := run_events RefCodec.dumps RefCodec.loads (take 5 ex_race) init in
  let s6 := run_events RefCodec.dumps RefCodec.loads (take 6 ex_race) init in
  let s7 := run_events RefCodec.dumps RefCodec.loads ex_race init in
  sys_workers s5 "worker-2" = WSelected 12 "job-1" /\
  sys_db s6 = sys_db s5 /\
  exists job,
    sys_workers s7 "worker-1" = WClaimed job /\
    sys_workers s7 "worker-2" = WClaimed job /\
    d_id job = "job-1" /\ d_status job = "running" /\
    d_worker_id job = Some "worker-1".
Proof.
  vm_compute. split; [reflexivity|]. split; [reflexivity|].
  eexists. repeat split; reflexivity.
Qed.

(** C2: a handler that returns an error. The job has [max_attempts = 3];
    after its first execution it is failed, with [attempts] still 0. *)
Lemma script_error_counterexample :
  exists r',
    worker_turn RefCodec.dumps RefCodec.loads "worker-1" 600
                (fun _ => Completed 1 EmptyString "boom") (ex_clock 20) ([ex_queued], 0)
    = ([r'], 0, Some "job-1") /\
    j_max_attempts r' = 3 /\
    ~ (j_attempts r' = j_attempts ex_queued + 1 /\ j_status r' = "queued").
Proof.
  eexists. split; [vm_compute; reflexivity|]. split; [reflexivity|].
  intros [H _]. vm_compute in H. discriminate H.
Qed.

(** A job with [max_attempts = 3] whose handler always raises, alone in
    the store: five turns of the loop execute it three times. *)
Lemma retry_policy_witness :
  Forall (fun rt => always_raises rt.1) (map (fun n => (ex_boom, ex_clock n)) [20; 30; 40; 50; 60]) /\
  decodable RefCodec.loads (RefCodec.dumps starting_doc) /\
  decodable RefCodec.loads (RefCodec.dumps ex_payload) /\
  exists r' n',
    worker_loop RefCodec.dumps RefCodec.loads "worker-1" 600
                (map (fun n => (ex_boom, ex_clock n)) [20; 30; 40; 50; 60])
                ([ex_row "job-1" "queued" 10 None None], 0)
    = ([r'], n', ["job-1"; "job-1"; "job-1"]) /\
    j_attempts r' = 3 /\ j_status r' = "failed".
Proof.
  assert (Hrun : Forall (fun rt => always_raises rt.1)
                   (map (fun n => (ex_boom, ex_clock n)) [20; 30; 40; 50; 60])).
  { repeat constructor; intros s; exists "boom"; reflexivity. }
  assert (Hs : decodable RefCodec.loads (RefCodec.dumps starting_doc))
    by (right; vm_compute; eexists; reflexivity).
  assert (Hp : decodable RefCodec.loads (RefCodec.dumps ex_payload))
    by (right; vm_compute; eexists; reflexivity).
  split; [exact Hrun|]. split; [exact Hs|]. split; [exact Hp|].
  destruct (retry_policy RefCodec.dumps RefCodec.loads) as (_ & _ & _ & Hloop).
  exact (Hloop "worker-1" 600 (map (fun n => (ex_boom, ex_clock n)) [20; 30; 40; 50; 60])
           0 "job-1" 10 ex_payload None 3 _ Hrun Hs Hp eq_refl).
Defined.

(** C3: a sweep exactly at [T + timeout]. The job was claimed at time
    100; with a time-out of 600 the call at time 700 leaves it running. *)
Lemma requeue_at_deadline_counterexample :
  ~ (forall now, now >= 100 + 600 ->
       j_status <$> requeue_stale_jobs now now 600 [ex_running] !! 0%nat = Some "queued").
Proof.
  intros H. assert (Hge : 700 >= 100 + 600) by lia.
  specialize (H 700 Hge). vm_compute in H. discriminate H.
Qed.

(** The job claimed at time 100 is requeued by the sweep at time 701 and
    kept by the sweep at time 700 (time-out 600). *)
Lemma requeue_stale_jobs_spec_witness :
  [ex_running] !! 0%nat = Some ex_running /\
  (exists r', requeue_stale_jobs 701 702 600 [ex_running] !! 0%nat = Some r' /\
     j_status r' = "queued" /\ j_worker_id r' = None /\ j_updated_at r' = 702 /\
     j_attempts r' = j_attempts ex_running) /\
  requeue_stale_jobs 700 702 600 [ex_running] !! 0%nat = Some ex_running.
Proof.
  split; [reflexivity|].
  destruct (requeue_stale_jobs_spec 701 702 600 [ex_running] 0 ex_running eq_refl)
    as (Hflip & _ & _).
  destruct (requeue_stale_jobs_spec 700 702 600 [ex_running] 0 ex_running eq_refl)
    as (_ & Hkeep & _).
  split.
  - destruct (Hflip 100 eq_refl eq_refl ltac:(lia))
      as (r' & Hr' & Hs & Hw & Hu & Ha & _).
    exists r'. repeat split; assumption.
  - apply (Hkeep 100 eq_refl eq_refl). lia.
Defined.

(** [ex_two] is the store after job-a and job-b were enqueued in that
    order; the claim selects job-a and returns it, running, with its
    payload. *)
Lemma claim_next_job_fifo_witness :
  (db1 <- enqueue_job RefCodec.dumps "job-a" 10 "generate_amazon_content"
                      ex_payload None 3 [] ;;;
   enqueue_job RefCodec.dumps "job-b" 20 "generate_amazon_content"
               ex_payload None 3 db1.2) = Ok ("job-b", ex_two) /\
  NoDup (map j_id ex_two) /\
  (exists r0, r0 ∈ ex_two /\ j_status r0 = "queued") /\
  claim_select ex_two = Some "job-a" /\
  exists d, (claim_next_job RefCodec.loads 100 "worker-1" ex_two).1 = Ok (Some d) /\
    d_id d = "job-a" /\ d_created_at d = 10 /\ d_status d = "running" /\
    d_worker_id d = Some "worker-1" /\ d_payload d = FDoc ex_payload.
Proof.
  split; [vm_compute; reflexivity|].
  assert (Hnd : NoDup (map j_id ex_two)).
  { apply (bool_decide_unpack _). vm_compute. exact I. }
  assert (Hq : exists r0, r0 ∈ ex_two /\ j_status r0 = "queued").
  { exists (ex_row "job-a" "queued" 10 None None).
    split; [apply list_elem_of_here | reflexivity]. }
  split; [exact Hnd|]. split; [exact Hq|].
  destruct (claim_next_job_fifo RefCodec.loads 100 "worker-1" ex_two Hnd Hq)
    as (r & Hin & Hst & Hmin & Hsel & Hret & Hab & Hsome & Hex & Hjob).
  assert (Honly : forall r', r' ∈ ex_two -> j_status r' = "queued" ->
            r' = ex_row "job-a" "queued" 10 None None \/
            r' = ex_row "job-b" "queued" 20 None None).
  { intros r' Hr' _. unfold ex_two in Hr'.
    apply elem_of_cons in Hr' as [->|Hr']; [by left|].
    apply list_elem_of_singleton in Hr' as ->. by right. }
  destruct (Hab 0%nat 1%nat (ex_row "job-a" "queued" 10 None None)
              (ex_row "job-b" "queued" 20 None None)
              eq_refl eq_refl ltac:(lia) eq_refl eq_refl ltac:(simpl; lia))
    as [_ HA].
  specialize (HA Honly). subst r. split; [exact Hsel|].
  destruct Hex as [d Hd].
  { split; [right; vm_compute; by eexists|]. split; intros s [=]. }
  exists d. split; [exact Hd|].
  destruct (Hjob d Hd) as (_ & _ & _ & _ & _ & Hp & Hs & Hw & _ & Hrel).
  destruct (Hrel 0%nat 1%nat (ex_row "job-a" "queued" 10 None None)
              (ex_row "job-b" "queued" 20 None None)
              eq_refl eq_refl ltac:(lia) eq_refl eq_refl ltac:(simpl; lia))
    as [_ HdA].
  destruct (HdA Honly) as (Hid & Hcr & HpA).
  split; [exact Hid|]. split; [exact Hcr|]. split; [exact Hs|]. split; [exact Hw|].
  assert (Hc : decode_column RefCodec.loads
                  (Some (j_payload (ex_row "job-a" "queued" 10 None None)))
                = Ok (FDoc ex_payload)) by (vm_compute; reflexivity).
  rewrite Hc in HpA. injection HpA as HpA. symmetry. exact HpA.
Defined.

(** Marking the running job succeeded at time 200. *)
Lemma update_job_status_frame_witness :
  [ex_running] !! 0%nat = Some ex_running /\
  exists r',
    update_job_status RefCodec.dumps 200 "job-1" "succeeded"
      (Some (JDict [("output", JStr "done")])) None None None [ex_running] !! 0%nat
    = Some r' /\
    j_status r' = "succeeded" /\ j_updated_at r' = 200 /\
    j_finished_at r' = Some 200 /\
    j_worker_id r' = Some "worker-1" /\ j_started_at r' = Some 100 /\
    j_attempts r' = 0 /\ j_error r' = None.
Proof.
  split; [reflexivity|].
  destruct (update_job_status_frame RefCodec.dumps 200 "job-1" "succeeded"
              (Some (JDict [("output", JStr "done")])) None None None
              [ex_running] 0 ex_running eq_refl) as (_ & _ & Hrow).
  destruct (Hrow eq_refl)
    as (r' & Hr' & _ & _ & _ & Hsa & _ & _ & _ & Hw & Hs & Hu & Hf & _ & _ & He & _ & Ha).
  exists r'. split; [exact Hr'|].
  split; [exact Hs|]. split; [exact Hu|]. split; [apply Hf; by left|].
  split; [exact Hw|]. split; [exact Hsa|]. split; [exact Ha | exact He].
Defined.


(** A job first claimed at time 100, requeued, and claimed again at
    time 5000: the sweep at time 5600 leaves it running. *)
Lemma claim_restarts_stale_clock_witness :
  [ex_requeued] !! 0%nat = Some ex_requeued /\
  claim_select [ex_requeued] = Some (j_id ex_requeued) /\
  j_status ex_requeued = "queued" /\
  j_started_at ex_requeued = Some 100 /\
  exists r',
    (claim_next_job RefCodec.loads 5000 "worker-2" [ex_requeued]).2 !! 0%nat = Some r' /\
    j_started_at r' = Some 5000 /\ j_worker_id r' = Some "worker-2" /\
    requeue_stale_jobs 5600 5601 600
      (claim_next_job RefCodec.loads 5000 "worker-2" [ex_requeued]).2 !! 0%nat = Some r'.
Proof.
  split; [reflexivity|]. split; [reflexivity|]. split; [reflexivity|].
  split; [reflexivity|].
  destruct (claim_restarts_stale_clock RefCodec.loads 5000 "worker-2" [ex_requeued] 0
              ex_requeued eq_refl eq_refl eq_refl)
    as (r' & Hr' & _ & Hs & Hw & _ & Hsweep).
  exists r'. split; [exact Hr'|]. split; [exact Hs|]. split; [exact Hw|].
  apply (Hsweep 5600 5601 600). lia.
Defined.

(** C5: at [ex_overrun] the job is running while its [finished_at] is
    set. It was swept and claimed again while its first worker was still
    busy; the first worker then marked it succeeded, and the second
    worker's first status update made it running again. *)
Lemma finished_then_running_counterexample :
  let s := run_events RefCodec.dumps RefCodec.loads ex_overrun init in
  exists past r,
    history RefCodec.dumps RefCodec.loads (s :: past) /\
    r ∈ sys_db s /\
    j_status r = "running" /\ j_finished_at r = Some 1002 /\
    ~ (is_Some (j_finished_at r) <-> terminal (j_status r)).
Proof.
  intros s.
  destruct (run_events_history RefCodec.dumps RefCodec.loads ex_overrun init []
              (history_init _ _)) as [past Hh].
  exists past. eexists. split; [exact Hh|].
  split; [subst s; vm_compute; apply list_elem_of_here|].
  split; [reflexivity|]. split; [reflexivity|].
  simpl. intros [Hto _]. destruct (Hto (mk_is_Some _ _ eq_refl)) as [H|H]; discriminate H.
Qed.

(** The life of job-1 under one worker: enqueued, claimed, started and
    finished with return code 0. Once the job is running its
    [started_at] is set, its [finished_at] is not, and it has never
    been terminal; once it is succeeded both are set, and it has been
    running and terminal. *)
Lemma job_state_machine_witness :
  let s1 := step RefCodec.dumps RefCodec.loads ex_enqueue init in
  let s2 := step RefCodec.dumps RefCodec.loads (EvSelect "worker-1" 11) s1 in
  let s3 := step RefCodec.dumps RefCodec.loads (EvUpdate "worker-1") s2 in
  let s4 := step RefCodec.dumps RefCodec.loads (EvFetch "worker-1") s3 in
  let s5 := step RefCodec.dumps RefCodec.loads (EvStart "worker-1" 12) s4 in
  let s6 := step RefCodec.dumps RefCodec.loads (EvFinish "worker-1" 13 ex_ok) s5 in
  let h5 := [s5; s4; s3; s2; s1; init] in
  history RefCodec.dumps RefCodec.loads (s6 :: h5) /\
  solo_history RefCodec.dumps RefCodec.loads "worker-1" (s6 :: h5) /\
  (exists r, sys_db s5 = [r] /\ j_id r = "job-1" /\ j_status r = "running" /\
     j_started_at r = Some 11 /\ j_finished_at r = None /\
     has_been running "job-1" h5 /\ ~ has_been terminal "job-1" h5 /\
     (is_Some (j_finished_at r) <-> terminal (j_status r))) /\
  (exists r, sys_db s6 = [r] /\ j_id r = "job-1" /\ j_status r = "succeeded" /\
     j_started_at r = Some 11 /\ j_finished_at r = Some 13 /\
     has_been running "job-1" (s6 :: h5) /\ has_been terminal "job-1" (s6 :: h5) /\
     (is_Some (j_finished_at r) <-> terminal (j_status r))).
Proof.
  intros s1 s2 s3 s4 s5 s6 h5.
  assert (Hh5 : history RefCodec.dumps RefCodec.loads h5).
  { subst h5 s5 s4 s3 s2 s1. do 5 apply history_step. apply history_init. }
  assert (Hh6 : history RefCodec.dumps RefCodec.loads (s6 :: h5)).
  { subst h5 s6. by apply history_step. }
  assert (Hs5 : solo_history RefCodec.dumps RefCodec.loads "worker-1" h5).
  { subst h5 s5 s4 s3 s2 s1.
    do 5 (apply solo_step; [|first [exact I | reflexivity]]). apply solo_init. }
  assert (Hs6 : solo_history RefCodec.dumps RefCodec.loads "worker-1" (s6 :: h5)).
  { subst h5 s6. apply solo_step; [exact Hs5 | reflexivity]. }
  split; [exact Hh6|]. split; [exact Hs6|]. split.
  - assert (Hdb : exists r, sys_db s5 = [r] /\ j_id r = "job-1" /\
                    j_status r = "running" /\ j_started_at r = Some 11 /\
                    j_finished_at r = None).
    { eexists. split; [vm_compute; reflexivity|]. by repeat split. }
    destruct Hdb as (r & Hdb & Hid & Hst & Hsa & Hfi).
    assert (Hin : r ∈ sys_db s5) by (rewrite Hdb; apply list_elem_of_here).
    destruct (job_state_machine RefCodec.dumps RefCodec.loads s5 [s4; s3; s2; s1; init]
                r Hh5 Hin) as (_ & _ & Hfin & Hrun & Hsolo).
    exists r. do 5 (split; [assumption|]). rewrite Hid in Hfin, Hrun. split; [|split].
    + apply Hrun. rewrite Hsa. by eexists.
    + intros Hb. apply Hfin in Hb. rewrite Hfi in Hb. by destruct Hb.
    + exact (Hsolo "worker-1" Hs5).
  - assert (Hdb : exists r, sys_db s6 = [r] /\ j_id r = "job-1" /\
                    j_status r = "succeeded" /\ j_started_at r = Some 11 /\
                    j_finished_at r = Some 13).
    { eexists. split; [vm_compute; reflexivity|]. by repeat split. }
    destruct Hdb as (r & Hdb & Hid & Hst & Hsa & Hfi).
    assert (Hin : r ∈ sys_db s6) by (rewrite Hdb; apply list_elem_of_here).
    destruct (job_state_machine RefCodec.dumps RefCodec.loads s6 h5 r Hh6 Hin)
      as (_ & _ & Hfin & Hrun & Hsolo).
    exists r. do 5 (split; [assumption|]). rewrite Hid in Hfin, Hrun. split; [|split].
    + apply Hrun. rewrite Hsa. by eexists.
    + apply Hfin. rewrite Hfi. by eexists.
    + exact (Hsolo "worker-1" Hs6).
Defined.

Lemma ex_row_decodable job_id status created started worker :
  row_decodable RefCodec.loads (ex_row job_id status created started worker).
Proof.
  split; [right; vm_compute; by eexists|]. split; intros s [=].
Qed.

Lemma ex_five_decodable r : r ∈ ex_five -> row_decodable RefCodec.loads r.
Proof.
  unfold ex_five. intros Hr.
  repeat (apply elem_of_cons in Hr as [->|Hr]; [apply ex_row_decodable|]).
  by apply elem_of_nil in Hr.
Qed.

(** C7: an empty-string filter and a limit beyond 64 bits. With the
    status filter the empty string all six jobs are listed, queued and
    running, though no job has the empty string as status; with the
    limit 2^63 the call raises. *)
Lemma list_jobs_empty_status_counterexample :
  (exists ds,
     list_jobs RefCodec.loads (Some EmptyString) None 50 ex_five = Ok ds /\
     map d_status ds
     = ["running"; "queued"; "queued"; "queued"; "queued"; "queued"] /\
     ~ (forall d, d ∈ ds -> d_status d = EmptyString)) /\
  (exists msg,
     list_jobs RefCodec.loads (Some "queued") None 9223372036854775808 ex_five
     = Raised msg).
Proof.
  split.
  - eexists. split; [vm_compute; reflexivity|]. split; [reflexivity|].
    intros H. specialize (H _ (list_elem_of_here _ _)). discriminate H.
  - eexists. vm_compute. reflexivity.
Qed.

(** Five queued jobs, [status = "queued"], [limit = 1]: the one job
    listed is the most recently created, job-5. *)
Lemma list_jobs_spec_witness :
  -9223372036854775808 <= 1 < 9223372036854775808 /\
  length (list_rows (Some "queued") None 1 ex_five) = 1%nat /\
  list_jobs RefCodec.loads (Some "queued") None 1 ex_five
  = res_mapM (row_to_dict RefCodec.loads) [ex_row "job-5" "queued" 50 None None] /\
  exists d, list_jobs RefCodec.loads (Some "queued") None 1 ex_five = Ok [d] /\
    d_id d = "job-5" /\ d_status d = "queued" /\ d_created_at d = 50.
Proof.
  assert (Hin : -9223372036854775808 <= 1 < 9223372036854775808) by lia.
  split; [exact Hin|].
  destruct (list_jobs_spec RefCodec.loads (Some "queued") None 1 ex_five)
    as (Hlist & _ & Hok & _ & rest & _ & _ & Hlen & _).
  split; [rewrite Hlen by lia; reflexivity|].
  split; [rewrite (Hlist Hin); reflexivity|].
  assert (Hd : exists d, list_jobs RefCodec.loads (Some "queued") None 1 ex_five = Ok [d]).
  { eexists. vm_compute. reflexivity. }
  destruct Hd as [d Hd]. exists d. split; [exact Hd|].
  destruct (Hok [d] Hd) as (Hi & Hs & Hc).
  injection Hi as Hi. injection Hs as Hs. injection Hc as Hc. by repeat split.
Defined.

(** The store of five queued jobs and a running one, listed with the
    empty string for both filters and no bound: all six jobs come
    back, the running one among them. *)
Lemma list_jobs_empty_filter_witness :
  exists ds,
    list_jobs RefCodec.loads (Some EmptyString) (Some EmptyString) (-1) ex_five = Ok ds /\
    map job_key ds ≡ₚ map row_key ex_five /\
    ("job-6", "running", "generate_amazon_content") ∈ map job_key ds /\
    ("job-1", "queued", "generate_amazon_content") ∈ map job_key ds /\
    length ds = 6%nat.
Proof.
  destruct (list_jobs_empty_filter RefCodec.loads (Some EmptyString) (Some EmptyString)
              (-1) ex_five) as (_ & _ & _ & _ & Hall & Hex).
  destruct Hex as [ds Hds]; [lia | exact ex_five_decodable |].
  exists ds. split; [exact Hds|].
  pose proof (Hall ds Hds ltac:(lia)) as Hperm. split; [exact Hperm|].
  split; [|split].
  - rewrite Hperm. apply (bool_decide_unpack _). vm_compute. exact I.
  - rewrite Hperm. apply (bool_decide_unpack _). vm_compute. exact I.
  - rewrite <- (length_map job_key). rewrite (Permutation_length Hperm). reflexivity.
Defined.

(** ** Examples for the further properties *)

(** Enqueueing job-1 on the empty store, and enqueueing it again. *)
Lemma enqueue_job_then_get_job_witness :
  (exists msg,
     enqueue_job RefCodec.dumps "job-1" 20 "generate_amazon_content" ex_payload None 3
                 [ex_queued] = Raised msg) /\
  exists db',
    enqueue_job RefCodec.dumps "job-1" 10 "generate_amazon_content" ex_payload None 3 []
    = Ok ("job-1", db') /\
    get_job RefCodec.loads "job-2" db' = Ok None.
Proof.
  split.
  - apply (enqueue_job_then_get_job RefCodec.dumps RefCodec.loads "job-1" 20
             "generate_amazon_content" ex_payload None 3 [ex_queued]).
    apply list_elem_of_here.
  - destruct (enqueue_job_then_get_job RefCodec.dumps RefCodec.loads "job-1" 10
                "generate_amazon_content" ex_payload None 3 []) as [_ Hfresh].
    destruct Hfresh as (db' & Henq & _ & Hother).
    + apply not_elem_of_nil.
    + vm_compute. discriminate.
    + vm_compute. reflexivity.
    + exists db'. split; [exact Henq|]. rewrite (Hother "job-2"); [reflexivity|].
      discriminate.
Defined.

(** An id that is not stored, and the stored id. *)
Lemma get_job_outcomes_witness :
  get_job RefCodec.loads "job-2" [ex_queued] = Ok None /\
  exists d, get_job RefCodec.loads "job-1" [ex_queued] = Ok (Some d) /\ d_id d = "job-1".
Proof.
  split.
  - apply (get_job_outcomes RefCodec.loads "job-2" [ex_queued]).
    apply (bool_decide_unpack _). vm_compute. exact I.
  - destruct (get_job_outcomes RefCodec.loads "job-1" [ex_queued]) as [_ Hrow].
    apply (Hrow 0%nat ex_queued); [apply NoDup_singleton | reflexivity | reflexivity |].
    apply ex_row_decodable.
Defined.

(** An update of a job that is not stored. *)
Lemma update_job_status_unknown_id_witness :
  ("job-2" ∉ map j_id [ex_running]) /\
  update_job_status RefCodec.dumps 200 "job-2" "failed" None (Some "late") None None
                    [ex_running] = [ex_running].
Proof.
  assert (H : "job-2" ∉ map j_id [ex_running]).
  { apply (bool_decide_unpack _). vm_compute. exact I. }
  split; [exact H|].
  exact (update_job_status_unknown_id RefCodec.dumps 200 "job-2" "failed" None
           (Some "late") None None [ex_running] H).
Defined.

(** A poll of a store whose only job is running. *)
Lemma claim_next_job_empty_poll_witness :
  (forall r, r ∈ [ex_running] -> j_status r <> "queued") /\
  claim_next_job RefCodec.loads 300 "worker-2" [ex_running] = (Ok None, [ex_running]).
Proof.
  assert (H : forall r, r ∈ [ex_running] -> j_status r <> "queued").
  { intros r ->%list_elem_of_singleton. discriminate. }
  split; [exact H|].
  destruct (claim_next_job_empty_poll RefCodec.loads 300 "worker-2" [ex_running])
    as [Hiff Hdb].
  apply (proj2 Hiff) in H. specialize (Hdb H).
  destruct (claim_next_job RefCodec.loads 300 "worker-2" [ex_running]) as [out db'].
  simpl in H, Hdb. by rewrite H, Hdb.
Defined.

Lemma ex_two_NoDup : NoDup (map j_id ex_two).
Proof. apply (bool_decide_unpack _). vm_compute. exact I. Qed.

Lemma ex_two_decodable r : r ∈ ex_two -> row_decodable RefCodec.loads r.
Proof.
  unfold ex_two. intros Hr.
  repeat (apply elem_of_cons in Hr as [->|Hr]; [apply ex_row_decodable|]).
  by apply elem_of_nil in Hr.
Qed.

(** A claim on the store of job-a and job-b. *)
Lemma claim_next_job_frame_witness :
  NoDup (map j_id ex_two) /\
  (exists r0, r0 ∈ ex_two /\ j_status r0 = "queued") /\
  exists (i : nat) r',
    (claim_next_job RefCodec.loads 100 "worker-1" ex_two).2 = <[i := r']> ex_two /\
    j_status r' = "running" /\ j_worker_id r' = Some "worker-1".
Proof.
  assert (Hq : exists r0, r0 ∈ ex_two /\ j_status r0 = "queued").
  { exists (ex_row "job-a" "queued" 10 None None).
    split; [apply list_elem_of_here | reflexivity]. }
  split; [exact ex_two_NoDup|]. split; [exact Hq|].
  destruct (claim_next_job_frame RefCodec.loads 100 "worker-1" ex_two ex_two_NoDup Hq)
    as (i & r & r' & _ & _ & Hdb & Hs & _ & Hw & _).
  exists i, r'. split; [exact Hdb|]. split; [exact Hs | exact Hw].
Defined.

(** Three calls on the store of job-a and job-b hand out job-a, then
    job-b, then nothing. *)
Lemma claim_calls_distinct_fifo_witness :
  NoDup (map j_id ex_two) /\
  map d_id (claim_calls RefCodec.loads [(100, "worker-1"); (101, "worker-2");
                                        (102, "worker-3")] ex_two).1
  = ["job-a"; "job-b"] /\
  NoDup (map d_id (claim_calls RefCodec.loads [(100, "worker-1"); (101, "worker-2");
                                               (102, "worker-3")] ex_two).1).
Proof.
  split; [exact ex_two_NoDup|]. split; [vm_compute; reflexivity|].
  destruct (claim_calls RefCodec.loads [(100, "worker-1"); (101, "worker-2");
                                        (102, "worker-3")] ex_two) as [jobs db'] eqn:Hc.
  exact (proj1 (claim_calls_distinct_fifo RefCodec.loads _ ex_two jobs db'
                  ex_two_NoDup Hc)).
Defined.

(** The job claimed at time 100 by a worker that died: swept at time
    1000, claimed at time 1001 by worker-2. *)
Lemma requeue_then_claim_witness :
  NoDup (map j_id [ex_running]) /\
  100 + 600 < 1000 /\
  exists d db2,
    claim_next_job RefCodec.loads 1001 "worker-2"
                   (requeue_stale_jobs 1000 1000 600 [ex_running])
    = (Ok (Some d), db2) /\
    d_id d = "job-1" /\ d_worker_id d = Some "worker-2" /\ d_attempts d = 0.
Proof.
  assert (Hnd : NoDup (map j_id [ex_running])) by apply NoDup_singleton.
  split; [exact Hnd|]. split; [lia|].
  destruct (requeue_then_claim RefCodec.loads 1000 1000 600 1001 "worker-2"
              [ex_running] 0 ex_running 100 Hnd eq_refl eq_refl eq_refl ltac:(lia))
    as (d & db2 & r2 & Hclaim & Hid & _ & Hw & _ & Ha & _).
  - apply ex_row_decodable.
  - intros r' ->%list_elem_of_singleton Hne. by destruct Hne.
  - exists d, db2. split; [exact Hclaim|]. split; [exact Hid|].
    split; [exact Hw | exact Ha].
Defined.

(** Three calls on the store of five queued jobs, and seven calls. *)
Lemma claim_calls_complete_witness :
  length (claim_calls RefCodec.loads [(100, "worker-1"); (101, "worker-2");
                                      (102, "worker-1")] ex_five).1 = 3%nat /\
  length (claim_calls RefCodec.loads
            [(100, "worker-1"); (101, "worker-2"); (102, "worker-1");
             (103, "worker-2"); (104, "worker-1"); (105, "worker-2");
             (106, "worker-1")] ex_five).1 = 5%nat.
Proof.
  assert (Hnd : NoDup (map j_id ex_five)).
  { apply (bool_decide_unpack _). vm_compute. exact I. }
  split.
  - rewrite (claim_calls_complete RefCodec.loads _ ex_five Hnd ex_five_decodable).
    reflexivity.
  - rewrite (claim_calls_complete RefCodec.loads _ ex_five Hnd ex_five_decodable).
    reflexivity.
Defined.


(** job-c, enqueued at time 30 after job-a and job-b, heads the listing. *)
Lemma enqueue_then_list_jobs_witness :
  exists db' ds d ds',
    enqueue_job RefCodec.dumps "job-c" 30 "generate_amazon_content" ex_payload None 3
                ex_two = Ok ("job-c", db') /\
    list_jobs RefCodec.loads (Some "queued") None 2 db' = Ok ds /\
    ds = d :: ds' /\ d_id d = "job-c".
Proof.
  destruct (enqueue_job RefCodec.dumps "job-c" 30 "generate_amazon_content" ex_payload
              None 3 ex_two) as [[job_id db']|msg] eqn:Henq; [|discriminate Henq].
  assert (job_id = "job-c") as -> by (vm_compute in Henq; congruence).
  destruct (list_jobs RefCodec.loads (Some "queued") None 2 db') as [ds|msg] eqn:Hlist.
  2:{ exfalso. vm_compute in Henq. injection Henq as <-. vm_compute in Hlist.
      discriminate Hlist. }
  destruct (enqueue_then_list_jobs RefCodec.dumps RefCodec.loads "job-c" 30
              "generate_amazon_content" ex_payload None 3 ex_two db'
              (Some "queued") None 2 ds Henq)
    as (d & ds' & Hds & Hid & _); [|reflexivity|reflexivity|lia|exact Hlist|].
  - intros r Hr. unfold ex_two in Hr.
    repeat (apply elem_of_cons in Hr as [->|Hr]; [simpl; lia|]).
    by apply elem_of_nil in Hr.
  - exists db', ds, d, ds'. repeat split; assumption.
Defined.

(** A job of the type resize_images. *)
Lemma process_job_unknown_type_witness :
  exists r', process_job RefCodec.dumps ex_ok 200 201 ex_unknown_dict [ex_unknown] !! 0%nat
             = Some r' /\
    j_status r' = "failed" /\ j_error r' = Some "Unknown job type: resize_images" /\
    j_attempts r' = 0.
Proof.
  destruct (process_job_unknown_type RefCodec.dumps ex_ok 200 201 ex_unknown_dict
              [ex_unknown] 0 ex_unknown eq_refl eq_refl ltac:(discriminate))
    as [(r' & Hr' & Hs & He & _ & _ & Ha & _) _].
  exists r'. repeat split; assumption.
Defined.

(** The running job, when the script ends with return code 0. *)
Lemma process_job_success_witness :
  run_handler ex_ok ex_running_dict = Completed 0 "done" EmptyString /\
  exists r', process_job RefCodec.dumps ex_ok 200 201 ex_running_dict [ex_running] !! 0%nat
             = Some r' /\
    j_status r' = "succeeded" /\ j_finished_at r' = Some 201 /\ j_attempts r' = 0.
Proof.
  split; [reflexivity|].
  destruct (process_job_success RefCodec.dumps ex_ok 200 201 ex_running_dict
              [ex_running] 0 ex_running "done" EmptyString eq_refl eq_refl eq_refl eq_refl)
    as (r' & Hr' & Hs & _ & Hf & _ & _ & Ha & _).
  exists r'. repeat split; assumption.
Defined.


(** A failed job next to a queued one, under two turns of the loop. *)
Lemma worker_loop_terminal_final_witness :
  NoDup (map j_id [ex_failed; ex_queued]) /\
  terminal (j_status ex_failed) /\
  exists db' n' exs,
    worker_loop RefCodec.dumps RefCodec.loads "worker-2" 600
                [(ex_ok, ex_clock 1000); (ex_ok, ex_clock 2000)]
                ([ex_failed; ex_queued], 0) = (db', n', exs) /\
    db' !! 0%nat = Some ex_failed /\ "job-9" ∉ exs.
Proof.
  assert (Hnd : NoDup (map j_id [ex_failed; ex_queued])).
  { apply (bool_decide_unpack _). vm_compute. exact I. }
  assert (Ht : terminal (j_status ex_failed)) by (right; reflexivity).
  split; [exact Hnd|]. split; [exact Ht|].
  exact (worker_loop_terminal_final RefCodec.dumps RefCodec.loads "worker-2" 600
           [(ex_ok, ex_clock 1000); (ex_ok, ex_clock 2000)] 0
           [ex_failed; ex_queued] 0 ex_failed Hnd eq_refl Ht).
Defined.

(** A stale running job is left alone by the polls 1, 2 and 3 of an
    idle worker. *)
Lemma idle_worker_sweep_schedule_witness :
  (forall r, r ∈ [ex_running] -> j_status r <> "queued") /\
  0 < 1 mod 30 /\
  worker_loop RefCodec.dumps RefCodec.loads "worker-2" 600
              [(ex_ok, ex_clock 1000); (ex_ok, ex_clock 1002); (ex_ok, ex_clock 1004)]
              ([ex_running], 1)
  = ([ex_running], 4, []).
Proof.
  assert (H : forall r, r ∈ [ex_running] -> j_status r <> "queued").
  { intros r ->%list_elem_of_singleton. discriminate. }
  split; [exact H|]. split; [reflexivity|].
  exact (idle_worker_sweep_schedule RefCodec.dumps RefCodec.loads "worker-2" 600
           [(ex_ok, ex_clock 1000); (ex_ok, ex_clock 1002); (ex_ok, ex_clock 1004)]
           [ex_running] 1 H eq_refl ltac:(vm_compute; discriminate)).
Defined.

(** The job whose payload is not a JSON text is claimed and the call
    raises. *)
Lemma claim_next_job_undecodable_witness :
  ~ row_decodable RefCodec.loads ex_bad /\
  exists msg r',
    claim_next_job RefCodec.loads 100 "worker-1" [ex_bad] = (Raised msg, [r']) /\
    j_status r' = "running".
Proof.
  assert (Hbad : ~ row_decodable RefCodec.loads ex_bad).
  { intros [[Hp|[v Hp]] _]; [discriminate Hp|]. vm_compute in Hp. discriminate Hp. }
  split; [exact Hbad|].
  destruct (claim_next_job_undecodable RefCodec.dumps RefCodec.loads 100 "worker-1"
              [ex_bad] 0 ex_bad (NoDup_singleton _) eq_refl eq_refl Hbad)
    as ([msg Hclaim] & Hs & _).
  exists msg, (claimed 100 "worker-1" ex_bad). split; [exact Hclaim | exact Hs].
Defined.

(** job-1, alone in the queue, succeeds on the first of three turns. *)
Lemma worker_loop_success_once_witness :
  row_decodable RefCodec.loads ex_queued /\
  RefCodec.loads (j_payload ex_queued) = Some ex_payload /\
  exists r' n',
    worker_loop RefCodec.dumps RefCodec.loads "worker-1" 600
                [(ex_ok, ex_clock 20); (ex_boom, ex_clock 30); (ex_boom, ex_clock 40)]
                ([ex_queued], 0) = ([r'], n', ["job-1"]) /\
    j_status r' = "succeeded" /\ j_attempts r' = 0.
Proof.
  assert (Hload : RefCodec.loads (j_payload ex_queued) = Some ex_payload)
    by (vm_compute; reflexivity).
  split; [apply ex_row_decodable|]. split; [exact Hload|].
  destruct (worker_loop_success_once RefCodec.dumps RefCodec.loads "worker-1" 600
              ex_ok (ex_clock 20) [(ex_boom, ex_clock 30); (ex_boom, ex_clock 40)] 0
              ex_queued [("m_number", JStr "M1234")] "M1234" "done" EmptyString
              eq_refl eq_refl (ex_row_decodable _ _ _ _ _)
              ltac:(vm_compute; discriminate) Hload eq_refl eq_refl)
    as (r' & n' & Hloop & Hs & _ & _ & Ha & _).
  exists r', n'. split; [exact Hloop|]. split; [exact Hs | exact Ha].
Defined.

(** The statistics of the store of five queued jobs and a running one. *)
Lemma get_job_stats_capped_witness :
  exists st, get_job_stats RefCodec.loads ex_five = Ok st /\
    s_queued st = 5%nat /\ s_running st = 1%nat /\ s_total st = 6%nat.
Proof.
  destruct (get_job_stats_capped RefCodec.loads ex_five ex_five_decodable)
    as (st & Hst & Hq & Hr & Hs & Hf & Ht & _).
  exists st. split; [exact Hst|].
  assert (s_queued st = 5%nat) as Hq' by (rewrite Hq; reflexivity).
  assert (s_running st = 1%nat) as Hr' by (rewrite Hr; reflexivity).
  split; [exact Hq'|]. split; [exact Hr'|].
  rewrite Ht, Hq', Hr', Hs, Hf. reflexivity.
Defined.

(** The status of a job that is not stored, and of job-1. *)
Lemma get_job_status_spec_witness :
  get_job_status RefCodec.loads ex_strftime "job-2" [ex_running]
  = Ok (BodyError "Job not found", 404) /\
  exists v, get_job_status RefCodec.loads ex_strftime "job-1" [ex_running]
            = Ok (BodyJob v, 200) /\
    is_Some (v_started_at_formatted v).
Proof.
  split.
  - apply (get_job_status_spec RefCodec.loads ex_strftime "job-2" [ex_running]).
    apply (bool_decide_unpack _). vm_compute. exact I.
  - destruct (get_job_status RefCodec.loads ex_strftime "job-1" [ex_running])
      as [[body code]|msg] eqn:Hget; [|vm_compute in Hget; discriminate Hget].
    destruct (get_job_status_spec RefCodec.loads ex_strftime "job-1" [ex_running])
      as (_ & Hok & _).
    destruct (Hok body code Hget) as [(_ & _ & Habs)|(-> & v & -> & Hjob & _ & _ & Hs & _)].
    + exfalso. apply Habs. apply list_elem_of_here.
    + exists v. split; [reflexivity|]. apply Hs. exists 100.
      assert (Hg : get_job RefCodec.loads "job-1" [ex_running]
                   = Ok (Some ex_running_dict)) by (vm_compute; reflexivity).
      rewrite Hg in Hjob. injection Hjob as Hjob. rewrite <- Hjob.
      split; [reflexivity | lia].
Defined.

(** A listing with the limit 2, and one with a limit that is no number. *)
Lemma list_all_jobs_spec_witness :
  (exists body,
     list_all_jobs RefCodec.loads ex_strftime ex_int (Some "queued") None (Some "2") ex_five
     = Ok body /\ l_count body = 2%nat) /\
  exists msg,
    list_all_jobs RefCodec.loads ex_strftime ex_int None None (Some "two") ex_five
    = Raised msg.
Proof.
  split.
  - destruct (list_all_jobs RefCodec.loads ex_strftime ex_int (Some "queued") None
                (Some "2") ex_five) as [body|msg] eqn:Hlist;
      [|vm_compute in Hlist; discriminate Hlist].
    exists body. split; [reflexivity|].
    destruct (list_all_jobs_spec RefCodec.loads ex_strftime ex_int (Some "queued") None
                (Some "2") ex_five) as [_ Hok].
    destruct (Hok body Hlist) as (limit & Hlimit & _ & _ & Hcount & _).
    rewrite Hcount. vm_compute in Hlist. injection Hlist as <-. reflexivity.
  - eexists.
    apply (proj1 (list_all_jobs_spec RefCodec.loads ex_strftime ex_int None None
                    (Some "two") ex_five) "two"); reflexivity.
Defined.

(** A content run requested on the empty store. *)
Lemma run_content_job_has_no_product_witness :
  exists body db1 d db2,
    run_content_async RefCodec.dumps "job-1" 10 "amazon_flatfile_20250101_1200.xlsx"
                      "pets" "gift" [] = Ok (body, 202, db1) /\
    claim_next_job RefCodec.loads 11 "worker-1" db1 = (Ok (Some d), db2) /\
    run_handler ex_ok d = ex_ok EmptyString.
Proof.
  destruct (run_content_job_has_no_product RefCodec.dumps RefCodec.loads "job-1" 10
              "amazon_flatfile_20250101_1200.xlsx" "pets" "gift" [] 11 "worker-1" ex_ok)
    as (body & db1 & d & db2 & Hrun & _ & _ & Hclaim & _ & _ & _ & _ & Hh).
  - apply NoDup_nil_2.
  - apply not_elem_of_nil.
  - intros r Hr. by apply elem_of_nil in Hr.
  - vm_compute. discriminate.
  - vm_compute. reflexivity.
  - exists body, db1, d, db2. repeat split; assumption.
Defined.

(** job-1 through the race of two workers: the row is still the first
    of the store, with its id and its payload. *)
Lemma jobs_are_durable_witness :
  sys_db (run_events RefCodec.dumps RefCodec.loads [ex_enqueue] init) !! 0%nat
  = Some ex_queued /\
  exists r',
    sys_db (run_events RefCodec.dumps RefCodec.loads (tail ex_race)
              (run_events RefCodec.dumps RefCodec.loads [ex_enqueue] init)) !! 0%nat
    = Some r' /\
    j_id r' = "job-1" /\ j_payload r' = j_payload ex_queued.
Proof.
  assert (H : sys_db (run_events RefCodec.dumps RefCodec.loads [ex_enqueue] init) !! 0%nat
              = Some ex_queued) by (vm_compute; reflexivity).
  split; [exact H|].
  destruct (jobs_are_durable RefCodec.dumps RefCodec.loads (tail ex_race) _ 0 ex_queued H)
    as (r' & Hr' & Hid & _ & _ & _ & Hp & _).
  exists r'. split; [exact Hr'|]. split; [exact Hid | exact Hp].
Defined.

(** The running job with a list as payload, when the script would end
    with return code 0. *)
Lemma process_job_malformed_payload_witness :
  exists r', process_job RefCodec.dumps ex_ok 200 201 ex_list_dict [ex_running] !! 0%nat
             = Some r' /\
    j_attempts r' = 1 /\ j_status r' = "queued".
Proof.
  destruct (process_job_malformed_payload RefCodec.dumps ex_ok 200 201 ex_list_dict
              [ex_running] 0 ex_running eq_refl eq_refl eq_refl)
    as [(r' & msg & Hr' & Ha & Hs & _) _].
  - intros m Hm. discriminate Hm.
  - exists r'. split; [exact Hr'|]. split; [exact Ha | exact Hs].
Defined.
